(** * Integrity validation of the pack marketplace: catalog, pack and manifest validators

    A shallow embedding of [scripts/_lib.mjs], [scripts/validate-catalog.mjs]
    and [scripts/validate-pack.mjs].

    Conventions of the embedding.
    - A JavaScript string is a [string]: the bytes of its UTF-8 encoding,
      in which a surrogate that is not half of a pair is written as the three
      bytes of its code point ([ED], then a byte from [A0] up).  The
      validators join strings around ASCII text only and test them against
      ASCII text or whole strings, so joining, equality, prefix, suffix and
      substring tests on the bytes agree with the ones on UTF-16 code units.
      [toLowerCase], which follows the Unicode tables of the host, comes with
      the platform.
    - A JavaScript number is a binary64 value, [spec_float] with precision 53
      and maximal exponent 1024, with the rounding of [SpecFloat].
    - [undefined] is [None] in [option JSON].
    - The [issues] array of a validator is only ever pushed to: a run is a
      value of the writer monad [W], which records the issues pushed, the
      file-system calls made, and whether the run returned or threw. *)

From Stdlib Require Import String Ascii List ZArith NArith Bool Lia PeanoNat.
From Stdlib Require Import Floats.SpecFloat.
Import ListNotations.
Set Warnings "-register-all".
Open Scope list_scope.
Open Scope string_scope.

(* ------------------------------------------------------------------ *)
(** ** JavaScript strings *)

Module Str.

Definition chars (s : string) : list ascii := list_ascii_of_string s.
Definition ofChars (l : list ascii) : string := string_of_list_ascii l.

Definition code (c : ascii) : N := N_of_ascii c.

Definition isEmpty (s : string) : bool :=
  match s with EmptyString => true | _ => false end.

(** [s.startsWith(p)] *)
Definition startsWith (s p : string) : bool := String.prefix p s.

Fixpoint prefixChars (p l : list ascii) : bool :=
  match p, l with
  | [], _ => true
  | a :: p', b :: l' => Ascii.eqb a b && prefixChars p' l'
  | _ :: _, [] => false
  end.

(** [s.endsWith(p)] *)
Definition endsWith (s p : string) : bool :=
  prefixChars (rev (chars p)) (rev (chars s)).

(** [s.includes(p)] *)
Fixpoint includesChars (p l : list ascii) : bool :=
  prefixChars p l ||
  match l with
  | [] => false
  | _ :: l' => includesChars p l'
  end.

Definition includes (s p : string) : bool := includesChars (chars p) (chars s).

(** [s.split(sep)] for a one-character separator. *)
Fixpoint splitChars (sep : ascii) (cur : list ascii) (l : list ascii) : list string :=
  match l with
  | [] => [ofChars (rev cur)]
  | c :: l' =>
      if Ascii.eqb c sep
      then ofChars (rev cur) :: splitChars sep [] l'
      else splitChars sep (c :: cur) l'
  end.

Definition split (sep : ascii) (s : string) : list string :=
  splitChars sep [] (chars s).

(** [parts.join(sep)] *)
Definition join (sep : string) (parts : list string) : string :=
  String.concat sep parts.

(** The part before the first [sep], and the part after it when there is one. *)
Fixpoint cutChars (sep : ascii) (cur l : list ascii) : string * option string :=
  match l with
  | [] => (ofChars (rev cur), None)
  | c :: l' =>
      if Ascii.eqb c sep
      then (ofChars (rev cur), Some (ofChars l'))
      else cutChars sep (c :: cur) l'
  end.

Definition cut (sep : ascii) (s : string) : string * option string :=
  cutChars sep [] (chars s).

(** White space and line terminators of ECMAScript, as UTF-8 byte
    sequences: the number of bytes of the white-space character that
    starts [l], or [0]. *)
Definition wsLen (l : list N) : nat :=
  match l with
  | (9 | 10 | 11 | 12 | 13 | 32)%N :: _ => 1
  | 194%N :: 160%N :: _ => 2                       (* U+00A0 *)
  | 225%N :: 154%N :: 128%N :: _ => 3              (* U+1680 *)
  | 226%N :: 128%N :: b :: _ =>
      if ((128 <=? b) && (b <=? 138))%N then 3     (* U+2000 .. U+200A *)
      else if ((b =? 168) || (b =? 169) || (b =? 175))%N then 3
      else 0                                       (* U+2028, U+2029, U+202F *)
  | 226%N :: 129%N :: 159%N :: _ => 3              (* U+205F *)
  | 227%N :: 128%N :: 128%N :: _ => 3              (* U+3000 *)
  | 239%N :: 187%N :: 191%N :: _ => 3              (* U+FEFF *)
  | _ => 0
  end.

(** The same read from the end of the string: [l] is reversed. *)
Definition wsLenRev (l : list N) : nat :=
  match l with
  | [] => 0
  | a :: l' =>
      if Nat.eqb (wsLen [a]) 1 then 1
      else match l' with
           | [] => 0
           | b :: l'' =>
               if Nat.eqb (wsLen [b; a]) 2 then 2
               else match l'' with
                    | [] => 0
                    | c :: _ => if Nat.eqb (wsLen [c; b; a]) 3 then 3 else 0
                    end
           end
  end.

Fixpoint strip (len : list N -> nat) (fuel : nat) (l : list ascii) : list ascii :=
  match fuel with
  | O => l
  | S fuel' =>
      match len (map code l) with
      | O => l
      | k => strip len fuel' (skipn k l)
      end
  end.

(** [s.trim()] *)
Definition trim (s : string) : string :=
  let l := chars s in
  let l1 := strip wsLen (List.length l) l in
  ofChars (rev (strip wsLenRev (List.length l1) (rev l1))).

Definition lowerChar (c : ascii) : ascii :=
  let n := code c in
  if ((65 <=? n) && (n <=? 90))%N then ascii_of_N (n + 32) else c.

(** A string with its letters A-Z lowered, and nothing else changed. *)
Definition lowerAscii (s : string) : string := ofChars (map lowerChar (chars s)).

Definition isDigit (c : ascii) : bool :=
  let n := code c in ((48 <=? n) && (n <=? 57))%N.
Definition isLower (c : ascii) : bool :=
  let n := code c in ((97 <=? n) && (n <=? 122))%N.
Definition isUpper (c : ascii) : bool :=
  let n := code c in ((65 <=? n) && (n <=? 90))%N.
(** [[0-9a-f]] under the [i] flag, and [[a-fA-F0-9]]. *)
Definition isHex (c : ascii) : bool :=
  let n := code c in
  isDigit c || ((97 <=? n) && (n <=? 102))%N || ((65 <=? n) && (n <=? 70))%N.

Definition all (p : ascii -> bool) (s : string) : bool := forallb p (chars s).

(** A character of ASCII. *)
Definition isAscii (c : ascii) : bool := (code c <? 128)%N.

(** Decimal digits of a natural number, as template literals print an
    array index or a length. *)
Definition digitChar (n : nat) : ascii := ascii_of_nat (48 + n).

Fixpoint decimalFuel (fuel n : nat) (acc : list ascii) : list ascii :=
  match fuel with
  | O => acc
  | S fuel' =>
      let acc' := digitChar (n mod 10) :: acc in
      match n / 10 with
      | O => acc'
      | q => decimalFuel fuel' q acc'
      end
  end.

Definition ofNat (n : nat) : string := ofChars (decimalFuel (S n) n []).

(** The double quote, for messages that quote a value. *)
Definition dquote : string := String (ascii_of_nat 34) EmptyString.

End Str.

(* ------------------------------------------------------------------ *)
(** ** JSON documents and the JavaScript tests the validators make on them *)

(** What [JSON.parse] returns.  An object lists its own properties; a
    parsed object holds each key once. *)
Inductive JSON : Type :=
| JNull
| JBool (b : bool)
| JNumber (x : spec_float)
| JString (s : string)
| JArray (items : list JSON)
| JObject (fields : list (string * JSON)).

Module Num.

Definition prec : Z := 53.
Definition emax : Z := 1024.

Definition ofZ (z : Z) : spec_float := binary_normalize prec emax z 0 false.

Definition digitVal (c : ascii) : Z := Z.of_N (Str.code c) - 48.

(** [Number(s)] for a string of decimal digits: the integer it writes,
    rounded to the nearest binary64 value (ties to even), which is
    [Infinity] from 2^1024 - 2^970 on. *)
Definition ofDigits (s : string) : spec_float :=
  ofZ (fold_left (fun acc c => 10 * acc + digitVal c) (Str.chars s) 0)%Z.

Definition sub (x y : spec_float) : spec_float := SFsub prec emax x y.
Definition zero : spec_float := S754_zero false.

(** [x === y], [x > y] and [x <= y] on numbers. *)
Definition eqb (x y : spec_float) : bool := SFeqb x y.
Definition gtb (x y : spec_float) : bool := SFltb y x.
Definition leb (x y : spec_float) : bool := SFleb x y.

(** [Number.isInteger(x)] *)
Definition isInteger (x : spec_float) : bool :=
  match x with
  | S754_zero _ => true
  | S754_finite _ m e =>
      (0 <=? e)%Z || (Z.modulo (Zpos m) (2 ^ (- e)) =? 0)%Z
  | _ => false
  end.

End Num.

Module Js.

(** [undefined] is [None]. *)
Definition value : Type := option JSON.

Fixpoint assoc (k : string) (fields : list (string * JSON)) : option JSON :=
  match fields with
  | [] => None
  | (k', v) :: rest => if String.eqb k k' then Some v else assoc k rest
  end.

(** [v.k] for a value [v] that is neither [null] nor [undefined]: own
    property of an object; arrays, strings, numbers and booleans have none
    of the property names the validators read. *)
Definition prop (v : JSON) (k : string) : value :=
  match v with
  | JObject fields => assoc k fields
  | _ => None
  end.

(** [v?.k] *)
Definition propOpt (v : value) (k : string) : value :=
  match v with
  | Some JNull | None => None
  | Some x => prop x k
  end.

Definition truthy (v : value) : bool :=
  match v with
  | None | Some JNull => false
  | Some (JBool b) => b
  | Some (JNumber x) =>
      match x with
      | S754_zero _ | S754_nan => false
      | _ => true
      end
  | Some (JString s) => negb (Str.isEmpty s)
  | Some (JArray _) | Some (JObject _) => true
  end.

(** [typeof v === 'object'] *)
Definition typeofObject (v : value) : bool :=
  match v with
  | Some JNull | Some (JArray _) | Some (JObject _) => true
  | _ => false
  end.

(** [Array.isArray(v)] *)
Definition isArray (v : value) : bool :=
  match v with Some (JArray _) => true | _ => false end.

(** The string [v] is when [typeof v === 'string']. *)
Definition asString (v : value) : option string :=
  match v with Some (JString s) => Some s | _ => None end.

Definition isString (v : value) : bool :=
  match v with Some (JString _) => true | _ => false end.

(** [!v || typeof v !== 'object' || Array.isArray(v)] *)
Definition notPlainObject (v : value) : bool :=
  negb (truthy v) || negb (typeofObject v) || isArray v.

(** [typeof v === 'string' ? v.trim() : ''] *)
Definition trimmedOrEmpty (v : value) : string :=
  match asString v with Some s => Str.trim s | None => EmptyString end.

(** [typeof v !== 'string' || !v.trim()] *)
Definition blankString (v : value) : bool :=
  match asString v with Some s => Str.isEmpty (Str.trim s) | None => true end.

(** [!Number.isInteger(v) || v <= 0] *)
Definition notPositiveInteger (v : value) : bool :=
  match v with
  | Some (JNumber x) => negb (Num.isInteger x) || Num.leb x Num.zero
  | _ => true
  end.

(** The pairs of [arr.entries()]. *)
Definition entries {A : Type} (l : list A) : list (nat * A) :=
  combine (seq 0 (List.length l)) l.

End Js.

(* ------------------------------------------------------------------ *)
(** ** [node:path], POSIX flavour *)

Module Path.

Definition slash : ascii := "/"%char.

(** [normalizeString]: resolve [.] and [..] segments; leading [..]
    segments are kept when [allowAboveRoot].  [stack] holds the segments
    kept so far, last first. *)
Fixpoint normalizeSegments (allowAboveRoot : bool) (stack segs : list string)
  : list string :=
  match segs with
  | [] => rev stack
  | seg :: rest =>
      if Str.isEmpty seg || String.eqb seg "." then
        normalizeSegments allowAboveRoot stack rest
      else if String.eqb seg ".." then
        match stack with
        | top :: below =>
            if String.eqb top ".." then
              normalizeSegments allowAboveRoot
                (if allowAboveRoot then ".." :: stack else stack) rest
            else normalizeSegments allowAboveRoot below rest
        | [] =>
            normalizeSegments allowAboveRoot
              (if allowAboveRoot then [".."] else []) rest
        end
      else normalizeSegments allowAboveRoot (seg :: stack) rest
  end.

(** [path.isAbsolute(p)] *)
Definition isAbsolute (p : string) : bool := Str.startsWith p "/".

(** [path.posix.normalize(p)] *)
Definition normalize (p : string) : string :=
  if Str.isEmpty p then "."
  else
    let isAbs := isAbsolute p in
    let trailing := Str.endsWith p "/" in
    let body :=
      Str.join "/" (normalizeSegments (negb isAbs) [] (Str.split slash p)) in
    if Str.isEmpty body then
      if isAbs then "/" else if trailing then "./" else "."
    else
      let body := if trailing then body ++ "/" else body in
      if isAbs then "/" ++ body else body.

(** [path.join(a, b)] *)
Definition join (a b : string) : string :=
  match Str.isEmpty a, Str.isEmpty b with
  | true, true => "."
  | true, false => normalize b
  | false, true => normalize a
  | false, false => normalize (a ++ "/" ++ b)
  end.

Fixpoint dropSlashes (l : list ascii) : list ascii :=
  match l with
  | c :: l' => if Ascii.eqb c slash then dropSlashes l' else l
  | [] => []
  end.

Fixpoint takeSegment (l : list ascii) : list ascii :=
  match l with
  | c :: l' => if Ascii.eqb c slash then [] else c :: takeSegment l'
  | [] => []
  end.

(** [path.basename(p)]: the last segment, trailing slashes ignored. *)
Definition basename (p : string) : string :=
  Str.ofChars (rev (takeSegment (dropSlashes (rev (Str.chars p))))).

End Path.

(* ------------------------------------------------------------------ *)
(** ** What the validators take from the platform

    Built-ins whose result is left to the host: locale-aware comparison,
    date parsing, the URL parser, [basename] with an extension, and the
    lowering of letters, of which the validators are given one law: on a
    string of ASCII characters it lowers A-Z and keeps the rest. *)

Record Platform : Type := {
  (** [a.localeCompare(b)]: negative, zero or positive. *)
  localeCompare : string -> string -> Z;
  (** [!Number.isNaN(new Date(s).getTime())] *)
  dateParses : string -> bool;
  (** [new URL(s).pathname], [None] when the constructor throws. *)
  urlPathname : string -> option string;
  (** [path.posix.basename(p, ext)] *)
  basenameExt : string -> string -> string;
  (** [s.toLowerCase()] *)
  toLowerCase : string -> string;
  toLowerCase_ascii :
    forall s, Str.all Str.isAscii s = true -> toLowerCase s = Str.lowerAscii s
}.

Module Arr.

Fixpoint insert (cmp : string -> string -> Z) (x : string) (sorted : list string)
  : list string :=
  match sorted with
  | [] => [x]
  | y :: rest =>
      if (cmp x y <? 0)%Z then x :: y :: rest else y :: insert cmp x rest
  end.

(** [arr.sort(cmp)]: the stable sort, by insertion; with a comparator that
    is consistent, as [localeCompare] is, every stable sort gives this list. *)
Definition sort (cmp : string -> string -> Z) (l : list string) : list string :=
  fold_left (fun acc x => insert cmp x acc) l [].

(** [set.has(x)] for a set of strings kept as the list of what was added. *)
Definition has (set : list string) (x : string) : bool :=
  existsb (String.eqb x) set.

End Arr.

(* ------------------------------------------------------------------ *)
(** ** Issues, and runs of a validator *)

Inductive level : Type := error | warn | info.

Record Issue : Type := mkIssue { issueLevel : level; message : string }.

(** The level of a consistency finding: [strictMode ? 'warn' : 'info']. *)
Definition advisory (strictMode : bool) : level := if strictMode then warn else info.

Inductive exn : Type :=
| URIError     (* decodeURIComponent on a malformed escape *)
| TypeError    (* path.join on a value that is not a string *)
| FsError.     (* a file-system call that fails *)

Inductive fscall : Type :=
| ExistsSync (p : string)
| StatSync (p : string)
| ReadFileSync (p : string)
| Sha256File (p : string)
| ReaddirSync (p : string).

Inductive res (A : Type) : Type :=
| Ok (a : A)
| Throw (e : exn).
Arguments Ok {A} a.
Arguments Throw {A} e.

(** A run: how it ended, the issues it pushed, in order, and the
    file-system calls it made, in order. *)
Record W (A : Type) : Type := mkW {
  result : res A;
  issued : list Issue;
  calls : list fscall
}.
Arguments mkW {A} _ _ _.
Arguments result {A} _.
Arguments issued {A} _.
Arguments calls {A} _.

Definition ret {A : Type} (a : A) : W A := mkW (Ok a) [] [].

Definition bind {A B : Type} (m : W A) (f : A -> W B) : W B :=
  match result m with
  | Ok a =>
      let n := f a in
      mkW (result n) (issued m ++ issued n)%list (calls m ++ calls n)%list
  | Throw e => mkW (Throw e) (issued m) (calls m)
  end.

Definition throw {A : Type} (e : exn) : W A := mkW (Throw e) [] [].

Declare Scope run_scope.
Delimit Scope run_scope with run.
Notation "x <- m ;; k" := (bind m (fun x => k))
  (at level 61, m at next level, right associativity) : run_scope.
Notation "m ;; k" := (bind m (fun _ => k))
  (at level 61, right associativity) : run_scope.
Open Scope run_scope.

(** [for (const x of xs) body(x)] *)
Fixpoint forEach {A : Type} (xs : list A) (body : A -> W unit) : W unit :=
  match xs with
  | [] => ret tt
  | x :: rest => body x ;; forEach rest body
  end.

(** [if (c) body] *)
Definition when (c : bool) (body : W unit) : W unit :=
  if c then body else ret tt.

(** [issues.push({ level, message })] *)
Definition addIssue (lvl : level) (msg : string) : W unit :=
  mkW (Ok tt) [mkIssue lvl msg] [].

(* ------------------------------------------------------------------ *)
(** ** The file system read by a run

    A snapshot: a tree from the root directory, and the working directory
    relative paths start from.  Of a file the validators use two things:
    what [JSON.parse] makes of its text ([None] when it throws) and its
    SHA-256 digest in lowercase hex.  Entry names of a directory are
    distinct, non-empty, without a slash, and neither [.] nor [..]. *)

Inductive fsnode : Type :=
| File (parsed : option JSON) (sha256 : string)
| Dir (entries : list (string * fsnode))
| Special.

Record FileSystem : Type := {
  fsRoot : fsnode;
  fsCwd : list string
}.

Module Fs.

Fixpoint child (name : string) (entries : list (string * fsnode)) : option fsnode :=
  match entries with
  | [] => None
  | (n, c) :: rest => if String.eqb name n then Some c else child name rest
  end.

Fixpoint descend (n : fsnode) (segs : list string) : option fsnode :=
  match segs with
  | [] => Some n
  | s :: rest =>
      match n with
      | Dir entries =>
          match child s entries with
          | Some c => descend c rest
          | None => None
          end
      | _ => None
      end
  end.

(** The segments of [p] from the root.  The paths the validators pass come
    out of [path.join], where [..] only leads a relative path. *)
Definition segments (fs : FileSystem) (p : string) : list string :=
  let start := if Path.isAbsolute p then [] else rev (fsCwd fs) in
  Path.normalizeSegments false start (Str.split Path.slash p).

(** The node a path names; a path that ends with a slash names a
    directory or nothing. *)
Definition node (fs : FileSystem) (p : string) : option fsnode :=
  if Str.isEmpty p then None
  else
    match descend (fsRoot fs) (segments fs p) with
    | Some (Dir es) => Some (Dir es)
    | Some n => if Str.endsWith p "/" then None else Some n
    | None => None
    end.

Definition isFileNode (n : option fsnode) : bool :=
  match n with Some (File _ _) => true | _ => false end.
Definition isDirNode (n : option fsnode) : bool :=
  match n with Some (Dir _) => true | _ => false end.

(** [fs.existsSync(p)] *)
Definition existsSync (fs : FileSystem) (p : string) : W bool :=
  mkW (Ok (match node fs p with Some _ => true | None => false end))
      [] [ExistsSync p].

(** [fs.statSync(p)], which throws when nothing is there. *)
Definition statSync (fs : FileSystem) (p : string) : W fsnode :=
  mkW (match node fs p with Some n => Ok n | None => Throw FsError end)
      [] [StatSync p].

(** [fs.existsSync(p) && fs.statSync(p).isFile()] *)
Definition existsAsFile (fs : FileSystem) (p : string) : W bool :=
  e <- existsSync fs p ;;
  if e then n <- statSync fs p ;; ret (isFileNode (Some n)) else ret false.

(** [fs.existsSync(p) && fs.statSync(p).isDirectory()] *)
Definition existsAsDirectory (fs : FileSystem) (p : string) : W bool :=
  e <- existsSync fs p ;;
  if e then n <- statSync fs p ;; ret (isDirNode (Some n)) else ret false.

(** [fs.readdirSync(p)]: the entries, each a name and what it names. *)
Definition readdirSync (fs : FileSystem) (p : string) : W (list (string * fsnode)) :=
  mkW (match node fs p with Some (Dir es) => Ok es | _ => Throw FsError end)
      [] [ReaddirSync p].

End Fs.

(* ------------------------------------------------------------------ *)
(** ** [scripts/_lib.mjs] *)

(** [readJson(filePath)] under the [try]/[catch] every caller of the pack
    validator wraps it in: [None] when reading or parsing throws. *)
Definition readJson (fs : FileSystem) (filePath : string) : W (option JSON) :=
  mkW (Ok (match Fs.node fs filePath with
           | Some (File parsed _) => parsed
           | _ => None
           end))
      [] [ReadFileSync filePath].

Definition normalizePackId (P : Platform) (packId : Js.value) : string :=
  match Js.asString packId with
  | None => EmptyString
  | Some s => toLowerCase P (Str.trim s)
  end.

(** [/^[a-z0-9][a-z0-9-]*$/] *)
Definition slugChar (c : ascii) : bool :=
  Str.isLower c || Str.isDigit c || Ascii.eqb c "-"%char.

Definition slugPattern (v : string) : bool :=
  match Str.chars v with
  | [] => false
  | c :: rest => (Str.isLower c || Str.isDigit c) && forallb slugChar rest
  end.

(** The length test counts bytes where the source counts code units: they
    differ only on a value with a character outside ASCII, which fails the
    pattern whatever its length. *)
Definition isValidPublisherOrSlug (value : Js.value) : bool :=
  match Js.asString value with
  | None => false
  | Some s =>
      let v := Str.trim s in
      if Str.isEmpty v then false
      else if Nat.ltb 64 (String.length v) then false
      else slugPattern v
  end.

Definition normalizeSemver (version : Js.value) : string :=
  match Js.asString version with
  | None => EmptyString
  | Some s =>
      let v := Str.trim s in
      if Str.isEmpty v then EmptyString
      else if Str.startsWith v "v" || Str.startsWith v "V"
           then String.substring 1 (String.length v - 1) v
           else v
  end.

(** [0|[1-9]\d*] *)
Definition numericCore (s : string) : bool :=
  String.eqb s "0" ||
  match Str.chars s with
  | c :: rest => Str.isDigit c && negb (Ascii.eqb c "0"%char) && forallb Str.isDigit rest
  | [] => false
  end.

Definition identChar (c : ascii) : bool :=
  Str.isDigit c || Str.isUpper c || Str.isLower c || Ascii.eqb c "-"%char.

(** [[0-9A-Za-z-]+(?:\.[0-9A-Za-z-]+)*] *)
Definition dottedIdentifiers (s : string) : bool :=
  forallb (fun part => negb (Str.isEmpty part) && Str.all identChar part)
          (Str.split "."%char s).

Record SemverMatch : Type := {
  m1 : string; m2 : string; m3 : string;
  m4 : option string;     (* prerelease *)
  m5 : option string      (* build metadata *)
}.

(** [SEMVER_RE.exec(v)].  The core has neither [-] nor [+] and a
    prerelease has no [+], so the build metadata is what follows the first
    [+], and the prerelease what follows the first [-] before it. *)
Definition SEMVER_RE_exec (v : string) : option SemverMatch :=
  let (main, build) := Str.cut "+"%char v in
  let (core, pre) := Str.cut "-"%char main in
  let okOpt (o : option string) :=
    match o with Some s => dottedIdentifiers s | None => true end in
  match Str.split "."%char core with
  | [a; b; c] =>
      if numericCore a && numericCore b && numericCore c && okOpt pre && okOpt build
      then Some {| m1 := a; m2 := b; m3 := c; m4 := pre; m5 := build |}
      else None
  | _ => None
  end.

Definition isSemver (version : Js.value) : bool :=
  match Js.asString version with
  | None => false
  | Some _ =>
      match SEMVER_RE_exec (normalizeSemver version) with
      | Some _ => true
      | None => false
      end
  end.

Record Semver : Type := {
  major : spec_float; minor : spec_float; patch : spec_float;
  pre : list string
}.

Definition parseSemver (version : Js.value) : option Semver :=
  match SEMVER_RE_exec (normalizeSemver version) with
  | None => None
  | Some m =>
      Some {| major := Num.ofDigits (m1 m);
              minor := Num.ofDigits (m2 m);
              patch := Num.ofDigits (m3 m);
              pre := match m4 m with
                     | Some p => Str.split "."%char p
                     | None => []
                     end |}
  end.

(** [/^[0-9]+$/] *)
Definition allDigits (s : string) : bool :=
  negb (Str.isEmpty s) && Str.all Str.isDigit s.

Definition compareIdentifiers (a b : string) : Z :=
  let aNum := allDigits a in
  let bNum := allDigits b in
  if aNum && bNum then
    let diff := Num.sub (Num.ofDigits a) (Num.ofDigits b) in
    if Num.eqb diff Num.zero then 0 else if Num.gtb diff Num.zero then 1 else -1
  else if aNum && negb bNum then -1
  else if negb aNum && bNum then 1
  else if String.eqb a b then 0
  else if String.ltb b a then 1 else -1.

(** The loop of [compareSemver] over the two prerelease lists: position by
    position, a list that ends first is lower. *)
Fixpoint comparePre (aPre bPre : list string) : Z :=
  match aPre, bPre with
  | [], [] => 0
  | [], _ :: _ => -1
  | _ :: _, [] => 1
  | ai :: aRest, bi :: bRest =>
      let cmp := compareIdentifiers ai bi in
      if (cmp =? 0)%Z then comparePre aRest bRest else cmp
  end.

(** [compareSemver(a, b)]; [None] is [null]. *)
Definition compareSemver (a b : Js.value) : option Z :=
  match parseSemver a, parseSemver b with
  | Some pa, Some pb =>
      Some
        (if negb (Num.eqb (major pa) (major pb)) then
           if Num.gtb (major pa) (major pb) then 1 else -1
         else if negb (Num.eqb (minor pa) (minor pb)) then
           if Num.gtb (minor pa) (minor pb) then 1 else -1
         else if negb (Num.eqb (patch pa) (patch pb)) then
           if Num.gtb (patch pa) (patch pb) then 1 else -1
         else
           match pre pa, pre pb with
           | [], [] => 0
           | [], _ => 1
           | _, [] => -1
           | aPre, bPre => comparePre aPre bPre
           end)%Z
  | _, _ => None
  end.

Definition dash (c : ascii) : bool := Ascii.eqb c "-"%char.

Definition inRange (lo hi : N) (c : ascii) : bool :=
  ((lo <=? Str.code c) && (Str.code c <=? hi))%N.

(** The character classes, one by one, of
    [/^[0-9a-f]{8}-[0-9a-f]{4}-[1-5][0-9a-f]{3}-[89ab][0-9a-f]{3}-[0-9a-f]{12}$/i]. *)
Definition uuidShape : list (ascii -> bool) :=
  (repeat Str.isHex 8 ++ [dash] ++ repeat Str.isHex 4 ++ [dash]
   ++ [inRange 49 53] ++ repeat Str.isHex 3 ++ [dash]
   ++ [fun c => inRange 56 57 c || inRange 97 98 c || inRange 65 66 c]
   ++ repeat Str.isHex 3 ++ [dash] ++ repeat Str.isHex 12)%list.

Fixpoint matchShape (shape : list (ascii -> bool)) (l : list ascii) : bool :=
  match shape, l with
  | [], [] => true
  | p :: shape', c :: l' => p c && matchShape shape' l'
  | _, _ => false
  end.

Definition isUuid (value : Js.value) : bool :=
  match Js.asString value with
  | None => false
  | Some s => matchShape uuidShape (Str.chars (Str.trim s))
  end.

(** [/^[a-fA-F0-9]{64}$/.test(s)] *)
Definition isHex64 (s : string) : bool :=
  matchShape (repeat Str.isHex 64) (Str.chars s).

(** [sha256FileHex(filePath)] *)
Definition sha256FileHex (fs : FileSystem) (filePath : string) : W string :=
  mkW (match Fs.node fs filePath with
       | Some (File _ digest) => Ok digest
       | _ => Throw FsError
       end)
      [] [Sha256File filePath].

Definition isSafeRelativePath (relPath : Js.value) : bool :=
  match Js.asString relPath with
  | None => false
  | Some s =>
      let raw := Str.trim s in
      if Str.isEmpty raw then false
      else if Str.includes raw (String (ascii_of_nat 0) EmptyString) then false
      else if Str.includes raw (String (ascii_of_nat 92) EmptyString) then false
      else if Path.isAbsolute raw then false
      else
        let normalized := Path.normalize raw in
        if String.eqb normalized "." || Str.startsWith normalized ".."
           || Str.includes normalized "/../" then false
        else if Str.startsWith normalized "/" then false
        else true
  end.

(* ------------------------------------------------------------------ *)
(** ** [encodeURIComponent] and [decodeURIComponent] *)

Module Uri.

Definition hexVal (c : ascii) : option N :=
  let n := Str.code c in
  if Str.isDigit c then Some (n - 48)%N
  else if ((97 <=? n) && (n <=? 102))%N then Some (n - 87)%N
  else if ((65 <=? n) && (n <=? 70))%N then Some (n - 55)%N
  else None.

(** The byte a [%XX] escape at the head of [l] writes, and what follows it. *)
Definition escape (l : list ascii) : option (N * list ascii) :=
  match l with
  | pc :: h1 :: h2 :: rest =>
      if Ascii.eqb pc "%"%char then
        match hexVal h1, hexVal h2 with
        | Some a, Some b => Some (16 * a + b, rest)%N
        | _, _ => None
        end
      else None
  | _ => None
  end.

(** [n] further escapes. *)
Fixpoint escapes (n : nat) (l : list ascii) : option (list N * list ascii) :=
  match n with
  | O => Some ([], l)
  | S n' =>
      match escape l with
      | Some (b, rest) =>
          match escapes n' rest with
          | Some (bs, rest') => Some (b :: bs, rest')
          | None => None
          end
      | None => None
      end
  end.

Definition between (lo hi b : N) : bool := ((lo <=? b) && (b <=? hi))%N.

(** The octets are the UTF-8 encoding of one code point. *)
Definition validUtf8 (octets : list N) : bool :=
  match octets with
  | [b0; b1] => between 194 223 b0 && between 128 191 b1
  | [b0; b1; b2] =>
      ((b0 =? 224)%N && between 160 191 b1
       || between 225 236 b0 && between 128 191 b1
       || (b0 =? 237)%N && between 128 159 b1
       || between 238 239 b0 && between 128 191 b1)
      && between 128 191 b2
  | [b0; b1; b2; b3] =>
      ((b0 =? 240)%N && between 144 191 b1
       || between 241 243 b0 && between 128 191 b1
       || (b0 =? 244)%N && between 128 143 b1)
      && between 128 191 b2 && between 128 191 b3
  | _ => false
  end.

(** The number of leading 1 bits of a byte from 128 up. *)
Definition leadingOnes (b : N) : nat :=
  if (b <? 192)%N then 1
  else if (b <? 224)%N then 2
  else if (b <? 240)%N then 3
  else if (b <? 248)%N then 4
  else 5.

Fixpoint decode (fuel : nat) (l : list ascii) (out : list ascii)
  : option (list ascii) :=
  match fuel with
  | O => Some (rev out)
  | S fuel' =>
      match l with
      | [] => Some (rev out)
      | c :: rest =>
          if Ascii.eqb c "%"%char then
            match escape l with
            | None => None
            | Some (b, rest1) =>
                if (b <? 128)%N then decode fuel' rest1 (ascii_of_N b :: out)
                else
                  let n := leadingOnes b in
                  if Nat.eqb n 1 || Nat.ltb 4 n then None
                  else
                    match escapes (n - 1) rest1 with
                    | None => None
                    | Some (more, rest2) =>
                        if validUtf8 (b :: more)
                        then decode fuel' rest2
                               (rev (map ascii_of_N (b :: more)) ++ out)%list
                        else None
                    end
            end
          else decode fuel' rest (c :: out)
      end
  end.

(** A surrogate that is not half of a pair: [ED], then a byte from [A0] up. *)
Fixpoint loneSurrogateIn (l : list N) : bool :=
  match l with
  | [] => false
  | a :: rest =>
      match rest with
      | b :: _ => (a =? 237)%N && between 160 191 b
      | [] => false
      end
      || loneSurrogateIn rest
  end.

Definition hasLoneSurrogate (s : string) : bool :=
  loneSurrogateIn (map Str.code (Str.chars s)).

(** The characters [encodeURIComponent] keeps: letters, digits and
    [-_.!~*'()]. *)
Definition unreserved (c : ascii) : bool :=
  Str.isDigit c || Str.isLower c || Str.isUpper c
  || existsb (Ascii.eqb c) ["-"; "_"; "."; "!"; "~"; "*"; "'"; "("; ")"]%char.

Definition hexDigit (n : N) : ascii :=
  if (n <? 10)%N then ascii_of_N (48 + n) else ascii_of_N (55 + n).

(** [%XX], in capitals. *)
Definition percent (c : ascii) : list ascii :=
  let n := Str.code c in ["%"%char; hexDigit (n / 16); hexDigit (n mod 16)].

(** [encodeURIComponent(s)]: throws [URIError] on a lone surrogate;
    escapes every byte of the UTF-8 encoding but the unreserved characters. *)
Definition encodeURIComponent (s : string) : W string :=
  if hasLoneSurrogate s then throw URIError
  else ret (Str.ofChars
              (flat_map (fun c => if unreserved c then [c] else percent c) (Str.chars s))).

(** [decodeURIComponent(s)]: throws [URIError] on a [%] that two hex
    digits do not follow, and on escapes that are not UTF-8. *)
Definition decodeURIComponent (s : string) : W string :=
  match decode (String.length s) (Str.chars s) [] with
  | Some l => ret (Str.ofChars l)
  | None => throw URIError
  end.

End Uri.

(* ------------------------------------------------------------------ *)
(** ** [scripts/validate-catalog.mjs] *)

Section Catalog.

Variable P : Platform.

(** [seen]: the [Map] from a normalized pack id to the literal one first
    seen with it. *)
Definition SeenMap : Type := list (string * string).

Fixpoint seenGet (seen : SeenMap) (k : string) : option string :=
  match seen with
  | [] => None
  | (k', v) :: rest => if String.eqb k k' then Some v else seenGet rest k
  end.

Definition seenSet (seen : SeenMap) (k v : string) : SeenMap := (k, v) :: seen.

(** [!pack.tags.every((tag) => typeof tag === 'string' && tag.trim())] *)
Definition someTagBlank (tags : list JSON) : bool :=
  negb (forallb (fun tag => negb (Js.blankString (Some tag))) tags).

(** The [manifestUrl] block of an entry. *)
Definition checkManifestUrl (strictMode : bool) (prefix packId latestVersion manifestUrl : string)
  : W unit :=
  when (negb (Str.isEmpty manifestUrl))
    match urlPathname P manifestUrl with
    | None => addIssue error (prefix ++ ".manifestUrl must be a valid URL.")
    | Some rawPathname =>
        (* [expectedSuffix] is computed, which may throw, and never read. *)
        encodedPackId <- Uri.encodeURIComponent packId ;;
        encodedVersion <- Uri.encodeURIComponent latestVersion ;;
        let expectedSuffix :=
          "/packs/" ++ encodedPackId ++ "/versions/" ++ encodedVersion
          ++ "/manifest.v1.json" in
        pathname <- Uri.decodeURIComponent rawPathname ;;
        when (negb (Str.isEmpty packId) && negb (Str.isEmpty latestVersion)
              && negb (Str.endsWith pathname
                         ("/packs/" ++ packId ++ "/versions/" ++ latestVersion
                          ++ "/manifest.v1.json")))
          (addIssue (advisory strictMode)
             (prefix ++ ".manifestUrl does not end with the expected path for packId/version (got "
              ++ pathname ++ ")."))
    end.

(** The duplicate check of an entry; it returns the map as it leaves it. *)
Definition checkDuplicate (seen : SeenMap) (packId : string) : W SeenMap :=
  let normalizedId := normalizePackId P (Some (JString packId)) in
  if Str.isEmpty normalizedId then ret seen
  else
    match seenGet seen normalizedId with
    | Some existing =>
        if negb (Str.isEmpty existing) then
          addIssue error
            ("Duplicate packId (case-insensitive): " ++ Str.dquote ++ packId
             ++ Str.dquote ++ " conflicts with " ++ Str.dquote ++ existing
             ++ Str.dquote ++ ".") ;;
          ret seen
        else ret (seenSet seen normalizedId packId)
    | None => ret (seenSet seen normalizedId packId)
    end.

(** Lines 77-118 of an entry that is an object: the required fields,
    the character sets, semver, tags and description. *)
Definition checkEntryFields (prefix : string) (pack : JSON) : W unit :=
  let packId := Js.trimmedOrEmpty (Js.prop pack "packId") in
  let publisher := Js.trimmedOrEmpty (Js.prop pack "publisher") in
  let slug := Js.trimmedOrEmpty (Js.prop pack "slug") in
  let displayName := Js.trimmedOrEmpty (Js.prop pack "displayName") in
  let latestVersion := Js.trimmedOrEmpty (Js.prop pack "latestVersion") in
  let manifestUrl := Js.trimmedOrEmpty (Js.prop pack "manifestUrl") in
  when (Str.isEmpty packId) (addIssue error (prefix ++ ".packId is required.")) ;;
  when (Str.isEmpty publisher) (addIssue error (prefix ++ ".publisher is required.")) ;;
  when (Str.isEmpty slug) (addIssue error (prefix ++ ".slug is required.")) ;;
  when (Str.isEmpty displayName) (addIssue error (prefix ++ ".displayName is required.")) ;;
  when (Str.isEmpty latestVersion)
    (addIssue error (prefix ++ ".latestVersion is required.")) ;;
  when (Str.isEmpty manifestUrl) (addIssue error (prefix ++ ".manifestUrl is required.")) ;;
  when (negb (Str.isEmpty publisher)
        && negb (isValidPublisherOrSlug (Some (JString publisher))))
    (addIssue error (prefix ++ ".publisher contains invalid characters: " ++ publisher)) ;;
  when (negb (Str.isEmpty slug) && negb (isValidPublisherOrSlug (Some (JString slug))))
    (addIssue error (prefix ++ ".slug contains invalid characters: " ++ slug)) ;;
  when (negb (Str.isEmpty packId) && negb (Str.isEmpty publisher)
        && negb (Str.isEmpty slug))
    (let expectedPackId := publisher ++ "." ++ slug in
     when (negb (String.eqb packId expectedPackId))
       (addIssue error
          (prefix ++ ".packId must equal publisher.slug (" ++ expectedPackId ++ ")."))) ;;
  when (negb (Str.isEmpty latestVersion)
        && negb (isSemver (Some (JString latestVersion))))
    (addIssue error
       (prefix ++ ".latestVersion must be valid semver (got " ++ latestVersion ++ ").")) ;;
  match Js.asString (Js.prop pack "minAppVersion") with
  | Some minAppVersion =>
      when (negb (Str.isEmpty (Str.trim minAppVersion))
            && negb (isSemver (Some (JString (Str.trim minAppVersion)))))
        (addIssue error
           (prefix ++ ".minAppVersion must be valid semver (got " ++ minAppVersion
            ++ ")."))
  | None => ret tt
  end ;;
  match Js.prop pack "tags" with
  | None => ret tt
  | Some (JArray tags) =>
      when (someTagBlank tags)
        (addIssue error (prefix ++ ".tags must be an array of non-empty strings."))
  | Some _ => addIssue error (prefix ++ ".tags must be an array of non-empty strings.")
  end ;;
  match Js.prop pack "description" with
  | None => ret tt
  | Some d =>
      when (negb (Js.isString (Some d)))
        (addIssue error (prefix ++ ".description must be a string when present."))
  end.

(** One turn of the loop over [catalog.packs.entries()]. *)
Definition checkEntry (strictMode : bool) (seen : SeenMap) (index : nat) (pack : JSON)
  : W SeenMap :=
  let prefix := "catalog.packs[" ++ Str.ofNat index ++ "]" in
  if Js.notPlainObject (Some pack) then
    addIssue error (prefix ++ " must be an object.") ;; ret seen
  else
    let packId := Js.trimmedOrEmpty (Js.prop pack "packId") in
    let latestVersion := Js.trimmedOrEmpty (Js.prop pack "latestVersion") in
    let manifestUrl := Js.trimmedOrEmpty (Js.prop pack "manifestUrl") in
    checkEntryFields prefix pack ;;
    checkManifestUrl strictMode prefix packId latestVersion manifestUrl ;;
    checkDuplicate seen packId.

(** [for (const [index, pack] of catalog.packs.entries())], with [seen]
    carried from turn to turn. *)
Fixpoint checkEntries (strictMode : bool) (seen : SeenMap) (packs : list (nat * JSON))
  : W unit :=
  match packs with
  | [] => ret tt
  | (index, pack) :: rest =>
      seen' <- checkEntry strictMode seen index pack ;;
      checkEntries strictMode seen' rest
  end.

(** [catalog.packs.map((p) => (p && typeof p.packId === 'string' ? p.packId.trim() : '')).filter(Boolean)] *)
Definition trimmedPackIds (packs : list JSON) : list string :=
  filter (fun s => negb (Str.isEmpty s))
    (map (fun p =>
            if Js.truthy (Some p) then Js.trimmedOrEmpty (Js.prop p "packId")
            else EmptyString)
         packs).

Definition checkSorted (strictMode : bool) (packs : list JSON) : W unit :=
  let packIds := trimmedPackIds packs in
  let sorted := Arr.sort (localeCompare P) packIds in
  let isSorted :=
    forallb (fun '(value, s) => String.eqb value s) (combine packIds sorted) in
  when (negb isSorted)
    (addIssue (advisory strictMode)
       "Catalog packs are not sorted by packId. (Recommended for clean diffs.)").

Definition checkSchemaVersion (catalog : JSON) : W unit :=
  when (Js.notPositiveInteger (Js.prop catalog "schemaVersion"))
    (addIssue error "catalog.schemaVersion must be a positive integer.").

Definition checkGeneratedAt (catalog : JSON) : W unit :=
  match Js.asString (Js.prop catalog "generatedAt") with
  | Some generatedAt =>
      if Str.isEmpty (Str.trim generatedAt) then
        addIssue error "catalog.generatedAt must be a non-empty string."
      else
        when (negb (dateParses P generatedAt))
          (addIssue error
             ("catalog.generatedAt is not a parseable timestamp: " ++ generatedAt))
  | None => addIssue error "catalog.generatedAt must be a non-empty string."
  end.

Definition validateCatalogRun (catalog : JSON) (strictMode : bool) : W unit :=
  if Js.notPlainObject (Some catalog) then
    addIssue error "Catalog root must be a JSON object."
  else
    checkSchemaVersion catalog ;;
    checkGeneratedAt catalog ;;
    match Js.prop catalog "packs" with
    | Some (JArray packs) =>
        checkEntries strictMode [] (Js.entries packs) ;;
        checkSorted strictMode packs
    | _ => addIssue error "catalog.packs must be an array."
    end.

(** [validateCatalog(catalog, strictMode)]: the issue list it returns, or
    the exception it throws; the list is local, so a throw loses it. *)
Definition validateCatalog (catalog : JSON) (strictMode : bool) : res (list Issue) :=
  let run := validateCatalogRun catalog strictMode in
  match result run with
  | Ok _ => Ok (issued run)
  | Throw e => Throw e
  end.

End Catalog.

(* ------------------------------------------------------------------ *)
(** ** [scripts/validate-pack.mjs] *)

Record Options : Type := {
  strict : bool;
  allVersions : bool;
  version : option string      (* [--version], [None] when not given *)
}.

Section Pack.

Variable P : Platform.
Variable fs : FileSystem.

(** [walk(absDir, relDir)] of [listFilesRecursive], on the directory
    [absDir] names. *)
Fixpoint walk (n : fsnode) (absDir relDir : string) : W (list string) :=
  match n with
  | Dir entries =>
      mkW (Ok tt) [] [ReaddirSync absDir] ;;
      (fix each (es : list (string * fsnode)) : W (list string) :=
         match es with
         | [] => ret []
         | (name, c) :: rest =>
             let abs := Path.join absDir name in
             let rel := if Str.isEmpty relDir then name else Path.join relDir name in
             here <- match c with
                     | Dir _ => walk c abs rel
                     | File _ _ => ret [rel]
                     | Special => ret []
                     end ;;
             more <- each rest ;;
             ret (here ++ more)%list
         end) entries
  | _ => mkW (Throw FsError) [] [ReaddirSync absDir]
  end.

Definition listFilesRecursive (rootDir : string) : W (list string) :=
  match Fs.node fs rootDir with
  | Some n => out <- walk n rootDir EmptyString ;; ret (Arr.sort (localeCompare P) out)
  | None => mkW (Throw FsError) [] [ReaddirSync rootDir]
  end.

(** [COLOR_REGEX]: [/^#[0-9a-f]{6}$/i] *)
Definition COLOR_REGEX_test (s : string) : bool :=
  matchShape ((fun c => Ascii.eqb c "#"%char) :: repeat Str.isHex 6) (Str.chars s).

(** [!Array.isArray(v) || !v.every((tag) => typeof tag === 'string')] *)
Definition notStringArray (v : Js.value) : bool :=
  match v with
  | Some (JArray tags) => negb (forallb (fun tag => Js.isString (Some tag)) tags)
  | _ => true
  end.

Definition validateCommandShape (command : JSON) (prefix : string) : W unit :=
  if Js.notPlainObject (Some command) then
    addIssue error (prefix ++ " must be an object.")
  else
    when (negb (Js.isString (Js.prop command "id")) || negb (isUuid (Js.prop command "id")))
      (addIssue error (prefix ++ ".id must be a UUID string.")) ;;
    when (Js.blankString (Js.prop command "label"))
      (addIssue error (prefix ++ ".label must be a non-empty string.")) ;;
    when (Js.blankString (Js.prop command "command"))
      (addIssue error (prefix ++ ".command must be a non-empty string.")) ;;
    when (negb (Js.isString (Js.prop command "description")))
      (addIssue error (prefix ++ ".description must be a string (may be empty).")) ;;
    when (notStringArray (Js.prop command "tags"))
      (addIssue error (prefix ++ ".tags must be an array of strings.")) ;;
    match Js.prop command "color" with
    | None => ret tt
    | Some color =>
        when (match color with
              | JString s => negb (COLOR_REGEX_test s)
              | _ => true
              end)
          (addIssue error (prefix ++ ".color must be a hex string like #3b82f6."))
    end.

(** The two sets of [validateProfile]. *)
Record ProfileSets : Type := {
  commandIds : list string;
  seenIds : list string
}.

Definition noCommands : ProfileSets := {| commandIds := []; seenIds := [] |}.

(** One turn of the loop over [profile.entries()]. *)
Definition profileEntry (profilePath : string) (sets : ProfileSets)
           (index : nat) (command : JSON) : W ProfileSets :=
  let prefix := Path.basename profilePath ++ "[" ++ Str.ofNat index ++ "]" in
  validateCommandShape command prefix ;;
  match command with
  | JObject _ =>
      match Js.asString (Js.prop command "id") with
      | Some id =>
          seen' <- (if Arr.has (seenIds sets) id then
                      addIssue error ("Duplicate command id in profile: " ++ id) ;;
                      ret (seenIds sets)
                    else ret (id :: seenIds sets)) ;;
          ret {| commandIds := if isUuid (Some (JString id))
                               then id :: commandIds sets else commandIds sets;
                 seenIds := seen' |}
      | None => ret sets
      end
  | _ => ret sets
  end.

Fixpoint profileEntries (profilePath : string) (sets : ProfileSets)
         (commands : list (nat * JSON)) : W ProfileSets :=
  match commands with
  | [] => ret sets
  | (index, command) :: rest =>
      sets' <- profileEntry profilePath sets index command ;;
      profileEntries profilePath sets' rest
  end.

(** [validateProfile(profilePath, issues)]: the [commandIds] set. *)
Definition validateProfile (profilePath : string) : W (list string) :=
  profile <- readJson fs profilePath ;;
  match profile with
  | None =>
      addIssue error ("Profile is not valid JSON: " ++ profilePath) ;; ret []
  | Some (JArray commands) =>
      sets <- profileEntries profilePath noCommands (Js.entries commands) ;;
      ret (commandIds sets)
  | Some _ =>
      addIssue error ("Profile must be a JSON array: " ++ profilePath) ;; ret []
  end.

(** [typeof v !== 'string' || !/^[a-fA-F0-9]{64}$/.test(v)] *)
Definition notHex64 (v : Js.value) : bool :=
  match Js.asString v with Some s => negb (isHex64 s) | None => true end.

(** [!v || typeof v !== 'object'] *)
Definition notObject (v : Js.value) : bool :=
  negb (Js.truthy v) || negb (Js.typeofObject v).

(** Lines 122-140: the shape of the root fields. *)
Definition checkRootShape (manifest : JSON) (manifestPath : string) : W unit :=
  when (Js.notPositiveInteger (Js.prop manifest "schemaVersion"))
    (addIssue error ("manifest.schemaVersion must be a positive integer: " ++ manifestPath)) ;;
  when (Js.blankString (Js.prop manifest "packId"))
    (addIssue error ("manifest.packId is required: " ++ manifestPath)) ;;
  when (Js.blankString (Js.prop manifest "version"))
    (addIssue error ("manifest.version is required: " ++ manifestPath)) ;;
  if notObject (Js.prop manifest "profile") then
    addIssue error ("manifest.profile is required: " ++ manifestPath)
  else
    let profile := Js.prop manifest "profile" in
    when (Js.blankString (Js.propOpt profile "file"))
      (addIssue error ("manifest.profile.file is required: " ++ manifestPath)) ;;
    when (notHex64 (Js.propOpt profile "sha256"))
      (addIssue error ("manifest.profile.sha256 must be a 64-hex string: " ++ manifestPath)).

(** [Array.isArray(v) ? v : []] *)
Definition arrayOrEmpty (v : Js.value) : list JSON :=
  match v with Some (JArray items) => items | _ => [] end.

(** One turn of the loop over [assets.entries()]. *)
Definition checkAsset (manifestPath : string) (entry : nat * JSON) : W unit :=
  let (i, asset) := entry in
  let prefix := "manifest.assets[" ++ Str.ofNat i ++ "]" in
  if notObject (Some asset) then
    addIssue error (prefix ++ " must be an object: " ++ manifestPath)
  else
    when (Js.blankString (Js.prop asset "file"))
      (addIssue error (prefix ++ ".file is required: " ++ manifestPath)) ;;
    when (notHex64 (Js.prop asset "sha256"))
      (addIssue error (prefix ++ ".sha256 must be a 64-hex string: " ++ manifestPath)).

(** One turn of the loop over [graphs.entries()]. *)
Definition checkGraph (manifestPath : string) (strictMode : bool) (entry : nat * JSON)
  : W unit :=
  let (i, graph) := entry in
  let prefix := "manifest.graphs[" ++ Str.ofNat i ++ "]" in
  if notObject (Some graph) then
    addIssue error (prefix ++ " must be an object: " ++ manifestPath)
  else
    let commandId := Js.prop graph "commandId" in
    when (negb (Js.isString commandId) || negb (isUuid commandId))
      (addIssue error (prefix ++ ".commandId must be a UUID string: " ++ manifestPath)) ;;
    when (Js.blankString (Js.prop graph "file"))
      (addIssue error (prefix ++ ".file is required: " ++ manifestPath)) ;;
    when (notHex64 (Js.prop graph "sha256"))
      (addIssue error (prefix ++ ".sha256 must be a 64-hex string: " ++ manifestPath)) ;;
    match Js.asString (Js.prop graph "file"), Js.asString commandId with
    | Some file, Some id =>
        when (strictMode && isUuid commandId
              && negb (String.eqb (basenameExt P file ".json") id))
          (addIssue warn
             ("Graph filename should match commandId (" ++ id ++ ") but got " ++ file))
    | _, _ => ret tt
    end.

(** [addRef(ref, context)]: the [referencedFiles] set as it leaves it. *)
Definition addRef (referencedFiles : list string) (ref : Js.value) (context : string)
  : W (list string) :=
  if negb (Js.truthy ref) then ret referencedFiles
  else
    match Js.asString (Js.propOpt ref "file") with
    | None => ret referencedFiles
    | Some file =>
        let rel := Str.trim file in
        if Str.isEmpty rel then ret referencedFiles
        else if negb (isSafeRelativePath (Some (JString rel))) then
          addIssue error
            ("Unsafe referenced path in manifest (" ++ context ++ "): " ++ rel) ;;
          ret referencedFiles
        else ret (rel :: referencedFiles)
    end.

Fixpoint addRefs (referencedFiles : list string) (refs : list Js.value) (context : string)
  : W (list string) :=
  match refs with
  | [] => ret referencedFiles
  | ref :: rest =>
      referencedFiles' <- addRef referencedFiles ref context ;;
      addRefs referencedFiles' rest context
  end.

(** Lines 192-206: the set of safely referenced files. *)
Definition collectReferenced (manifest : JSON) (assets graphs : list JSON)
  : W (list string) :=
  r1 <- addRef [] (Js.prop manifest "profile") "profile" ;;
  r2 <- addRefs r1 (map Some assets) "asset" ;;
  addRefs r2 (map Some graphs) "graph".

(** One turn of the inner loop of lines 209-230: the reference [ref] of
    an entry of kind [kind]. *)
Definition verifyRef (versionDir kind : string) (ref : Js.value) : W unit :=
  if negb (Js.truthy ref) then ret tt
  else
    match Js.asString (Js.propOpt ref "file"), Js.asString (Js.propOpt ref "sha256") with
    | Some file, Some sha256 =>
        let rel := Str.trim file in
        if Str.isEmpty rel then ret tt
        else
          let abs := Path.join versionDir rel in
          isFile <- Fs.existsAsFile fs abs ;;
          if negb isFile then
            addIssue error ("Manifest references missing " ++ kind ++ " file: " ++ abs)
          else
            digest <- sha256FileHex fs abs ;;
            when (negb (String.eqb (toLowerCase P digest) (toLowerCase P sha256)))
              (addIssue error ("SHA256 mismatch for " ++ kind ++ " file: " ++ rel))
    | _, _ => ret tt
    end.

(** Lines 209-230. *)
Definition verifyReferenced (versionDir : string) (manifest : JSON)
           (assets graphs : list JSON) : W unit :=
  forEach [Js.prop manifest "profile"] (verifyRef versionDir "profile") ;;
  forEach (map Some assets) (verifyRef versionDir "asset") ;;
  forEach (map Some graphs) (verifyRef versionDir "graph").

(** Lines 233-236: [path.join] throws on a [file] that is truthy and not
    a string. *)
Definition loadProfile (versionDir : string) (manifest : JSON) : W (list string) :=
  let file := Js.propOpt (Js.prop manifest "profile") "file" in
  profilePath <-
    (if Js.truthy file then
       match Js.asString file with
       | Some s => ret (Some (Path.join versionDir s))
       | None => throw TypeError
       end
     else ret None) ;;
  match profilePath with
  | Some p =>
      e <- Fs.existsSync fs p ;;
      if e then validateProfile p else ret []
  | None => ret []
  end.

(** One turn of the loop of lines 238-260. *)
Definition linkGraph (versionDir : string) (commandIds : list string) (graph : JSON)
  : W unit :=
  if notObject (Some graph) then ret tt
  else
    match Js.asString (Js.prop graph "commandId") with
    | Some id =>
        when (isUuid (Some (JString id)) && negb (Arr.has commandIds id))
          (addIssue error ("Graph commandId not found in profile: " ++ id))
    | None => ret tt
    end ;;
    match Js.asString (Js.prop graph "file") with
    | Some file =>
        let abs := Path.join versionDir file in
        isFile <- Fs.existsAsFile fs abs ;;
        if isFile then
          parsed <- readJson fs abs ;;
          match parsed with
          | None => addIssue error ("Graph payload is not valid JSON: " ++ abs)
          | Some v =>
              when (Js.notPlainObject (Some v))
                (addIssue error ("Graph payload must be a JSON object: " ++ abs))
          end
        else ret tt
    | None => ret tt
    end.

(** [extras]: the files of the version directory left once the manifest,
    [.DS_Store] and the referenced files are taken out. *)
Definition extrasOf (allFiles referencedFiles : list string) : list string :=
  filter (fun rel => negb (Arr.has referencedFiles rel))
    (filter (fun rel => negb (String.eqb rel ".DS_Store"))
       (filter (fun rel => negb (String.eqb rel "manifest.v1.json")) allFiles)).

Definition extrasMessage (extras : list string) : string :=
  "Version folder contains " ++ Str.ofNat (List.length extras)
  ++ " unreferenced file(s): " ++ Str.join ", " (firstn 5 extras)
  ++ (if Nat.ltb 5 (List.length extras) then ", ..." else EmptyString).

(** Lines 262-274. *)
Definition detectExtras (versionDir : string) (strictMode : bool)
           (referencedFiles : list string) : W unit :=
  allFiles <- listFilesRecursive versionDir ;;
  let extras := extrasOf allFiles referencedFiles in
  when (Nat.ltb 0 (List.length extras))
    (addIssue (advisory strictMode) (extrasMessage extras)).

(** [validateManifestFile(versionDir, manifestPath, issues, strictMode)]:
    the manifest, or [None] for [null]. *)
Definition validateManifestFile (versionDir manifestPath : string) (strictMode : bool)
  : W (option JSON) :=
  loaded <- readJson fs manifestPath ;;
  match loaded with
  | None =>
      addIssue error ("Manifest is not valid JSON: " ++ manifestPath) ;; ret None
  | Some manifest =>
      if Js.notPlainObject (Some manifest) then
        addIssue error ("Manifest root must be an object: " ++ manifestPath) ;; ret None
      else
        checkRootShape manifest manifestPath ;;
        let assets := arrayOrEmpty (Js.prop manifest "assets") in
        forEach (Js.entries assets) (checkAsset manifestPath) ;;
        let graphs := arrayOrEmpty (Js.prop manifest "graphs") in
        forEach (Js.entries graphs) (checkGraph manifestPath strictMode) ;;
        referencedFiles <- collectReferenced manifest assets graphs ;;
        verifyReferenced versionDir manifest assets graphs ;;
        commandIds <- loadProfile versionDir manifest ;;
        forEach graphs (linkGraph versionDir commandIds) ;;
        detectExtras versionDir strictMode referencedFiles ;;
        ret (Some manifest)
  end.

End Pack.

Section PackRun.

Variable P : Platform.
Variable fs : FileSystem.

(** [names.filter((name) => fs.existsSync(path.join(dir, name)) && fs.statSync(path.join(dir, name)).isDirectory())] *)
Fixpoint directoriesAmong (dir : string) (names : list string) : W (list string) :=
  match names with
  | [] => ret []
  | name :: rest =>
      isDir <- Fs.existsAsDirectory fs (Path.join dir name) ;;
      more <- directoriesAmong dir rest ;;
      ret (if isDir then name :: more else more)
  end.

(** Lines 303-332: the fields of [pack.json]. *)
Definition checkPackJson (packJson : JSON) (packId packJsonPath : string)
           (strictMode : bool) : W unit :=
  (match Js.asString (Js.prop packJson "packId") with
   | Some s =>
       if Str.isEmpty (Str.trim s) then
         addIssue error ("pack.json.packId is required: " ++ packJsonPath)
       else
         when (negb (String.eqb (Str.trim s) packId))
           (addIssue error
              ("pack.json.packId must equal directory packId (" ++ packId ++ ")."))
   | None => addIssue error ("pack.json.packId is required: " ++ packJsonPath)
   end) ;;
  when (Js.blankString (Js.prop packJson "publisher"))
    (addIssue error ("pack.json.publisher is required: " ++ packJsonPath)) ;;
  let latestVersion := Js.trimmedOrEmpty (Js.prop packJson "latestVersion") in
  (if Str.isEmpty latestVersion then
     addIssue error ("pack.json.latestVersion is required: " ++ packJsonPath)
   else
     let normalized := normalizeSemver (Some (JString latestVersion)) in
     when (negb (isSemver (Some (JString normalized))))
       (addIssue error
          ("pack.json.latestVersion must be valid semver (got " ++ latestVersion ++ ").")) ;;
     when (negb (String.eqb normalized latestVersion))
       (addIssue (advisory strictMode)
          ("pack.json.latestVersion includes a leading " ++ Str.dquote ++ "v" ++ Str.dquote
           ++ " (recommended to use strict semver): " ++ latestVersion))) ;;
  when (Js.blankString (Js.prop packJson "license"))
    (addIssue error ("pack.json.license is required: " ++ packJsonPath)).

(** One turn of the loop over [selectedVersions]. *)
Definition validateVersion (packId versionsDir : string) (strictMode : bool)
           (version : string) : W unit :=
  let versionDir := Path.join versionsDir version in
  isDir <- Fs.existsAsDirectory fs versionDir ;;
  if negb isDir then
    addIssue error ("Missing version directory: " ++ versionDir)
  else
    let manifestPath := Path.join versionDir "manifest.v1.json" in
    isFile <- Fs.existsAsFile fs manifestPath ;;
    if negb isFile then
      addIssue error ("Missing manifest: " ++ manifestPath)
    else
      manifest <- validateManifestFile P fs versionDir manifestPath strictMode ;;
      match manifest with
      | None => ret tt
      | Some m =>
          match Js.asString (Js.prop m "packId") with
          | Some s =>
              when (negb (String.eqb (Str.trim s) packId))
                (addIssue error
                   ("manifest.packId mismatch for " ++ packId ++ "@" ++ version
                    ++ " (got " ++ s ++ ")."))
          | None => ret tt
          end ;;
          match Js.asString (Js.prop m "version") with
          | Some s =>
              when (negb (String.eqb (Str.trim s) version))
                (addIssue error
                   ("manifest.version mismatch for " ++ packId ++ "@" ++ version
                    ++ " (got " ++ s ++ ")."))
          | None => ret tt
          end
      end.

(** [versionDirs.map((v) => ({ raw: v, normalized: normalizeSemver(v) })).filter((entry) => isSemver(entry.normalized))],
    the [raw] fields. *)
Definition semverVersions (versionDirs : list string) : list string :=
  filter (fun raw =>
            isSemver (Some (JString (normalizeSemver (Some (JString raw))))))
         versionDirs.

(** The loop that keeps the greatest entry seen so far. *)
Definition greatest (first : string) (others : list string) : string :=
  fold_left
    (fun max raw =>
       match compareSemver (Some (JString raw)) (Some (JString max)) with
       | Some cmp => if (0 <? cmp)%Z then raw else max
       | None => max
       end)
    others first.

(** Lines 382-400: [pack.json.latestVersion] against the greatest semver
    directory on disk. *)
Definition checkLatestVersion (strictMode : bool) (latestVersion : string)
           (versionDirs : list string) : W unit :=
  match semverVersions versionDirs with
  | first :: others =>
      if negb (Str.isEmpty latestVersion) then
        let max := greatest first others in
        match compareSemver (Some (JString latestVersion)) (Some (JString max)) with
        | Some cmpLatest =>
            when (cmpLatest <? 0)%Z
              (addIssue (advisory strictMode)
                 ("pack.json.latestVersion (" ++ latestVersion
                  ++ ") is behind the greatest version found on disk (" ++ max ++ ")."))
        | None => ret tt
        end
      else ret tt
  | [] => ret tt
  end.

Definition selectedVersions (options : Options) (latestVersion : string)
           (versionDirs : list string) : list string :=
  match version options with
  | Some v => if negb (Str.isEmpty v) then [v]
              else if allVersions options then versionDirs else [latestVersion]
  | None => if allVersions options then versionDirs else [latestVersion]
  end.

Definition validatePackRun (packId : string) (options : Options) : W unit :=
  let packDir := Path.join "packs" packId in
  let packJsonPath := Path.join packDir "pack.json" in
  let strictMode := strict options in
  e <- Fs.existsSync fs packJsonPath ;;
  if negb e then addIssue error ("Missing pack.json: " ++ packJsonPath)
  else
    loaded <- readJson fs packJsonPath ;;
    match loaded with
    | None => addIssue error ("pack.json is not valid JSON: " ++ packJsonPath)
    | Some packJson =>
        if Js.notPlainObject (Some packJson) then
          addIssue error ("pack.json root must be an object: " ++ packJsonPath)
        else
          checkPackJson packJson packId packJsonPath strictMode ;;
          let latestVersion := Js.trimmedOrEmpty (Js.prop packJson "latestVersion") in
          let versionsDir := Path.join packDir "versions" in
          isDir <- Fs.existsAsDirectory fs versionsDir ;;
          if negb isDir then
            addIssue error ("Missing versions directory: " ++ versionsDir)
          else
            names <- Fs.readdirSync fs versionsDir ;;
            dirs <- directoriesAmong versionsDir (map fst names) ;;
            let versionDirs := Arr.sort (localeCompare P) dirs in
            if Nat.eqb (List.length versionDirs) 0 then
              addIssue error ("No versions found in " ++ versionsDir)
            else
              forEach (selectedVersions options latestVersion versionDirs)
                (validateVersion packId versionsDir strictMode) ;;
              checkLatestVersion strictMode latestVersion versionDirs
    end.

(** [validatePack(packId, options)]: the issue list it returns, or the
    exception that leaves it. *)
Definition validatePack (packId : string) (options : Options) : res (list Issue) :=
  let run := validatePackRun packId options in
  match result run with
  | Ok _ => Ok (issued run)
  | Throw e => Throw e
  end.

End PackRun.

(* ------------------------------------------------------------------ *)
(** ** A host and repositories to run the validators on *)

Module Sample.

(** Comparison by character code. *)
Definition compareStrings (a b : string) : Z :=
  match String.compare a b with Lt => -1 | Eq => 0 | Gt => 1 end.

(** Timestamps of the shape [YYYY-MM-DDTHH:MM:SSZ]. *)
Definition isoTimestamp (s : string) : bool :=
  let d := Str.isDigit in
  let lit (x : ascii) := fun c => Ascii.eqb c x in
  matchShape [d; d; d; d; lit "-"%char; d; d; lit "-"%char; d; d; lit "T"%char;
              d; d; lit ":"%char; d; d; lit ":"%char; d; d; lit "Z"%char]
             (Str.chars s).

Fixpoint untilAny (stops : list ascii) (l : list ascii) : list ascii * list ascii :=
  match l with
  | [] => ([], [])
  | c :: rest =>
      if existsb (Ascii.eqb c) stops then ([], l)
      else let (a, b) := untilAny stops rest in (c :: a, b)
  end.

(** The path of a plain [http://host/path?query#fragment] URL, escapes
    left as written. *)
Definition httpPathname (s : string) : option string :=
  let after (scheme : string) :=
    if Str.startsWith s scheme
    then Some (skipn (String.length scheme) (Str.chars s)) else None in
  match (match after "https://" with Some l => Some l | None => after "http://" end) with
  | None => None
  | Some l =>
      let (host, rest) := untilAny ["/"; "?"; "#"]%char l in
      match host with
      | [] => None
      | _ =>
          let (path, _) := untilAny ["?"; "#"]%char rest in
          Some (match path with [] => "/" | _ => Str.ofChars path end)
      end
  end.

(** The last segment without [ext], when it ends with [ext] and is longer. *)
Definition stripExt (p ext : string) : string :=
  let b := Path.basename p in
  if Str.endsWith b ext && Nat.ltb (String.length ext) (String.length b)
  then String.substring 0 (String.length b - String.length ext) b
  else b.

(** The letters A-Z lowered: what [toLowerCase] does on the strings of the
    samples, which are ASCII. *)
Definition host : Platform := {|
  localeCompare := compareStrings;
  dateParses := isoTimestamp;
  urlPathname := httpPathname;
  basenameExt := stripExt;
  toLowerCase := Str.lowerAscii;
  toLowerCase_ascii := fun s _ => eq_refl
|}.

Definition str (s : string) : JSON := JString s.
Definition num (z : Z) : JSON := JNumber (Num.ofZ z).

Definition digestA : string := Str.ofChars (repeat "a"%char 64).
Definition digestB : string := Str.ofChars (repeat "b"%char 64).

Definition uuid1 : string := "123e4567-e89b-42d3-a456-426614174000".
Definition uuid2 : string := "123e4567-e89b-42d3-a456-426614174001".

(** *** Catalogs *)

Definition entry (packId publisher slug manifestUrl : string) : JSON :=
  JObject [("packId", str packId); ("publisher", str publisher); ("slug", str slug);
           ("displayName", str "A pack"); ("latestVersion", str "1.0.0");
           ("manifestUrl", str manifestUrl)].

Definition catalogOf (packs : JSON) : JSON :=
  JObject [("schemaVersion", num 1); ("generatedAt", str "2024-05-01T10:00:00Z");
           ("packs", packs)].

Definition goodUrl : string :=
  "https://example.com/packs/pub.slug/versions/1.0.0/manifest.v1.json".

(** A [%] that no two hex digits follow. *)
Definition badEscapeUrl : string :=
  "https://example.com/packs/pub.slug/versions/1.0.0/100%/manifest.v1.json".

Definition catalogBadEscape : JSON :=
  catalogOf (JArray [entry "pub.slug" "pub" "slug" badEscapeUrl]).

Definition catalogTwoCases (url : string) : JSON :=
  catalogOf (JArray [entry "Pub.Slug" "pub" "slug" url;
                     entry "pub.slug" "pub" "slug" goodUrl]).

Definition catalogNoPacks : JSON :=
  JObject [("schemaVersion", str "one"); ("generatedAt", str "yesterday");
           ("packs", JObject [])].

(** *** Repositories: [/repo] is the working directory *)

Definition packJson (latestVersion : string) : JSON :=
  JObject [("packId", str "pub.slug"); ("publisher", str "pub");
           ("license", str "MIT"); ("latestVersion", str latestVersion)].

Definition manifestOf (version : string) (profile : JSON) (graphs : list JSON) : JSON :=
  JObject [("schemaVersion", num 1); ("packId", str "pub.slug");
           ("version", str version); ("profile", profile);
           ("graphs", JArray graphs)].

Definition fileRef (file sha256 : string) : JSON :=
  JObject [("file", str file); ("sha256", str sha256)].

Definition command (id : string) : JSON :=
  JObject [("id", str id); ("label", str "List"); ("command", str "ls");
           ("description", str "lists"); ("tags", JArray [])].

Definition repo (latestVersion : string) (versions : list (string * fsnode)) : FileSystem :=
  {| fsRoot :=
       Dir [("repo",
             Dir [("packs",
                   Dir [("pub.slug",
                         Dir [("pack.json", File (Some (packJson latestVersion)) digestA);
                              ("versions", Dir versions)])])])];
     fsCwd := ["repo"] |}.

Definition versionDir : string := "packs/pub.slug/versions/1.0.0".
Definition manifestPath : string := "packs/pub.slug/versions/1.0.0/manifest.v1.json".

(** Version 1.0.0, well formed: a profile with one command. *)
Definition goodVersion : fsnode :=
  Dir [("manifest.v1.json",
        File (Some (manifestOf "1.0.0" (fileRef "profile.json" digestA) [])) digestB);
       ("profile.json", File (Some (JArray [command uuid1])) digestA)].

Definition defaults : Options :=
  {| strict := false; allVersions := false; version := None |}.



(** The profile reference leaves the version directory. *)
Definition repoEscaping : FileSystem :=
  repo "1.0.0"
    [("secret.json", File (Some (JArray [])) digestB);
     ("1.0.0",
      Dir [("manifest.v1.json",
            File (Some (manifestOf "1.0.0" (fileRef "../secret.json" digestA) [])) digestB)])].


(** A file the manifest does not list. *)
Definition repoExtra : FileSystem :=
  repo "1.0.0"
    [("1.0.0",
      Dir [("manifest.v1.json",
            File (Some (manifestOf "1.0.0" (fileRef "profile.json" digestA) [])) digestB);
           ("profile.json", File (Some (JArray [command uuid1])) digestA);
           ("notes.txt", File None digestB)])].

(** The same, with a manifest whose [profile.file] is the number 5. *)
Definition manifestNumberFile : JSON :=
  manifestOf "1.0.0" (JObject [("file", num 5); ("sha256", str digestA)]) [].

Definition repoNumberFile : FileSystem :=
  repo "1.0.0"
    [("1.0.0",
      Dir [("manifest.v1.json", File (Some manifestNumberFile) digestB);
           ("notes.txt", File None digestB)])].

(** Two commands with one id, and a graph for it. *)
Definition twoCommands : list JSON := [command uuid1; command uuid1].

Definition graphRef : JSON :=
  JObject [("commandId", str uuid1); ("file", str ("graphs/" ++ uuid1 ++ ".json"));
           ("sha256", str digestA)].

Definition repoDuplicate : FileSystem :=
  repo "1.0.0"
    [("1.0.0",
      Dir [("manifest.v1.json",
            File (Some (manifestOf "1.0.0" (fileRef "profile.json" digestA) [graphRef]))
                 digestB);
           ("profile.json", File (Some (JArray twoCommands)) digestA);
           ("graphs", Dir [(uuid1 ++ ".json", File (Some (JObject [])) digestA)])])].

(** A numeric prerelease identifier of 309 digits: 2 followed by 308
    zeros, which [Number] reads as [Infinity]. *)
Definition hugeIdentifier : string := "2" ++ Str.ofChars (repeat "0"%char 308).
Definition hugeVersion : string := "1.0.0-" ++ hugeIdentifier.

End Sample.

(* ------------------------------------------------------------------ *)
(** ** The vocabulary of the statements *)

(** A run that returns. *)
Definition returns {A : Type} (m : W A) : Prop := exists a, result m = Ok a.

(** Every issue of a run satisfies [Q]. *)
Definition allIssues {A : Type} (Q : Issue -> Prop) (m : W A) : Prop :=
  Forall Q (issued m).

Definition jstr (s : string) : Js.value := Some (JString s).

(** The entry's [manifestUrl] does not stop the run: the entry is not an
    object, or the URL is empty, or does not parse, or the entry's [packId]
    and [latestVersion] hold no lone surrogate and the URL parses to a
    pathname that [decodeURIComponent] accepts. *)
Definition entryUrlDecodes (P : Platform) (pack : JSON) : bool :=
  Js.notPlainObject (Some pack)
  || (let manifestUrl := Js.trimmedOrEmpty (Js.prop pack "manifestUrl") in
      Str.isEmpty manifestUrl
      || match urlPathname P manifestUrl with
         | None => true
         | Some raw =>
             negb (Uri.hasLoneSurrogate (Js.trimmedOrEmpty (Js.prop pack "packId")))
             && negb (Uri.hasLoneSurrogate
                        (Js.trimmedOrEmpty (Js.prop pack "latestVersion")))
             && match Uri.decode (String.length raw) (Str.chars raw) [] with
                | Some _ => true
                | None => false
                end
         end).

(** An issue of the duplicate check, by the words its message starts with. *)
Definition isDuplicateIssue (i : Issue) : bool :=
  Str.startsWith (message i) "Duplicate packId (case-insensitive): ".

Definition duplicateMessage (packId existing : string) : string :=
  "Duplicate packId (case-insensitive): " ++ Str.dquote ++ packId ++ Str.dquote
  ++ " conflicts with " ++ Str.dquote ++ existing ++ Str.dquote ++ ".".

Definition notDuplicate (i : Issue) : Prop := isDuplicateIssue i = false.

(** [profile.file] is something [path.join] takes: absent, falsy, or a string. *)
Definition profileFileJoinable (manifest : JSON) : bool :=
  let file := Js.propOpt (Js.prop manifest "profile") "file" in
  negb (Js.truthy file) || Js.isString file.

(** The manifest at [manifestPath] parses to the object [manifest]. *)
Definition manifestLoads (fs : FileSystem) (manifestPath : string) (manifest : JSON) : Prop :=
  result (readJson fs manifestPath) = Ok (Some manifest)
  /\ Js.notPlainObject (Some manifest) = false.

(** What the shape checks, the collection of references and the
    verification loop push, in order. *)
Definition issuedThroughVerification (P : Platform) (fs : FileSystem)
           (versionDir manifestPath : string) (strictMode : bool) (manifest : JSON)
  : list Issue :=
  let assets := arrayOrEmpty (Js.prop manifest "assets") in
  let graphs := arrayOrEmpty (Js.prop manifest "graphs") in
  (issued (checkRootShape manifest manifestPath)
   ++ issued (forEach (Js.entries assets) (checkAsset manifestPath))
   ++ issued (forEach (Js.entries graphs) (checkGraph P manifestPath strictMode))
   ++ issued (collectReferenced manifest assets graphs)
   ++ issued (verifyReferenced P fs versionDir manifest assets graphs))%list.

(** The references of a manifest, each with the kind the verification
    loop reports it under, in the order of the loop. *)
Definition references (manifest : JSON) : list (string * Js.value) :=
  (("profile", Js.prop manifest "profile")
   :: map (fun asset => ("asset", Some asset)) (arrayOrEmpty (Js.prop manifest "assets"))
   ++ map (fun graph => ("graph", Some graph)) (arrayOrEmpty (Js.prop manifest "graphs")))%list.

(** The issues the statements name, worded as the validators word them. *)
Definition missingIssue (kind abs : string) : Issue :=
  mkIssue error ("Manifest references missing " ++ kind ++ " file: " ++ abs).

Definition mismatchIssue (kind rel : string) : Issue :=
  mkIssue error ("SHA256 mismatch for " ++ kind ++ " file: " ++ rel).

Definition unsafeIssue (context rel : string) : Issue :=
  mkIssue error ("Unsafe referenced path in manifest (" ++ context ++ "): " ++ rel).

Definition safePath (rel : string) : Prop := isSafeRelativePath (jstr rel) = true.

Definition duplicateIdIssue (id : string) : Issue :=
  mkIssue error ("Duplicate command id in profile: " ++ id).

Definition notFoundIssue (id : string) : Issue :=
  mkIssue error ("Graph commandId not found in profile: " ++ id).


(** [Number(id)] is [Infinity] for the numeric identifier [id]. *)
Definition readsAsInfinity (id : string) : bool :=
  allDigits id
  && match Num.ofDigits id with S754_infinity _ => true | _ => false end.

(** The prerelease identifiers [parseSemver] finds in a version string. *)
Definition prerelease (a : string) : list string :=
  match parseSemver (jstr a) with Some p => pre p | None => [] end.

(** The [major.minor.patch] a version string is written with, when it is
    a semver string. *)
Definition coreOf (a : string) : option (string * string * string) :=
  match SEMVER_RE_exec (normalizeSemver (jstr a)) with
  | Some m => Some (m1 m, m2 m, m3 m)
  | None => None
  end.

(** Two semver strings written with the same [major.minor.patch]. *)
Definition sameCore (a b : string) : Prop :=
  isSemver (jstr a) = true /\ isSemver (jstr b) = true /\ coreOf a = coreOf b.

(** Printable ASCII other than the space. *)
Definition plain (c : ascii) : bool :=
  let n := Str.code c in ((33 <=? n) && (n <=? 126))%N.

(** A character a semver string may hold. *)
Definition semverChar (c : ascii) : bool :=
  identChar c || Ascii.eqb c "."%char || Ascii.eqb c "+"%char.

(** What strict mode makes of an issue of a run that is not strict. *)
Definition promote (i : Issue) : Issue :=
  match issueLevel i with
  | info => mkIssue warn (message i)
  | _ => i
  end.

(** The strict run [m] against the run [n] that is not: they end the same
    way, and [m] pushes the issues of [n] with [info] raised to [warn]. *)
Definition raises {A : Type} (m n : W A) : Prop :=
  result m = result n /\ issued m = map promote (issued n).

Definition isError (i : Issue) : Prop := issueLevel i = error.

Definition notWarn (i : Issue) : Prop := issueLevel i <> warn.

(** The key the duplicate check files an entry under: the normalized
    [packId] of an entry that is an object, empty for any other entry. *)
Definition normalizedId (P : Platform) (pack : JSON) : string :=
  if Js.notPlainObject (Some pack) then EmptyString
  else normalizePackId P (jstr (Js.trimmedOrEmpty (Js.prop pack "packId"))).

(** The keys of a catalog's entries that are not empty, in order. *)
Definition normalizedIds (P : Platform) (packs : list JSON) : list string :=
  filter (fun id => negb (Str.isEmpty id)) (map (normalizedId P) packs).

(** How many of [ids] repeat one of [earlier] or an id before them. *)
Fixpoint repeats (earlier ids : list string) : nat :=
  match ids with
  | [] => 0
  | id :: rest =>
      if Arr.has earlier id then S (repeats earlier rest)
      else repeats (id :: earlier) rest
  end.

Definition filled (seen : SeenMap) : Prop :=
  Forall (fun kv => Str.isEmpty (snd kv) = false) seen.

(** An issue at one of the two levels a run in mode [strictMode] uses:
    [error], and [warn] when strict, [info] when not. *)
Definition levelOf (strictMode : bool) (i : Issue) : Prop :=
  issueLevel i = error \/ issueLevel i = advisory strictMode.

(** At the path that [path.join] makes of the version directory and the
    trimmed [file] of the reference, wherever that path leads, there is a
    regular file, and its digest and the declared one are equal once
    [toLowerCase] has lowered both; said of a reference that has a path and
    a digest to check. *)
Definition intact (P : Platform) (fs : FileSystem) (versionDir : string) (ref : Js.value)
  : Prop :=
  forall file sha256,
    Js.propOpt ref "file" = Some (JString file) ->
    Js.propOpt ref "sha256" = Some (JString sha256) ->
    Str.isEmpty (Str.trim file) = false ->
    exists parsed digest,
      Fs.node fs (Path.join versionDir (Str.trim file)) = Some (File parsed digest)
      /\ toLowerCase P digest = toLowerCase P sha256.

(** The command object [command] gives the profile the command id [id]. *)
Definition declaresId (command : JSON) (id : string) : Prop :=
  exists fields,
    command = JObject fields
    /\ Js.assoc "id" fields = Some (JString id)
    /\ isUuid (jstr id) = true.

(** [packs/<packId>/pack.json] *)
Definition packJsonPathOf (packId : string) : string :=
  Path.join (Path.join "packs" packId) "pack.json".

(** A segment that names an entry: not empty, not [.] and not [..]. *)
Definition properSegment (seg : string) : bool :=
  negb (Str.isEmpty seg || String.eqb seg "." || String.eqb seg "..").

(** The stack [Path.normalizeSegments] ends with, last segment first. *)
Fixpoint finalStack (allowAboveRoot : bool) (stack segs : list string) : list string :=
  match segs with
  | [] => stack
  | seg :: rest =>
      if Str.isEmpty seg || String.eqb seg "." then finalStack allowAboveRoot stack rest
      else if String.eqb seg ".." then
        match stack with
        | top :: below =>
            if String.eqb top ".." then
              finalStack allowAboveRoot (if allowAboveRoot then ".." :: stack else stack) rest
            else finalStack allowAboveRoot below rest
        | [] => finalStack allowAboveRoot (if allowAboveRoot then [".."] else []) rest
        end
      else finalStack allowAboveRoot (seg :: stack) rest
  end.

(** What [normalizeString] keeps is kept: no empty segment and no [.]. *)
Definition keptSegment (seg : string) : bool :=
  negb (Str.isEmpty seg || String.eqb seg ".").

(** A string without the character [c]. *)
Definition without (c : ascii) (s : string) : bool :=
  negb (existsb (Ascii.eqb c) (Str.chars s)).

(** The segments [path.normalize] leaves of [p]. *)
Definition normalizedSegments (p : string) : list string :=
  Path.normalizeSegments (negb (Path.isAbsolute p)) [] (Str.split Path.slash p).

(** The segments a relative path adds to the directory it is joined to. *)
Definition segmentsBelow (rel : string) : list string :=
  Path.normalizeSegments true [] (Str.split Path.slash rel).

(** A path as [addRef] files it: trimmed, and safe. *)
Definition filedPath (rel : string) : Prop :=
  Str.trim rel = rel /\ isSafeRelativePath (jstr rel) = true.

(** An empty repository. *)
Definition emptyRepo : FileSystem := {| fsRoot := Dir []; fsCwd := [] |}.

Definition strictOptions : Options :=
  {| strict := true; allVersions := false; version := None |}.

(** [packs/<packId>/versions/<version>/manifest.v1.json] *)
Definition manifestPathOf (packId version : string) : string :=
  Path.join (Path.join (Path.join (Path.join "packs" packId) "versions") version)
    "manifest.v1.json".

(** The one way a validation of the pack [packId] ends with the exception
    [e]: a [TypeError], with a version on disk whose manifest loads and has
    a [profile.file] that is truthy and not a string. *)
Definition profileFileCrash (fs : FileSystem) (packId : string) (e : exn) : Prop :=
  e = TypeError
  /\ exists version manifest,
       manifestLoads fs (manifestPathOf packId version) manifest
       /\ profileFileJoinable manifest = false.

(** A run that throws nothing but what [Q] allows. *)
Definition throwsOnly {A : Type} (Q : exn -> Prop) (m : W A) : Prop :=
  forall e, result m = Throw e -> Q e.

(* ------------------------------------------------------------------ *)
(** ** [scripts/_lib.mjs]: flags of the command line, and table cells *)

(** The [flags] object of [parseFlags]: the assignments made, the latest
    first.  A key is read at its latest assignment, and a key that was not
    assigned at what [Object.prototype] has under it. *)
Definition Flags : Type := list (string * string).

(** The names [Object.prototype] defines. *)
Definition objectPrototypeKeys : list string :=
  ["constructor"; "__defineGetter__"; "__defineSetter__"; "hasOwnProperty";
   "__lookupGetter__"; "__lookupSetter__"; "isPrototypeOf"; "propertyIsEnumerable";
   "toString"; "valueOf"; "__proto__"; "toLocaleString"].

Definition inherited (key : string) : bool :=
  existsb (String.eqb key) objectPrototypeKeys.

(** [String(flags[key])] for an inherited key that was not assigned, as
    Node prints it: [__proto__] reads as the prototype, an object, and the
    others as built-in functions. *)
Definition inheritedText (key : string) : string :=
  if String.eqb key "__proto__" then "[object Object]"
  else if String.eqb key "constructor" then "function Object() { [native code] }"
  else "function " ++ key ++ "() { [native code] }".

(** [flags[key] = value] for a string [value]: assigning a string to
    [__proto__] changes nothing. *)
Definition flagSet (flags : Flags) (key value : string) : Flags :=
  if String.eqb key "__proto__" then flags else (key, value) :: flags.

Fixpoint flagGet (flags : Flags) (key : string) : option string :=
  match flags with
  | [] => None
  | (k, v) :: rest => if String.eqb key k then Some v else flagGet rest key
  end.

(** [s.slice(n)] *)
Definition sliceFrom (n : nat) (s : string) : string :=
  String.substring n (String.length s - n) s.

(** One turn of the loop of [parseFlags]; the arguments of a command line
    are strings. *)
Definition parseFlag (flags : Flags) (arg : string) : Flags :=
  if Str.isEmpty arg then flags
  else if Str.startsWith arg "--" then
    let raw := sliceFrom 2 arg in
    if Str.isEmpty raw then flags
    else
      match Str.cut "="%char raw with
      | (_, None) => flagSet flags raw "true"
      | (key, Some value) => if Str.isEmpty key then flags else flagSet flags key value
      end
  else if Str.startsWith arg "-" && Nat.ltb 1 (String.length arg) then
    let key := sliceFrom 1 arg in
    if Str.isEmpty key then flags else flagSet flags key "true"
  else flags.

Definition parseFlags (argv : list string) : Flags := fold_left parseFlag argv [].

(** [readStringFlag(flags, key)] on the object [parseFlags] returns;
    [None] is [null]. *)
Definition readStringFlag (flags : Flags) (key : string) : option string :=
  match flagGet flags key with
  | Some value => Some value
  | None => if inherited key then Some (inheritedText key) else None
  end.

(** [readBooleanFlag(flags, key)]; [None] is [undefined]. *)
Definition readBooleanFlag (P : Platform) (flags : Flags) (key : string) : option bool :=
  match readStringFlag flags key with
  | None => None
  | Some raw =>
      let v := toLowerCase P (Str.trim raw) in
      if String.eqb v "true" || String.eqb v "1" || String.eqb v "yes"
         || String.eqb v "y" || String.eqb v "on" then Some true
      else if String.eqb v "false" || String.eqb v "0" || String.eqb v "no"
              || String.eqb v "n" || String.eqb v "off" then Some false
      else None
  end.

(** [pad] and [truncate] count and cut UTF-16 code units: for them a
    string is the list of its code units, and a width a natural number. *)
Definition pad (value : list N) (width : nat) : list N :=
  if Nat.leb width (List.length value) then firstn width value
  else (value ++ repeat 32%N (width - List.length value))%list.

Definition truncate (value : list N) (max : nat) : list N :=
  if Nat.leb (List.length value) max then value
  else if Nat.leb max 3 then firstn max value
  else (firstn (max - 3) value ++ [46; 46; 46]%N)%list.

(** The key an argument assigns, if it assigns one. *)
Definition assignedKey (arg : string) : option string :=
  match parseFlag [] arg with
  | (key, _) :: _ => Some key
  | [] => None
  end.

Definition leavesAlone (key arg : string) : bool :=
  match assignedKey arg with
  | Some k => negb (String.eqb key k)
  | None => true
  end.

(* ------------------------------------------------------------------ *)
(** ** The two command lines: [main] of [validate-pack.mjs] and of
    [validate-catalog.mjs]

    What a run of [main] leaves: the exit code of the process and the
    issues it has in its [issues] array when it exits.  What it prints is
    left out. *)

(** [path.join(a, b, c, ...)] *)
Definition joinAll (parts : list string) : string :=
  match filter (fun p => negb (Str.isEmpty p)) parts with
  | [] => "."
  | kept => Path.normalize (Str.join "/" kept)
  end.

(** A run of a validator that fills an array of its own: what it pushed
    is the value the caller gets, and is lost when it throws. *)
Definition collect {A : Type} (m : W A) : W (list Issue) :=
  mkW (match result m with
       | Ok _ => Ok (issued m)
       | Throw e => Throw e
       end)
      [] (calls m).

Record Report : Type := {
  exitCode : nat;
  reported : list Issue
}.

Definition levelEqb (a b : level) : bool :=
  match a, b with
  | error, error | warn, warn | info, info => true
  | _, _ => false
  end.

(** [issues.filter((i) => i.level === lvl).length] *)
Definition countLevel (lvl : level) (issues : list Issue) : nat :=
  List.length (filter (fun i => levelEqb (issueLevel i) lvl) issues).

(** The last two lines of [main]: the exit code the process ends with. *)
Definition exitCodeOf (strictMode : bool) (issues : list Issue) : nat :=
  if Nat.ltb 0 (countLevel error issues) then 1
  else if strictMode && Nat.ltb 0 (countLevel warn issues) then 1
  else 0.

(** A flag read as a condition: [null] and the empty string are falsy. *)
Definition truthyFlag (v : option string) : bool :=
  match v with Some s => negb (Str.isEmpty s) | None => false end.

(** [readBooleanFlag(flags, key) === true] *)
Definition flagIsTrue (P : Platform) (flags : Flags) (key : string) : bool :=
  match readBooleanFlag P flags key with Some true => true | _ => false end.

(** [readStringFlag(flags, 'help') || readStringFlag(flags, 'h')] *)
Definition helpAsked (flags : Flags) : bool :=
  truthyFlag (readStringFlag flags "help") || truthyFlag (readStringFlag flags "h").

(** [readStringFlag(flags, key) || fallback] *)
Definition flagOr (flags : Flags) (key fallback : string) : string :=
  match readStringFlag flags key with
  | Some s => if Str.isEmpty s then fallback else s
  | None => fallback
  end.

Definition defaultCatalogPath : string := Path.join "catalog" "index.v1.json".

Section PackMain.

Variable P : Platform.
Variable fs : FileSystem.

(** [p && typeof p === 'object' && typeof p.packId === 'string' && p.packId.trim()] *)
Definition listedPack (p : JSON) : bool :=
  Js.truthy (Some p) && Js.typeofObject (Some p)
  && negb (Js.blankString (Js.prop p "packId")).

Definition loadCatalogPacks (catalogPath : string) : W (list JSON) :=
  e <- Fs.existsSync fs catalogPath ;;
  if negb e then
    addIssue error ("Catalog not found: " ++ catalogPath) ;; ret []
  else
    catalog <- readJson fs catalogPath ;;
    match catalog with
    | None =>
        addIssue error ("Catalog is not valid JSON: " ++ catalogPath) ;; ret []
    | Some c => ret (filter listedPack (arrayOrEmpty (Js.propOpt (Some c) "packs")))
    end.

(** The loop of [scanDiskPackIds]: the directories that hold a [pack.json]. *)
Fixpoint withPackJson (root : string) (names : list string) : W (list string) :=
  match names with
  | [] => ret []
  | name :: rest =>
      e <- Fs.existsSync fs (joinAll [root; name; "pack.json"]) ;;
      more <- withPackJson root rest ;;
      ret (if e then name :: more else more)
  end.

Definition scanDiskPackIds : W (list string) :=
  let root := "packs" in
  isDir <- Fs.existsAsDirectory fs root ;;
  if negb isDir then ret []
  else
    names <- Fs.readdirSync fs root ;;
    dirs <- directoriesAmong fs root (map fst names) ;;
    out <- withPackJson root dirs ;;
    ret (Arr.sort (localeCompare P) out).

(** [disk.filter((id) => !catalogSet.has(normalizePackId(id)))] *)
Definition orphansAmong (selectedPackIds disk : list string) : list string :=
  let catalogSet := map (fun id => normalizePackId P (jstr id)) selectedPackIds in
  filter (fun id => negb (Arr.has catalogSet (normalizePackId P (jstr id)))) disk.

Definition orphansMessage (orphans : list string) : string :=
  "Found " ++ Str.ofNat (List.length orphans)
  ++ " pack(s) on disk not present in catalog (delisted/orphan): "
  ++ Str.join ", " orphans.

(** Lines 469-480 of [main]. *)
Definition reportOrphans (selectedPackIds : list string) : W unit :=
  disk <- scanDiskPackIds ;;
  let orphans := orphansAmong selectedPackIds disk in
  when (Nat.ltb 0 (List.length orphans)) (addIssue info (orphansMessage orphans)).

Definition latestMismatchMessage (catalogLatest packLatest packId : string) : string :=
  "Catalog latestVersion (" ++ catalogLatest
  ++ ") does not match pack.json latestVersion (" ++ packLatest ++ ") for " ++ packId ++ ".".

(** Lines 490-508 of [main]: what the cross-check adds to the issues of a
    pack.  Reading [pack.json] and reading a property of [null] throw inside
    the [try], and the [catch] drops what they throw. *)
Definition crossCheck (catalogPacks : list JSON) (packId : string) : W (list Issue) :=
  match find (fun p => String.eqb (normalizePackId P (Js.prop p "packId"))
                         (normalizePackId P (jstr packId)))
             catalogPacks with
  | None => ret []
  | Some catalogEntry =>
      loaded <- readJson fs (joinAll ["packs"; packId; "pack.json"]) ;;
      match loaded with
      | None | Some JNull => ret []
      | Some packJson =>
          let packLatest := Js.trimmedOrEmpty (Js.prop packJson "latestVersion") in
          let catalogLatest := Js.trimmedOrEmpty (Js.prop catalogEntry "latestVersion") in
          if negb (Str.isEmpty packLatest) && negb (Str.isEmpty catalogLatest)
             && negb (String.eqb packLatest catalogLatest)
          then ret [mkIssue error (latestMismatchMessage catalogLatest packLatest packId)]
          else ret []
      end
  end.

(** One turn of the loop over [selectedPackIds]. *)
Definition validateSelected (all : bool) (catalogPacks : list JSON) (options : Options)
           (packId : string) : W unit :=
  packIssues <- collect (validatePackRun P fs packId options) ;;
  cross <- (if all then crossCheck catalogPacks packId else ret []) ;;
  forEach (packIssues ++ cross)%list
    (fun issue => addIssue (issueLevel issue) (packId ++ ": " ++ message issue)).

(** [main] of [validate-pack.mjs] from the flags on, for a command line
    that asks neither for help nor for nothing. *)
Definition packMainRun (flags : Flags) : W unit :=
  let all := flagIsTrue P flags "all" in
  let options := {| strict := flagIsTrue P flags "strict";
                    allVersions := flagIsTrue P flags "allVersions";
                    version := readStringFlag flags "version" |} in
  let catalogPath := flagOr flags "catalog" defaultCatalogPath in
  catalogPacks <- (if all then loadCatalogPacks catalogPath else ret []) ;;
  let selectedPackIds :=
    if all then map (fun pack => Js.trimmedOrEmpty (Js.prop pack "packId")) catalogPacks
    else match readStringFlag flags "packId" with
         | Some packIdFlag =>
             if negb (Str.isEmpty packIdFlag) then [Str.trim packIdFlag] else []
         | None => []
         end in
  (if all then reportOrphans selectedPackIds else ret tt) ;;
  forEach selectedPackIds (validateSelected all catalogPacks options).

(** [main] of [validate-pack.mjs]; [Throw] is an exception nothing catches. *)
Definition packMain (argv : list string) : res Report :=
  let flags := parseFlags argv in
  if helpAsked flags then Ok {| exitCode := 0; reported := [] |}
  else if negb (flagIsTrue P flags "all") && negb (truthyFlag (readStringFlag flags "packId"))
  then Ok {| exitCode := 1; reported := [] |}
  else
    let run := packMainRun flags in
    match result run with
    | Ok _ =>
        Ok {| exitCode := exitCodeOf (flagIsTrue P flags "strict") (issued run);
              reported := issued run |}
    | Throw e => Throw e
    end.

(** [main] of [validate-catalog.mjs]. *)
Definition catalogMain (argv : list string) : res Report :=
  let flags := parseFlags argv in
  if helpAsked flags then Ok {| exitCode := 0; reported := [] |}
  else
    let strictMode := flagIsTrue P flags "strict" in
    let file := flagOr flags "file" defaultCatalogPath in
    match result (Fs.existsSync fs file) with
    | Ok true =>
        match result (readJson fs file) with
        | Ok (Some catalog) =>
            match validateCatalog P catalog strictMode with
            | Ok issues =>
                Ok {| exitCode := exitCodeOf strictMode issues; reported := issues |}
            | Throw e => Throw e
            end
        | _ => Ok {| exitCode := 1; reported := [] |}
        end
    | _ => Ok {| exitCode := 1; reported := [] |}
    end.

End PackMain.

(** The ids [main] selects in [--all] mode: the trimmed [packId] of each
    listed pack. *)
Definition selectedOf (catalogPacks : list JSON) : list string :=
  map (fun pack => Js.trimmedOrEmpty (Js.prop pack "packId")) catalogPacks.

Definition hasLevel (lvl : level) (i : Issue) : Prop := issueLevel i = lvl.

(** The issue of a pack as [main] files it: under the id of the pack. *)
Definition filedUnder (packId : string) (issue : Issue) : Issue :=
  mkIssue (issueLevel issue) (packId ++ ": " ++ message issue).

(** What the cross-check adds for a pack. *)
Definition crossIssues (P : Platform) (fs : FileSystem) (all : bool)
           (catalogPacks : list JSON)
           (packId : string) : list Issue :=
  match result (if all then crossCheck P fs catalogPacks packId else ret []) with
  | Ok cross => cross
  | Throw _ => []
  end.

(** The ids the run of [main] goes through. *)
Definition selectedPackIdsOf (P : Platform) (flags : Flags) (catalogPacks : list JSON)
  : list string :=
  if flagIsTrue P flags "all" then selectedOf catalogPacks
  else match readStringFlag flags "packId" with
       | Some packIdFlag =>
           if negb (Str.isEmpty packIdFlag) then [Str.trim packIdFlag] else []
       | None => []
       end.

Definition optionsOf (P : Platform) (flags : Flags) : Options :=
  {| strict := flagIsTrue P flags "strict";
     allVersions := flagIsTrue P flags "allVersions";
     version := readStringFlag flags "version" |}.

(** The command line asks for nothing: neither [--all] nor a pack id. *)
Definition asksNothing (P : Platform) (flags : Flags) : bool :=
  negb (helpAsked flags)
  && negb (flagIsTrue P flags "all") && negb (truthyFlag (readStringFlag flags "packId")).


(** The catalog entry the cross-check of [main] compares a pack with: the
    first whose [packId] normalizes to what the pack's id normalizes to. *)
Definition catalogEntryOf (P : Platform) (catalogPacks : list JSON) (packId : string)
  : option JSON :=
  find (fun p => String.eqb (normalizePackId P (Js.prop p "packId"))
                   (normalizePackId P (jstr packId)))
       catalogPacks.

(** The catalog file [main] of [validate-catalog.mjs] is given cannot be
    read: nothing is there, or it does not read as JSON. *)
Definition catalogUnread (fs : FileSystem) (flags : Flags) : bool :=
  negb (helpAsked flags)
  && match result (Fs.existsSync fs (flagOr flags "file" defaultCatalogPath)),
           result (readJson fs (flagOr flags "file" defaultCatalogPath)) with
     | Ok true, Ok (Some _) => false
     | _, _ => true
     end.

(** A repository with a catalog: it lists [pub.slug] at [latestVersion],
    and the disk holds [pub.slug] at 1.0.0 and a pack the catalog does not
    list. *)
Definition listing (latestVersion : string) : JSON :=
  Sample.catalogOf
    (JArray [JObject [("packId", Sample.str "pub.slug");
                      ("latestVersion", Sample.str latestVersion)]]).

Definition repoListed (latestVersion : string) : FileSystem :=
  {| fsRoot :=
       Dir [("repo",
             Dir [("catalog",
                   Dir [("index.v1.json", File (Some (listing latestVersion)) Sample.digestA)]);
                  ("packs",
                   Dir [("pub.slug",
                         Dir [("pack.json", File (Some (Sample.packJson "1.0.0")) Sample.digestA);
                              ("versions", Dir [("1.0.0", Sample.goodVersion)])]);
                        ("old.pack",
                         Dir [("pack.json", File (Some (Sample.packJson "1.0.0"))
                                                 Sample.digestA)])])])];
     fsCwd := ["repo"] |}.

(** *** Where an issue of a manifest run comes from *)

(** The words the errors on a reference's file, on its digest and on a
    graph's command id start with. *)
Definition errorWordings : list string :=
  ["Manifest references missing "; "SHA256 mismatch for ";
   "Graph commandId not found in profile: "].

(** The message of the issue starts with [t]. *)
Definition worded (t : string) (i : Issue) : bool := Str.startsWith (message i) t.

(** The name of the profile file, which the errors on the shape of its
    commands start with, starts with none of [errorWordings]. *)
Definition profileNamedApart (versionDir : string) (manifest : JSON) : bool :=
  match Js.asString (Js.propOpt (Js.prop manifest "profile") "file") with
  | Some file =>
      forallb (fun t => negb (Str.startsWith (Path.basename (Path.join versionDir file)) t))
        errorWordings
  | None => true
  end.




(* ================================================================== *)
(** * Properties *)

(** ** Runs: how [bind] composes results, issues and calls *)

Section RunLemmas.

Context {A B : Type}.

Lemma bind_ok (m : W A) (f : A -> W B) (a : A) :
  result m = Ok a ->
  result (bind m f) = result (f a)
  /\ issued (bind m f) = (issued m ++ issued (f a))%list
  /\ calls (bind m f) = (calls m ++ calls (f a))%list.
Proof.
  intros H. unfold bind. rewrite H. simpl. auto.
Qed.

Lemma bind_throw (m : W A) (f : A -> W B) (e : exn) :
  result m = Throw e ->
  result (bind m f) = Throw e
  /\ issued (bind m f) = issued m
  /\ calls (bind m f) = calls m.
Proof.
  intros H. unfold bind. rewrite H. simpl. auto.
Qed.

(** What a run pushed stays pushed, whatever follows. *)
Lemma issued_bind_prefix (m : W A) (f : A -> W B) :
  exists tail, issued (bind m f) = (issued m ++ tail)%list.
Proof.
  unfold bind. destruct (result m) as [a | e]; simpl.
  - eexists. reflexivity.
  - exists []. now rewrite app_nil_r.
Qed.

Lemma calls_bind_prefix (m : W A) (f : A -> W B) :
  exists tail, calls (bind m f) = (calls m ++ tail)%list.
Proof.
  unfold bind. destruct (result m) as [a | e]; simpl.
  - eexists. reflexivity.
  - exists []. now rewrite app_nil_r.
Qed.

End RunLemmas.

Lemma returns_ret {A : Type} (a : A) : returns (ret a).
Proof. exists a. reflexivity. Qed.

Lemma returns_addIssue (lvl : level) (msg : string) : returns (addIssue lvl msg).
Proof. exists tt. reflexivity. Qed.

Lemma returns_bind {A B : Type} (m : W A) (f : A -> W B) :
  returns m -> (forall a, returns (f a)) -> returns (bind m f).
Proof.
  intros [a Ha] Hf. destruct (Hf a) as [b Hb].
  exists b. destruct (bind_ok m f a Ha) as [Hr _]. now rewrite Hr.
Qed.

Lemma returns_when (c : bool) (body : W unit) : returns body -> returns (when c body).
Proof. destruct c; simpl; auto using returns_ret. Qed.

Lemma returns_forEach {A : Type} (xs : list A) (body : A -> W unit) :
  (forall x, returns (body x)) -> returns (forEach xs body).
Proof.
  intros H. induction xs as [| x xs IH]; simpl.
  - apply returns_ret.
  - apply returns_bind; auto.
Qed.

Lemma returns_if {A : Type} (c : bool) (m n : W A) :
  returns m -> returns n -> returns (if c then m else n).
Proof. destruct c; auto. Qed.

Lemma allIssues_ret {A : Type} (Q : Issue -> Prop) (a : A) : allIssues Q (ret a).
Proof. constructor. Qed.

Lemma allIssues_addIssue (Q : Issue -> Prop) (lvl : level) (msg : string) :
  Q (mkIssue lvl msg) -> allIssues Q (addIssue lvl msg).
Proof. intros H. repeat constructor. exact H. Qed.

Lemma allIssues_bind {A B : Type} (Q : Issue -> Prop) (m : W A) (f : A -> W B) :
  allIssues Q m -> (forall a, allIssues Q (f a)) -> allIssues Q (bind m f).
Proof.
  unfold allIssues, bind. intros Hm Hf.
  destruct (result m) as [a | e]; simpl; auto.
  apply Forall_app. split; auto.
Qed.

Lemma allIssues_when (Q : Issue -> Prop) (c : bool) (body : W unit) :
  allIssues Q body -> allIssues Q (when c body).
Proof. destruct c; simpl; auto using allIssues_ret. Qed.

Lemma allIssues_if {A : Type} (Q : Issue -> Prop) (c : bool) (m n : W A) :
  allIssues Q m -> allIssues Q n -> allIssues Q (if c then m else n).
Proof. destruct c; auto. Qed.

Lemma allIssues_forEach {A : Type} (Q : Issue -> Prop) (xs : list A) (body : A -> W unit) :
  (forall x, allIssues Q (body x)) -> allIssues Q (forEach xs body).
Proof.
  intros H. induction xs as [| x xs IH]; simpl.
  - apply allIssues_ret.
  - apply allIssues_bind; auto.
Qed.

Create HintDb run discriminated.
#[export] Hint Resolve returns_ret returns_addIssue returns_bind returns_when
  returns_forEach returns_if : run.
#[export] Hint Resolve allIssues_ret allIssues_addIssue allIssues_bind allIssues_when
  allIssues_forEach allIssues_if : run.

Lemma allIssues_weaken {A : Type} (Q R : Issue -> Prop) (m : W A) :
  (forall i, Q i -> R i) -> allIssues Q m -> allIssues R m.
Proof. unfold allIssues. intros H. apply Forall_impl. exact H. Qed.

Lemma allIssues_silent {A : Type} (Q : Issue -> Prop) (m : W A) :
  issued m = [] -> allIssues Q m.
Proof. unfold allIssues. intros ->. constructor. Qed.

Lemma allIssues_bind_ok {A B : Type} (Q : Issue -> Prop) (m : W A) (f : A -> W B) :
  allIssues Q m -> (forall a, result m = Ok a -> allIssues Q (f a)) ->
  allIssues Q (bind m f).
Proof.
  unfold allIssues, bind. intros Hm Hf.
  destruct (result m) as [a | e]; simpl; auto.
  apply Forall_app. split; auto.
Qed.

Lemma levelEqb_eq (a b : level) : levelEqb a b = true <-> a = b.
Proof. destruct a, b; simpl; split; intros H; try discriminate H; reflexivity. Qed.

(** The issues of a loop are those of its turns, in order, when no turn throws. *)
Lemma issued_forEach {A : Type} (xs : list A) (body : A -> W unit) :
  (forall x, returns (body x)) ->
  issued (forEach xs body) = flat_map (fun x => issued (body x)) xs.
Proof.
  intros H. induction xs as [| x xs IH]; simpl; auto.
  destruct (H x) as [[] Hx].
  destruct (bind_ok (body x) (fun _ => forEach xs body) tt Hx) as (_ & Hi & _).
  rewrite Hi, IH. reflexivity.
Qed.

(* ------------------------------------------------------------------ *)
(** ** Numbers: rounding never gives [NaN] *)

Lemma iter_pos_invariant {A : Type} (Q : A -> Prop) (f : A -> A) :
  (forall x, Q x -> Q (f x)) -> forall n x, Q x -> Q (iter_pos f n x).
Proof.
  intros Hf. induction n as [n IH | n IH |]; intros x Hx; simpl; auto.
Qed.

Lemma shr_1_nonneg (mrs : shr_record) : (0 <= shr_m mrs)%Z -> (0 <= shr_m (shr_1 mrs))%Z.
Proof.
  destruct mrs as [m r s]. simpl.
  destruct m as [| p | p]; simpl; try lia; destruct p; simpl; lia.
Qed.

Lemma shr_nonneg (mrs : shr_record) (e n : Z) :
  (0 <= shr_m mrs)%Z -> (0 <= shr_m (fst (shr mrs e n)))%Z.
Proof.
  intros H. destruct n as [| p | p]; simpl; auto.
  apply (iter_pos_invariant (fun x => (0 <= shr_m x)%Z)); auto using shr_1_nonneg.
Qed.

Lemma shr_fexp_nonneg (pr em m e : Z) (l : location) :
  (0 <= m)%Z -> (0 <= shr_m (fst (shr_fexp pr em m e l)))%Z.
Proof.
  intros H. unfold shr_fexp. apply shr_nonneg.
  destruct l as [| []]; simpl; exact H.
Qed.

Lemma round_nearest_even_nonneg (m : Z) (l : location) :
  (0 <= m)%Z -> (0 <= round_nearest_even m l)%Z.
Proof.
  intros H. destruct l as [| []]; simpl; try lia.
  destruct (Z.even m); lia.
Qed.

Lemma binary_round_aux_not_nan (pr em : Z) (sx : bool) (mx ex : Z) (lx : location) :
  (0 <= mx)%Z -> binary_round_aux pr em sx mx ex lx <> S754_nan.
Proof.
  intros H. unfold binary_round_aux.
  pose proof (shr_fexp_nonneg pr em mx ex lx H) as H1.
  destruct (shr_fexp pr em mx ex lx) as [mrs' e']. simpl in H1.
  pose proof (shr_fexp_nonneg pr em _ e' loc_Exact
                (round_nearest_even_nonneg _ (loc_of_shr_record mrs') H1)) as H2.
  destruct (shr_fexp pr em (round_nearest_even (shr_m mrs') (loc_of_shr_record mrs')) e' loc_Exact)
    as [mrs'' e'']. simpl in H2.
  destruct (shr_m mrs'') as [| m | m]; try discriminate.
  - destruct (Z.leb e'' (em - pr)); discriminate.
  - lia.
Qed.

Lemma binary_normalize_not_nan (pr em m e : Z) (s : bool) :
  binary_normalize pr em m e s <> S754_nan.
Proof.
  destruct m as [| p | p]; simpl; try discriminate; unfold binary_round;
    destruct (shl_align _ _ _) as [mz ez]; apply binary_round_aux_not_nan; lia.
Qed.

Lemma ofDigits_not_nan (s : string) : Num.ofDigits s <> S754_nan.
Proof. apply binary_normalize_not_nan. Qed.

Lemma Num_eqb_refl (x : spec_float) : x <> S754_nan -> Num.eqb x x = true.
Proof.
  intros H. unfold Num.eqb, SFeqb.
  destruct x as [s | s | | s m e]; try congruence; simpl.
  - reflexivity.
  - destruct s; reflexivity.
  - rewrite Z.compare_refl, Pos.compare_cont_refl. destruct s; reflexivity.
Qed.

Lemma Num_eqb_ofDigits (s : string) : Num.eqb (Num.ofDigits s) (Num.ofDigits s) = true.
Proof. apply Num_eqb_refl, ofDigits_not_nan. Qed.

Lemma compareIdentifiers_self_exact (a : string) :
  compareIdentifiers a a = (if readsAsInfinity a then -1 else 0)%Z.
Proof.
  unfold compareIdentifiers, readsAsInfinity.
  destruct (allDigits a); simpl.
  - pose proof (ofDigits_not_nan a) as Hn.
    unfold Num.sub, Num.eqb, Num.gtb, Num.zero.
    destruct (Num.ofDigits a) as [s | s | | s m e]; try congruence.
    + destruct s; reflexivity.
    + destruct s; reflexivity.
    + unfold SFsub. rewrite Z.sub_diag. reflexivity.
  - rewrite String.eqb_refl. reflexivity.
Qed.

Lemma comparePre_self (l : list string) :
  comparePre l l = (if existsb readsAsInfinity l then -1 else 0)%Z.
Proof.
  induction l as [| x l IH]; simpl; auto.
  rewrite compareIdentifiers_self_exact.
  destruct (readsAsInfinity x); simpl; auto.
Qed.

Lemma compareIdentifiers_sign (a b : string) :
  compareIdentifiers a b = (-1)%Z \/ compareIdentifiers a b = 0%Z
  \/ compareIdentifiers a b = 1%Z.
Proof.
  unfold compareIdentifiers.
  repeat match goal with |- context [if ?c then _ else _] => destruct c end; auto.
Qed.

Lemma comparePre_sign (p q : list string) :
  comparePre p q = (-1)%Z \/ comparePre p q = 0%Z \/ comparePre p q = 1%Z.
Proof.
  revert q. induction p as [| x p IH]; intros [| y q]; simpl; auto.
  destruct (compareIdentifiers_sign x y) as [E | [E | E]]; rewrite E; simpl; auto.
Qed.

Lemma isSemver_exec (s : string) :
  isSemver (jstr s) = true -> exists m, SEMVER_RE_exec (normalizeSemver (jstr s)) = Some m.
Proof.
  unfold isSemver. simpl Js.asString. cbv iota.
  destruct (SEMVER_RE_exec _) as [m |]; [eauto | discriminate].
Qed.

(* ------------------------------------------------------------------ *)
(** ** Semantic versions *)

(** The values the specification lists for [normalizeSemver] and [isSemver]. *)
Example normalizeSemver_isSemver_listed :
  normalizeSemver (jstr "v1.2.3") = "1.2.3"
  /\ isSemver (jstr "1.2.3") = true
  /\ isSemver (jstr "1.2") = false.
Proof. repeat split; vm_compute; reflexivity. Qed.

(** Two valid semver strings are always comparable: [compareSemver]
    does not return [null] on them. *)
Lemma compareSemver_not_null (a b : string) :
  isSemver (jstr a) = true -> isSemver (jstr b) = true ->
  exists c, compareSemver (jstr a) (jstr b) = Some c.
Proof.
  unfold isSemver, compareSemver, parseSemver. simpl Js.asString. cbv iota.
  destruct (SEMVER_RE_exec (normalizeSemver (jstr a))); [| discriminate].
  destruct (SEMVER_RE_exec (normalizeSemver (jstr b))); [| discriminate].
  intros _ _. eexists. reflexivity.
Qed.

(** A non-numeric identifier is higher than a numeric one. *)
Lemma compareIdentifiers_alpha_numeric (a b : string) :
  allDigits a = false -> allDigits b = true -> compareIdentifiers a b = 1%Z.
Proof. intros Ha Hb. unfold compareIdentifiers. rewrite Ha, Hb. reflexivity. Qed.

(** An identifier compared with itself gives 0, or -1 when the difference
    of the two numbers is [NaN]; never 1. *)
Lemma compareIdentifiers_self (a : string) :
  compareIdentifiers a a = 0%Z \/ compareIdentifiers a a = (-1)%Z.
Proof.
  unfold compareIdentifiers.
  destruct (allDigits a); simpl.
  - destruct (Num.eqb _ _); auto. destruct (Num.gtb _ _) eqn:G; auto.
    exfalso. revert G. unfold Num.gtb, Num.sub, Num.zero.
    destruct (Num.ofDigits a) as [s | s | | s m e].
    1-3: try destruct s; simpl; discriminate.
    unfold SFsub. rewrite Z.sub_diag. simpl. discriminate.
  - rewrite String.eqb_refl. auto.
Qed.

(** A prerelease list that is a proper prefix of another is lower. *)
Lemma comparePre_proper_prefix (p q : list string) :
  q <> [] -> comparePre p (p ++ q)%list = (-1)%Z.
Proof.
  intros Hq. induction p as [| x p IH]; simpl.
  - destruct q; [contradiction | reflexivity].
  - destruct (compareIdentifiers_self x) as [E | E]; rewrite E; simpl; auto.
Qed.

(** ** Precedence at equal [major.minor.patch] *)

(** What [compareSemver] returns on two strings with the same core: the
    comparison of the two prerelease lists, a list that is empty being
    higher than one that is not. *)
Lemma compareSemver_sameCore (a b : string) :
  sameCore a b ->
  compareSemver (jstr a) (jstr b)
  = Some (match prerelease a, prerelease b with
          | [], [] => 0
          | [], _ => 1
          | _, [] => -1
          | aPre, bPre => comparePre aPre bPre
          end)%Z.
Proof.
  intros (Ha & Hb & Hcore).
  destruct (isSemver_exec a Ha) as [ma Hma]. destruct (isSemver_exec b Hb) as [mb Hmb].
  unfold coreOf in Hcore. rewrite Hma, Hmb in Hcore. injection Hcore as E1 E2 E3.
  unfold compareSemver, prerelease, parseSemver. rewrite Hma, Hmb. cbn [major minor patch pre].
  rewrite E1, E2, E3, !Num_eqb_ofDigits. reflexivity.
Qed.

(** Identifiers that compare 0 with themselves at the head of both lists
    take no part in the comparison. *)
Lemma comparePre_common (common p q : list string) :
  existsb readsAsInfinity common = false ->
  comparePre (common ++ p) (common ++ q) = comparePre p q.
Proof.
  induction common as [| x common IH]; [reflexivity |].
  cbn [existsb app comparePre]. intros H. apply orb_false_iff in H as [Hx Hc].
  rewrite compareIdentifiers_self_exact, Hx. simpl. apply IH, Hc.
Qed.

Lemma allDigits_numeric (y : string) :
  Str.isEmpty y = false -> Str.all Str.isDigit y = true -> allDigits y = true.
Proof. intros He Hd. unfold allDigits. now rewrite He, Hd. Qed.

Lemma allDigits_other (x : string) : Str.all Str.isDigit x = false -> allDigits x = false.
Proof. intros Hd. unfold allDigits. rewrite Hd. apply andb_false_r. Qed.

(** The identifiers of a semver string are not empty. *)
Lemma prerelease_nonempty (a y : string) :
  In y (prerelease a) -> Str.isEmpty y = false.
Proof.
  unfold prerelease, parseSemver, SEMVER_RE_exec.
  destruct (Str.cut "+" (normalizeSemver (jstr a))) as [main build].
  destruct (Str.cut "-" main) as [core preText].
  destruct (Str.split "." core) as [| c1 [| c2 [| c3 [| c4 rest]]]]; try contradiction.
  destruct (numericCore c1 && numericCore c2 && numericCore c3
            && match preText with Some s => dottedIdentifiers s | None => true end
            && match build with Some s => dottedIdentifiers s | None => true end) eqn:E;
    [| contradiction].
  cbn [pre m4]. destruct preText as [p |]; [| contradiction].
  apply andb_true_iff in E as [E _]. apply andb_true_iff in E as [_ E].
  unfold dottedIdentifiers in E. rewrite forallb_forall in E.
  intros Hin. apply E in Hin. apply andb_true_iff in Hin as [Hne _].
  now apply negb_true_iff in Hne.
Qed.

(** A list compared with a proper prefix of it whose identifiers compare
    0 with themselves. *)
Lemma comparePre_longer (p q : list string) :
  q <> [] -> existsb readsAsInfinity p = false -> comparePre (p ++ q) p = 1%Z.
Proof.
  intros Hq Hp.
  rewrite <- (app_nil_r p) at 2. rewrite comparePre_common by exact Hp.
  destruct q; [contradiction | reflexivity].
Qed.

(** C5. Precedence at equal [major.minor.patch], in both directions.  A
    version with a prerelease is lower than one with none.  A version whose
    prerelease list, not empty, is a proper prefix of another's is lower;
    the longer one is higher, unless an identifier of the prefix is a number
    that [Number] reads as [Infinity].  And where the two lists first
    differ, after identifiers none of which reads as [Infinity], an
    identifier with a character that is not a digit is higher than one that
    is all digits.  The three pairs the specification lists are instances. *)
Theorem compareSemver_precedence :
  (compareSemver (jstr "1.0.0-alpha") (jstr "1.0.0") = Some (-1)%Z
   /\ compareSemver (jstr "1.0.0-alpha") (jstr "1.0.0-alpha.1") = Some (-1)%Z
   /\ compareSemver (jstr "1.0.0-alpha.beta") (jstr "1.0.0-alpha.1") = Some 1%Z)
  /\ forall a b : string,
       sameCore a b ->
       (prerelease a <> [] -> prerelease b = [] ->
        compareSemver (jstr a) (jstr b) = Some (-1)%Z
        /\ compareSemver (jstr b) (jstr a) = Some 1%Z)
       /\ (forall q,
             prerelease a <> [] -> q <> [] -> prerelease b = (prerelease a ++ q)%list ->
             compareSemver (jstr a) (jstr b) = Some (-1)%Z
             /\ (existsb readsAsInfinity (prerelease a) = false ->
                 compareSemver (jstr b) (jstr a) = Some 1%Z))
       /\ (forall common x y restA restB,
             prerelease a = (common ++ x :: restA)%list ->
             prerelease b = (common ++ y :: restB)%list ->
             existsb readsAsInfinity common = false ->
             Str.all Str.isDigit x = false ->
             Str.all Str.isDigit y = true ->
             compareSemver (jstr a) (jstr b) = Some 1%Z
             /\ compareSemver (jstr b) (jstr a) = Some (-1)%Z).
Proof.
  split; [repeat split; vm_compute; reflexivity |].
  intros a b Hab.
  assert (Hba : sameCore b a) by (destruct Hab as (Ha & Hb & E); repeat split; auto).
  rewrite (compareSemver_sameCore a b Hab), (compareSemver_sameCore b a Hba).
  split; [| split].
  - intros Ha Hb. rewrite Hb. destruct (prerelease a); [contradiction | auto].
  - intros q Ha Hq Hb. rewrite Hb.
    destruct (prerelease a) as [| x p] eqn:Ea; [contradiction |].
    cbn [app]. split.
    + f_equal. apply (comparePre_proper_prefix (x :: p) q Hq).
    + intros Hinf. f_equal. apply (comparePre_longer (x :: p) q Hq Hinf).
  - intros common x y restA restB Ea Eb Hc Hx Hy.
    assert (Hy' : allDigits y = true).
    { apply allDigits_numeric; [| exact Hy].
      apply (prerelease_nonempty b). rewrite Eb. apply in_or_app. right. now left. }
    pose proof (allDigits_other x Hx) as Hx'.
    rewrite Ea, Eb.
    assert (Hxy : compareIdentifiers x y = 1%Z)
      by (apply compareIdentifiers_alpha_numeric; assumption).
    assert (Hyx : compareIdentifiers y x = (-1)%Z)
      by (unfold compareIdentifiers; rewrite Hx', Hy'; reflexivity).
    assert (Hne : forall u (l : list string), (common ++ u :: l)%list <> [])
      by (intros u l; destruct common; discriminate).
    split; f_equal.
    + destruct (common ++ x :: restA)%list eqn:E1; [now elim (Hne x restA) |].
      destruct (common ++ y :: restB)%list eqn:E2; [now elim (Hne y restB) |].
      rewrite <- E1, <- E2, comparePre_common by exact Hc.
      cbn [comparePre]. now rewrite Hxy.
    + destruct (common ++ y :: restB)%list eqn:E2; [now elim (Hne y restB) |].
      destruct (common ++ x :: restA)%list eqn:E1; [now elim (Hne x restA) |].
      rewrite <- E1, <- E2, comparePre_common by exact Hc.
      cbn [comparePre]. now rewrite Hyx.
Qed.

Lemma compareSemver_precedence_witness :
  (compareSemver (jstr "v2.1.0-rc.1") (jstr "2.1.0+build.5") = Some (-1)%Z
   /\ compareSemver (jstr "2.1.0+build.5") (jstr "v2.1.0-rc.1") = Some 1%Z)
  /\ (compareSemver (jstr "2.1.0-rc") (jstr "2.1.0-rc.0.x") = Some (-1)%Z
      /\ compareSemver (jstr "2.1.0-rc.0.x") (jstr "2.1.0-rc") = Some 1%Z)
  /\ (compareSemver (jstr "2.1.0-rc.x7.1") (jstr "2.1.0-rc.12") = Some 1%Z
      /\ compareSemver (jstr "2.1.0-rc.12") (jstr "2.1.0-rc.x7.1") = Some (-1)%Z).
Proof.
  assert (S1 : sameCore "v2.1.0-rc.1" "2.1.0+build.5") by (repeat split; vm_compute; reflexivity).
  assert (S2 : sameCore "2.1.0-rc" "2.1.0-rc.0.x") by (repeat split; vm_compute; reflexivity).
  assert (S3 : sameCore "2.1.0-rc.x7.1" "2.1.0-rc.12") by (repeat split; vm_compute; reflexivity).
  split; [| split].
  - apply (proj1 (proj2 compareSemver_precedence _ _ S1)); [discriminate | reflexivity].
  - destruct (proj1 (proj2 (proj2 compareSemver_precedence _ _ S2)) ["0"; "x"])
      as [H1 H2]; [discriminate | discriminate | reflexivity |].
    split; [exact H1 | apply H2; reflexivity].
  - apply (proj2 (proj2 (proj2 compareSemver_precedence _ _ S3)) ["rc"] "x7" "12" ["1"] []);
      reflexivity.
Defined.

(** C4, at a valid semver string with a numeric prerelease identifier of
    309 digits: [Number] reads the identifier as [Infinity], the difference
    of the two is [NaN], which is neither 0 nor greater than 0, and the
    string compares lower than itself. *)
Theorem compareSemver_not_reflexive :
  isSemver (jstr Sample.hugeVersion) = true
  /\ Num.ofDigits Sample.hugeIdentifier = S754_infinity false
  /\ Num.sub (Num.ofDigits Sample.hugeIdentifier) (Num.ofDigits Sample.hugeIdentifier)
     = S754_nan
  /\ compareIdentifiers Sample.hugeIdentifier Sample.hugeIdentifier = (-1)%Z
  /\ compareSemver (jstr Sample.hugeVersion) (jstr Sample.hugeVersion) = Some (-1)%Z.
Proof. repeat split; vm_compute; reflexivity. Qed.

(* ------------------------------------------------------------------ *)
(** ** The catalog validator *)

Lemma returns_unit (m : W unit) : returns m -> result m = Ok tt.
Proof. intros [[] H]. exact H. Qed.

Lemma result_bind {A B : Type} (m : W A) (f : A -> W B) (a : A) :
  result m = Ok a -> result (bind m f) = result (f a).
Proof. intros H. now destruct (bind_ok m f a H). Qed.

Lemma issued_bind {A B : Type} (m : W A) (f : A -> W B) (a : A) :
  result m = Ok a -> issued (bind m f) = (issued m ++ issued (f a))%list.
Proof. intros H. now destruct (bind_ok m f a H) as (_ & ? & _). Qed.

Lemma calls_bind {A B : Type} (m : W A) (f : A -> W B) (a : A) :
  result m = Ok a -> calls (bind m f) = (calls m ++ calls (f a))%list.
Proof. intros H. now destruct (bind_ok m f a H) as (_ & _ & ?). Qed.

Lemma filter_none {A : Type} (f : A -> bool) (l : list A) :
  Forall (fun x => f x = false) l -> filter f l = [].
Proof.
  induction 1 as [| x l Hx _ IH]; simpl; auto. now rewrite Hx.
Qed.

(** [encodeURIComponent] pushes no issue. *)
Lemma allIssues_encodeURIComponent (Q : Issue -> Prop) (s : string) :
  allIssues Q (Uri.encodeURIComponent s).
Proof. unfold Uri.encodeURIComponent. destruct (Uri.hasLoneSurrogate s); constructor. Qed.

Ltac run_step :=
  first
    [ apply returns_ret | apply returns_addIssue | apply returns_when
    | apply returns_bind | apply returns_forEach
    | apply allIssues_ret | apply allIssues_addIssue | apply allIssues_when
    | apply allIssues_bind | apply allIssues_forEach
    | apply allIssues_encodeURIComponent
    | match goal with
      | |- returns (match ?x with _ => _ end) => destruct x
      | |- allIssues _ (match ?x with _ => _ end) => destruct x
      | |- returns (if ?c then _ else _) => destruct c
      | |- allIssues _ (if ?c then _ else _) => destruct c
      | |- returns (let _ := _ in _) => cbv zeta
      | |- allIssues _ (let _ := _ in _) => cbv zeta
      end
    | progress intros ].

Ltac run_auto := repeat run_step.

(** C10. A catalog root that is not an object, be it [null], a boolean, a
    number, a string or an array, gets exactly one error.  A root that is an
    object whose [packs] is not an array gets the root-level errors only: the
    ones on [schemaVersion] and [generatedAt] that apply, then the one on
    [packs]; no entry or sort-order check is made. *)
Theorem validateCatalog_root_level (P : Platform) (catalog : JSON) (strictMode : bool) :
  Js.isArray (Js.prop catalog "packs") = false ->
  validateCatalog P catalog strictMode =
    Ok (match catalog with
        | JNull | JBool _ | JNumber _ | JString _ | JArray _ =>
            [mkIssue error "Catalog root must be a JSON object."]
        | JObject fields =>
            ((if Js.notPositiveInteger (Js.assoc "schemaVersion" fields)
              then [mkIssue error "catalog.schemaVersion must be a positive integer."]
              else [])
             ++ match Js.assoc "generatedAt" fields with
                | Some (JString generatedAt) =>
                    if Str.isEmpty (Str.trim generatedAt)
                    then [mkIssue error "catalog.generatedAt must be a non-empty string."]
                    else if dateParses P generatedAt then []
                    else [mkIssue error
                            ("catalog.generatedAt is not a parseable timestamp: "
                             ++ generatedAt)]
                | _ => [mkIssue error "catalog.generatedAt must be a non-empty string."]
                end
             ++ [mkIssue error "catalog.packs must be an array."])%list
        end).
Proof.
  intros H.
  destruct catalog as [| b | x | s | items | fields];
    try reflexivity.
  - destruct b; reflexivity.
  - destruct x as [[] | [] | | [] m e]; reflexivity.
  - destruct s; reflexivity.
  - unfold validateCatalog, validateCatalogRun, checkSchemaVersion, checkGeneratedAt.
    change (Js.notPlainObject (Some (JObject fields))) with false. cbv iota.
    simpl Js.prop in *.
    destruct (Js.notPositiveInteger (Js.assoc "schemaVersion" fields));
    destruct (Js.assoc "generatedAt" fields) as [[| | | g | |] |];
    simpl Js.asString; cbv iota;
    try destruct (Str.isEmpty (Str.trim g));
    try destruct (dateParses P g);
    destruct (Js.assoc "packs" fields) as [[| | | | |] |];
    try discriminate H; reflexivity.
Qed.

Lemma validateCatalog_root_level_witness :
  validateCatalog Sample.host Sample.catalogNoPacks true =
    Ok [mkIssue error "catalog.schemaVersion must be a positive integer.";
        mkIssue error "catalog.generatedAt is not a parseable timestamp: yesterday";
        mkIssue error "catalog.packs must be an array."]
  /\ validateCatalog Sample.host (JArray [Sample.catalogNoPacks]) false =
       Ok [mkIssue error "Catalog root must be a JSON object."].
Proof.
  split.
  - exact (validateCatalog_root_level Sample.host Sample.catalogNoPacks true eq_refl).
  - exact (validateCatalog_root_level Sample.host (JArray [Sample.catalogNoPacks]) false
             eq_refl).
Defined.

Lemma checkEntryFields_returns (prefix : string) (pack : JSON) :
  returns (checkEntryFields prefix pack).
Proof. unfold checkEntryFields. run_auto. Qed.

Lemma checkDuplicate_returns (P : Platform) (seen : SeenMap) (packId : string) :
  returns (checkDuplicate P seen packId).
Proof. unfold checkDuplicate. run_auto. Qed.

Lemma checkEntry_outcome (P : Platform) (strictMode : bool) (seen : SeenMap)
      (index : nat) (pack : JSON) :
  if entryUrlDecodes P pack
  then returns (checkEntry P strictMode seen index pack)
  else result (checkEntry P strictMode seen index pack) = Throw URIError.
Proof.
  unfold entryUrlDecodes, checkEntry.
  destruct (Js.notPlainObject (Some pack)); simpl orb; cbv iota.
  - run_auto.
  - set (prefix := "catalog.packs[" ++ Str.ofNat index ++ "]").
    set (url := Js.trimmedOrEmpty (Js.prop pack "manifestUrl")).
    pose proof (returns_unit _ (checkEntryFields_returns prefix pack)) as Hf.
    unfold checkManifestUrl, Uri.decodeURIComponent.
    destruct (Str.isEmpty url); simpl.
    + apply returns_bind; [apply checkEntryFields_returns |]. intros _.
      apply returns_bind; [apply returns_ret |]. intros _.
      apply checkDuplicate_returns.
    + destruct (urlPathname P url) as [raw |].
      * unfold Uri.encodeURIComponent.
        destruct (Uri.hasLoneSurrogate (Js.trimmedOrEmpty (Js.prop pack "packId")));
          simpl negb; cbn [andb];
          [erewrite result_bind by exact Hf; reflexivity |].
        destruct (Uri.hasLoneSurrogate (Js.trimmedOrEmpty (Js.prop pack "latestVersion")));
          simpl negb; cbn [andb];
          [erewrite result_bind by exact Hf; reflexivity |].
        destruct (Uri.decode (String.length raw) (Str.chars raw) []) as [l |].
        -- apply returns_bind; [apply checkEntryFields_returns |]. intros _.
           apply returns_bind; [| intros; apply checkDuplicate_returns].
           run_auto.
        -- erewrite result_bind by exact Hf. reflexivity.
      * apply returns_bind; [apply checkEntryFields_returns |]. intros _.
        apply returns_bind; [| intros; apply checkDuplicate_returns].
        run_auto.
Qed.

Lemma checkEntries_outcome (P : Platform) (strictMode : bool)
      (packs : list (nat * JSON)) (seen : SeenMap) :
  if forallb (fun e => entryUrlDecodes P (snd e)) packs
  then returns (checkEntries P strictMode seen packs)
  else result (checkEntries P strictMode seen packs) = Throw URIError.
Proof.
  revert seen. induction packs as [| [index pack] rest IH]; intros seen; simpl.
  - apply returns_ret.
  - pose proof (checkEntry_outcome P strictMode seen index pack) as H.
    destruct (entryUrlDecodes P pack); simpl.
    + destruct H as [seen' H].
      destruct (bind_ok _ (fun s => checkEntries P strictMode s rest) seen' H)
        as (Hr & _).
      specialize (IH seen').
      destruct (forallb _ rest).
      * destruct IH as [u IH]. exists u. now rewrite Hr.
      * now rewrite Hr.
    + destruct (bind_throw _ (fun s => checkEntries P strictMode s rest) _ H)
        as (Hr & _).
      exact Hr.
Qed.

Lemma forallb_entries {A : Type} (f : A -> bool) (l : list A) (start : nat) :
  forallb (fun e : nat * A => f (snd e)) (combine (seq start (List.length l)) l)
  = forallb f l.
Proof.
  revert start. induction l as [| x l IH]; intros start; simpl; auto.
  now rewrite IH.
Qed.

(** [validateCatalog] throws exactly when an entry's [manifestUrl] parses to
    a pathname with a malformed escape; the exception is [URIError]. *)
Lemma validateCatalog_outcome (P : Platform) (fields : list (string * JSON))
      (packs : list JSON) (strictMode : bool) :
  Js.assoc "packs" fields = Some (JArray packs) ->
  validateCatalog P (JObject fields) strictMode =
    if forallb (entryUrlDecodes P) packs
    then Ok (issued (validateCatalogRun P (JObject fields) strictMode))
    else Throw URIError.
Proof.
  intros Hp.
  assert (Hrun : result (validateCatalogRun P (JObject fields) strictMode)
                 = if forallb (entryUrlDecodes P) packs then Ok tt else Throw URIError).
  { unfold validateCatalogRun.
    change (Js.notPlainObject (Some (JObject fields))) with false.
    simpl Js.prop. rewrite Hp. cbv beta iota.
    erewrite result_bind
      by (apply returns_unit; unfold checkSchemaVersion; run_auto).
    erewrite result_bind
      by (apply returns_unit; unfold checkGeneratedAt; run_auto).
    pose proof (checkEntries_outcome P strictMode (Js.entries packs) []) as H.
    unfold Js.entries in H at 1. rewrite forallb_entries in H.
    destruct (forallb (entryUrlDecodes P) packs).
    - erewrite result_bind by (apply returns_unit; exact H).
      apply returns_unit. unfold checkSorted. run_auto.
    - now destruct (bind_throw _ (fun _ => checkSorted P strictMode packs) _ H). }
  unfold validateCatalog. cbv zeta. rewrite Hrun.
  destruct (forallb (entryUrlDecodes P) packs); reflexivity.
Qed.

(** C2, at a catalog with one entry whose [manifestUrl] has a [%] that no
    two hex digits follow: the URL parser keeps the escape in the pathname,
    [decodeURIComponent] throws, and so does [validateCatalog]. *)
Theorem validateCatalog_throws_on_malformed_escape (P : Platform) (strictMode : bool) :
  urlPathname P Sample.badEscapeUrl
    = Some "/packs/pub.slug/versions/1.0.0/100%/manifest.v1.json" ->
  validateCatalog P Sample.catalogBadEscape strictMode = Throw URIError.
Proof.
  intros H.
  unfold Sample.catalogBadEscape, Sample.catalogOf.
  erewrite validateCatalog_outcome by reflexivity.
  unfold forallb, entryUrlDecodes.
  replace (Js.trimmedOrEmpty
             (Js.prop (Sample.entry "pub.slug" "pub" "slug" Sample.badEscapeUrl)
                "manifestUrl"))
    with Sample.badEscapeUrl by (vm_compute; reflexivity).
  cbv zeta. rewrite H. vm_compute. reflexivity.
Qed.

Lemma validateCatalog_throws_on_malformed_escape_witness :
  validateCatalog Sample.host Sample.catalogBadEscape true = Throw URIError.
Proof.
  exact (validateCatalog_throws_on_malformed_escape Sample.host true eq_refl).
Defined.

Lemma checkEntryFields_notDuplicate (index : nat) (pack : JSON) :
  allIssues notDuplicate
    (checkEntryFields ("catalog.packs[" ++ Str.ofNat index ++ "]") pack).
Proof. unfold checkEntryFields. run_auto; reflexivity. Qed.

Lemma checkManifestUrl_notDuplicate (P : Platform) (strictMode : bool) (index : nat)
      (packId latestVersion manifestUrl : string) :
  allIssues notDuplicate
    (checkManifestUrl P strictMode ("catalog.packs[" ++ Str.ofNat index ++ "]")
       packId latestVersion manifestUrl).
Proof.
  unfold checkManifestUrl, Uri.decodeURIComponent.
  run_auto; try reflexivity; constructor.
Qed.

Lemma checkManifestUrl_returns (P : Platform) (strictMode : bool)
      (prefix : string) (pack : JSON) :
  Js.notPlainObject (Some pack) = false ->
  entryUrlDecodes P pack = true ->
  returns (checkManifestUrl P strictMode prefix
             (Js.trimmedOrEmpty (Js.prop pack "packId"))
             (Js.trimmedOrEmpty (Js.prop pack "latestVersion"))
             (Js.trimmedOrEmpty (Js.prop pack "manifestUrl"))).
Proof.
  unfold entryUrlDecodes, checkManifestUrl, Uri.decodeURIComponent,
    Uri.encodeURIComponent.
  intros -> H. cbn [orb] in H. cbv zeta in H.
  destruct (Str.isEmpty (Js.trimmedOrEmpty (Js.prop pack "manifestUrl")));
    cbn [orb negb when] in *; [apply returns_ret |].
  destruct (urlPathname P _) as [raw |]; [| apply returns_addIssue].
  destruct (Uri.hasLoneSurrogate (Js.trimmedOrEmpty (Js.prop pack "packId")));
    [discriminate H |].
  destruct (Uri.hasLoneSurrogate (Js.trimmedOrEmpty (Js.prop pack "latestVersion")));
    [discriminate H |].
  destruct (Uri.decode _ _ _); [| discriminate H].
  run_auto.
Qed.

(** An entry that is an object and whose URL does not stop the run: what
    it pushes before the duplicate check is no duplicate issue, and it ends
    as the duplicate check does. *)
Lemma checkEntry_object (P : Platform) (strictMode : bool) (seen : SeenMap)
      (index : nat) (pack : JSON) :
  Js.notPlainObject (Some pack) = false ->
  entryUrlDecodes P pack = true ->
  let dup := checkDuplicate P seen (Js.trimmedOrEmpty (Js.prop pack "packId")) in
  exists before,
    Forall notDuplicate before
    /\ issued (checkEntry P strictMode seen index pack) = (before ++ issued dup)%list
    /\ result (checkEntry P strictMode seen index pack) = result dup.
Proof.
  intros Hobj Hurl dup. unfold checkEntry. rewrite Hobj.
  set (prefix := "catalog.packs[" ++ Str.ofNat index ++ "]").
  pose proof (returns_unit _ (checkEntryFields_returns prefix pack)) as Hf.
  pose proof (returns_unit _
                (checkManifestUrl_returns P strictMode prefix pack Hobj Hurl))
    as Hu.
  exists (issued (checkEntryFields prefix pack)
          ++ issued (checkManifestUrl P strictMode prefix
                       (Js.trimmedOrEmpty (Js.prop pack "packId"))
                       (Js.trimmedOrEmpty (Js.prop pack "latestVersion"))
                       (Js.trimmedOrEmpty (Js.prop pack "manifestUrl"))))%list.
  repeat split.
  - apply Forall_app. split.
    + apply checkEntryFields_notDuplicate.
    + apply checkManifestUrl_notDuplicate.
  - erewrite issued_bind by exact Hf.
    erewrite issued_bind by exact Hu.
    now rewrite app_assoc.
  - erewrite result_bind by exact Hf.
    erewrite result_bind by exact Hu.
    reflexivity.
Qed.

(** For a catalog with exactly two entries whose pack ids are [Pub.Slug]
    and [pub.slug], and whose URLs do not stop the run: [validateCatalog]
    returns a list with exactly one duplicate issue, an error that names
    [pub.slug] and [Pub.Slug]. *)
Lemma validateCatalog_duplicate_pair (P : Platform) (strictMode : bool)
      (fields e1 e2 : list (string * JSON)) :
  Js.assoc "packs" fields = Some (JArray [JObject e1; JObject e2]) ->
  Js.assoc "packId" e1 = Some (JString "Pub.Slug") ->
  Js.assoc "packId" e2 = Some (JString "pub.slug") ->
  entryUrlDecodes P (JObject e1) = true ->
  entryUrlDecodes P (JObject e2) = true ->
  exists issues,
    validateCatalog P (JObject fields) strictMode = Ok issues
    /\ filter isDuplicateIssue issues
       = [mkIssue error (duplicateMessage "pub.slug" "Pub.Slug")].
Proof.
  intros Hp H1 H2 U1 U2.
  rewrite (validateCatalog_outcome P fields _ strictMode Hp).
  simpl forallb. rewrite U1, U2. simpl andb.
  eexists. split; [reflexivity |].
  unfold validateCatalogRun.
  change (Js.notPlainObject (Some (JObject fields))) with false.
  simpl Js.prop. rewrite Hp. cbv beta iota.
  assert (Hs : returns (checkSchemaVersion (JObject fields)))
    by (unfold checkSchemaVersion; run_auto).
  assert (Hg : returns (checkGeneratedAt P (JObject fields)))
    by (unfold checkGeneratedAt; run_auto).
  assert (Ns : allIssues notDuplicate (checkSchemaVersion (JObject fields)))
    by (unfold checkSchemaVersion; run_auto; reflexivity).
  assert (Ng : allIssues notDuplicate (checkGeneratedAt P (JObject fields)))
    by (unfold checkGeneratedAt; run_auto; reflexivity).
  assert (Nc : allIssues notDuplicate
                 (checkSorted P strictMode [JObject e1; JObject e2]))
    by (unfold checkSorted; run_auto; reflexivity).
  erewrite issued_bind by (apply returns_unit; exact Hs).
  erewrite issued_bind by (apply returns_unit; exact Hg).
  (* the two turns of the loop *)
  destruct (checkEntry_object P strictMode [] 0 (JObject e1) eq_refl U1)
    as (b1 & N1 & I1 & R1).
  simpl Js.prop in I1, R1. rewrite H1 in I1, R1.
  change (Js.trimmedOrEmpty (Some (JString "Pub.Slug"))) with "Pub.Slug" in I1, R1.
  assert (L : forall id, Str.lowerAscii id = "pub.slug" -> Str.trim id = id ->
                         Str.all Str.isAscii id = true ->
                         normalizePackId P (Some (JString id)) = "pub.slug").
  { intros id Hl Ht Ha. unfold normalizePackId. simpl Js.asString. cbv iota.
    now rewrite Ht, (toLowerCase_ascii P id Ha). }
  replace (checkDuplicate P [] "Pub.Slug") with (@ret SeenMap [("pub.slug", "Pub.Slug")])
    in I1, R1
    by (unfold checkDuplicate; cbv zeta; rewrite (L "Pub.Slug") by reflexivity;
        reflexivity).
  simpl in I1, R1.
  destruct (checkEntry_object P strictMode [("pub.slug", "Pub.Slug")] 1 (JObject e2)
              eq_refl U2) as (b2 & N2 & I2 & R2).
  simpl Js.prop in I2, R2. rewrite H2 in I2, R2.
  change (Js.trimmedOrEmpty (Some (JString "pub.slug"))) with "pub.slug" in I2, R2.
  replace (checkDuplicate P [("pub.slug", "Pub.Slug")] "pub.slug")
    with (addIssue error (duplicateMessage "pub.slug" "Pub.Slug") ;;
          @ret SeenMap [("pub.slug", "Pub.Slug")]) in I2, R2
    by (unfold checkDuplicate; cbv zeta; rewrite (L "pub.slug") by reflexivity;
        reflexivity).
  simpl in I2, R2.
  assert (He : result (checkEntries P strictMode [] (Js.entries [JObject e1; JObject e2]))
               = Ok tt
               /\ issued (checkEntries P strictMode []
                            (Js.entries [JObject e1; JObject e2]))
                  = (b1 ++ b2 ++ [mkIssue error (duplicateMessage "pub.slug" "Pub.Slug")])%list).
  { unfold Js.entries. simpl combine. unfold checkEntries.
    split.
    - erewrite result_bind by exact R1. erewrite result_bind by exact R2. reflexivity.
    - erewrite issued_bind by exact R1. erewrite issued_bind by exact R2.
      rewrite I1, I2. simpl. rewrite !app_nil_r. reflexivity. }
  destruct He as (Re & Ie).
  erewrite issued_bind by exact Re.
  rewrite Ie.
  rewrite !filter_app.
  rewrite (filter_none _ _ Ns), (filter_none _ _ Ng), (filter_none _ _ N1),
    (filter_none _ _ N2), (filter_none _ _ Nc).
  reflexivity.
Qed.

Lemma validateCatalog_duplicate_pair_witness :
  exists issues,
    validateCatalog Sample.host (Sample.catalogTwoCases Sample.goodUrl) false = Ok issues
    /\ filter isDuplicateIssue issues
       = [mkIssue error (duplicateMessage "pub.slug" "Pub.Slug")].
Proof.
  unfold Sample.catalogTwoCases, Sample.catalogOf, Sample.entry.
  eapply validateCatalog_duplicate_pair;
    [reflexivity | reflexivity | reflexivity
    | vm_compute; reflexivity | vm_compute; reflexivity].
Defined.

(** C7, at a catalog whose two entries are [Pub.Slug] and [pub.slug], the
    first with a [manifestUrl] that has a malformed escape: [validateCatalog]
    throws in the first turn of the loop and reports no duplicate. *)
Theorem validateCatalog_duplicate_lost_on_malformed_escape
        (P : Platform) (strictMode : bool) :
  urlPathname P Sample.badEscapeUrl
    = Some "/packs/pub.slug/versions/1.0.0/100%/manifest.v1.json" ->
  validateCatalog P (Sample.catalogTwoCases Sample.badEscapeUrl) strictMode
    = Throw URIError.
Proof.
  intros H.
  unfold Sample.catalogTwoCases, Sample.catalogOf.
  erewrite validateCatalog_outcome by reflexivity.
  unfold forallb, entryUrlDecodes at 1.
  replace (Js.trimmedOrEmpty
             (Js.prop (Sample.entry "Pub.Slug" "pub" "slug" Sample.badEscapeUrl)
                "manifestUrl"))
    with Sample.badEscapeUrl by (vm_compute; reflexivity).
  cbv zeta. rewrite H. vm_compute. reflexivity.
Qed.

Lemma validateCatalog_duplicate_lost_on_malformed_escape_witness :
  validateCatalog Sample.host (Sample.catalogTwoCases Sample.badEscapeUrl) false
    = Throw URIError.
Proof.
  exact (validateCatalog_duplicate_lost_on_malformed_escape Sample.host false eq_refl).
Defined.

(* ------------------------------------------------------------------ *)
(** ** The manifest validator: every stage but the profile path returns *)

Lemma existsAsFile_spec (fs : FileSystem) (p : string) :
  result (Fs.existsAsFile fs p) = Ok (Fs.isFileNode (Fs.node fs p))
  /\ issued (Fs.existsAsFile fs p) = [].
Proof.
  unfold Fs.existsAsFile, Fs.existsSync, Fs.statSync, bind. simpl.
  destruct (Fs.node fs p) as [[| |] |]; simpl; auto.
Qed.

Lemma existsAsDirectory_spec (fs : FileSystem) (p : string) :
  result (Fs.existsAsDirectory fs p) = Ok (Fs.isDirNode (Fs.node fs p))
  /\ issued (Fs.existsAsDirectory fs p) = [].
Proof.
  unfold Fs.existsAsDirectory, Fs.existsSync, Fs.statSync, bind. simpl.
  destruct (Fs.node fs p) as [[| |] |]; simpl; auto.
Qed.

Lemma existsAsFile_levels (Q : Issue -> Prop) (fs : FileSystem) (p : string) :
  allIssues Q (Fs.existsAsFile fs p).
Proof. apply allIssues_silent, existsAsFile_spec. Qed.

Lemma existsAsDirectory_levels (Q : Issue -> Prop) (fs : FileSystem) (p : string) :
  allIssues Q (Fs.existsAsDirectory fs p).
Proof. apply allIssues_silent, existsAsDirectory_spec. Qed.

Lemma returns_existsAsFile (fs : FileSystem) (p : string) : returns (Fs.existsAsFile fs p).
Proof. eexists. apply existsAsFile_spec. Qed.

Lemma returns_readJson (fs : FileSystem) (p : string) : returns (readJson fs p).
Proof. eexists. reflexivity. Qed.

Lemma returns_existsSync (fs : FileSystem) (p : string) : returns (Fs.existsSync fs p).
Proof. eexists. reflexivity. Qed.

Lemma walk_directory_returns :
  forall (n : fsnode) (absDir relDir : string),
    match n with
    | Dir _ => returns (walk n absDir relDir)
    | _ => True
    end.
Proof.
  fix IH 1. intros [parsed digest | entries |] absDir relDir; trivial.
  simpl. apply returns_bind; [eexists; reflexivity |]. intros _.
  induction entries as [| [name c] rest IHrest].
  - apply returns_ret.
  - apply returns_bind.
    + pose proof (IH c (Path.join absDir name)
                    (if Str.isEmpty relDir then name else Path.join relDir name)) as Hc.
      destruct c as [parsed digest | es |];
        [apply returns_ret | exact Hc | apply returns_ret].
    + intros here. apply returns_bind; [exact IHrest | intros; apply returns_ret].
Qed.

Lemma walk_returns (n : fsnode) (absDir relDir : string) :
  Fs.isDirNode (Some n) = true -> returns (walk n absDir relDir).
Proof.
  intros H. pose proof (walk_directory_returns n absDir relDir) as W.
  destruct n; try discriminate H. exact W.
Qed.

Lemma listFilesRecursive_returns (P : Platform) (fs : FileSystem) (rootDir : string) :
  Fs.isDirNode (Fs.node fs rootDir) = true -> returns (listFilesRecursive P fs rootDir).
Proof.
  unfold listFilesRecursive. intros H.
  destruct (Fs.node fs rootDir) as [n |]; [| discriminate].
  apply returns_bind; [apply walk_returns; exact H | intros; apply returns_ret].
Qed.

Lemma validateCommandShape_returns (command : JSON) (prefix : string) :
  returns (validateCommandShape command prefix).
Proof. unfold validateCommandShape. run_auto. Qed.

Lemma profileEntries_returns (profilePath : string) (commands : list (nat * JSON))
      (sets : ProfileSets) :
  returns (profileEntries profilePath sets commands).
Proof.
  revert sets. induction commands as [| [index command] rest IH]; intros sets; simpl.
  - apply returns_ret.
  - apply returns_bind; [| intros; apply IH].
    unfold profileEntry.
    apply returns_bind; [apply validateCommandShape_returns |]. intros _.
    run_auto.
Qed.

Lemma validateProfile_returns (fs : FileSystem) (profilePath : string) :
  returns (validateProfile fs profilePath).
Proof.
  unfold validateProfile.
  apply returns_bind; [apply returns_readJson |].
  intros [[| | | | commands |] |]; run_auto.
  apply profileEntries_returns.
Qed.

Lemma checkRootShape_returns (manifest : JSON) (manifestPath : string) :
  returns (checkRootShape manifest manifestPath).
Proof. unfold checkRootShape. run_auto. Qed.

Lemma checkAsset_returns (manifestPath : string) (entry : nat * JSON) :
  returns (checkAsset manifestPath entry).
Proof. unfold checkAsset. destruct entry. run_auto. Qed.

Lemma checkGraph_returns (P : Platform) (manifestPath : string) (strictMode : bool)
      (entry : nat * JSON) :
  returns (checkGraph P manifestPath strictMode entry).
Proof. unfold checkGraph. destruct entry. run_auto. Qed.

Lemma addRef_returns (referencedFiles : list string) (ref : Js.value) (context : string) :
  returns (addRef referencedFiles ref context).
Proof. unfold addRef. run_auto. Qed.

Lemma addRefs_returns (refs : list Js.value) (referencedFiles : list string)
      (context : string) :
  returns (addRefs referencedFiles refs context).
Proof.
  revert referencedFiles. induction refs as [| ref rest IH]; intros; simpl.
  - apply returns_ret.
  - apply returns_bind; [apply addRef_returns | intros; apply IH].
Qed.

Lemma collectReferenced_returns (manifest : JSON) (assets graphs : list JSON) :
  returns (collectReferenced manifest assets graphs).
Proof.
  unfold collectReferenced.
  apply returns_bind; [apply addRef_returns |]. intros r1.
  apply returns_bind; [apply addRefs_returns |]. intros r2.
  apply addRefs_returns.
Qed.

(** A turn of the verification loop pushes nothing, or that the file is
    missing, or that its digest is another: never two issues. *)
Lemma verifyRef_outcome (P : Platform) (fs : FileSystem) (versionDir kind : string)
      (ref : Js.value) :
  result (verifyRef P fs versionDir kind ref) = Ok tt
  /\ (issued (verifyRef P fs versionDir kind ref) = []
      \/ (exists abs,
            issued (verifyRef P fs versionDir kind ref)
            = [mkIssue error ("Manifest references missing " ++ kind ++ " file: " ++ abs)])
      \/ (exists rel,
            issued (verifyRef P fs versionDir kind ref)
            = [mkIssue error ("SHA256 mismatch for " ++ kind ++ " file: " ++ rel)])).
Proof.
  unfold verifyRef.
  destruct (Js.truthy ref); simpl negb; cbv iota; [| auto].
  destruct (Js.asString (Js.propOpt ref "file")) as [file |]; [| auto].
  destruct (Js.asString (Js.propOpt ref "sha256")) as [sha256 |]; [| auto].
  destruct (Str.isEmpty (Str.trim file)); [auto |].
  set (abs := Path.join versionDir (Str.trim file)).
  destruct (existsAsFile_spec fs abs) as (R & I).
  erewrite result_bind by exact R. erewrite issued_bind by exact R. rewrite I.
  unfold sha256FileHex, Fs.isFileNode.
  destruct (Fs.node fs abs) as [[parsed digest | es |] |]; simpl;
    try (split; [reflexivity | right; left; eexists; reflexivity]).
  unfold bind. simpl.
  destruct (String.eqb (toLowerCase P digest) (toLowerCase P sha256)); simpl.
  - auto.
  - split; [reflexivity | right; right; eexists; reflexivity].
Qed.

Lemma verifyRef_returns (P : Platform) (fs : FileSystem) (versionDir kind : string)
      (ref : Js.value) :
  returns (verifyRef P fs versionDir kind ref).
Proof. exists tt. apply verifyRef_outcome. Qed.

Lemma verifyReferenced_returns (P : Platform) (fs : FileSystem) (versionDir : string)
      (manifest : JSON)
      (assets graphs : list JSON) :
  returns (verifyReferenced P fs versionDir manifest assets graphs).
Proof.
  unfold verifyReferenced.
  repeat (apply returns_bind; [apply returns_forEach; intros; apply verifyRef_returns |];
          intros).
  apply returns_forEach; intros; apply verifyRef_returns.
Qed.

Lemma linkGraph_returns (fs : FileSystem) (versionDir : string) (commandIds : list string)
      (graph : JSON) :
  returns (linkGraph fs versionDir commandIds graph).
Proof.
  unfold linkGraph.
  destruct (notObject (Some graph)); [apply returns_ret |].
  apply returns_bind; [run_auto |]. intros _.
  destruct (Js.asString (Js.prop graph "file")) as [file |]; [| apply returns_ret].
  apply returns_bind; [apply returns_existsAsFile |]. intros [|]; [| apply returns_ret].
  apply returns_bind; [apply returns_readJson |]. intros [v |]; run_auto.
Qed.

Lemma loadProfile_outcome (fs : FileSystem) (versionDir : string) (manifest : JSON) :
  if profileFileJoinable manifest
  then returns (loadProfile fs versionDir manifest)
  else result (loadProfile fs versionDir manifest) = Throw TypeError
       /\ issued (loadProfile fs versionDir manifest) = [].
Proof.
  unfold profileFileJoinable, loadProfile.
  destruct (Js.propOpt (Js.prop manifest "profile") "file") as [[| b | x | s | l | o] |];
    simpl; try (split; reflexivity); try (unfold bind; simpl; eexists; reflexivity).
  - destruct b; simpl; [split; reflexivity | unfold bind; simpl; eexists; reflexivity].
  - destruct x as [[] | [] | | [] m e]; simpl;
      try (split; reflexivity); unfold bind; simpl; eexists; reflexivity.
  - destruct s as [| c s]; simpl.
    + unfold bind; simpl; eexists; reflexivity.
    + apply returns_bind; [apply returns_ret |]. intros [p |]; [| apply returns_ret].
      apply returns_bind; [apply returns_existsSync |].
      intros [|]; [apply validateProfile_returns | apply returns_ret].
Qed.

Section ManifestStages.

Variable P : Platform.
Variable fs : FileSystem.
Variables versionDir manifestPath : string.
Variable strictMode : bool.
Variable manifest : JSON.
Hypothesis loads : manifestLoads fs manifestPath manifest.

Let assets := arrayOrEmpty (Js.prop manifest "assets").
Let graphs := arrayOrEmpty (Js.prop manifest "graphs").

(** The run after the verification loop. *)
Let rest (referencedFiles : list string) : W (option JSON) :=
  commandIds <- loadProfile fs versionDir manifest ;;
  forEach graphs (linkGraph fs versionDir commandIds) ;;
  detectExtras P fs versionDir strictMode referencedFiles ;;
  ret (Some manifest).

Lemma validateManifestFile_through_verification :
  exists referencedFiles,
    result (collectReferenced manifest assets graphs) = Ok referencedFiles
    /\ result (validateManifestFile P fs versionDir manifestPath strictMode)
       = result (rest referencedFiles)
    /\ issued (validateManifestFile P fs versionDir manifestPath strictMode)
       = (issuedThroughVerification P fs versionDir manifestPath strictMode manifest
          ++ issued (rest referencedFiles))%list.
Proof.
  destruct loads as (Hread & Hobj).
  destruct (collectReferenced_returns manifest assets graphs) as [referencedFiles Hc].
  exists referencedFiles. split; [exact Hc |].
  pose proof (returns_unit _ (checkRootShape_returns manifest manifestPath)) as H1.
  pose proof (returns_unit _
                (returns_forEach (Js.entries assets) (checkAsset manifestPath)
                   (checkAsset_returns manifestPath))) as H2.
  pose proof (returns_unit _
                (returns_forEach (Js.entries graphs) (checkGraph P manifestPath strictMode)
                   (checkGraph_returns P manifestPath strictMode))) as H3.
  pose proof (returns_unit _
                (verifyReferenced_returns P fs versionDir manifest assets graphs)) as H5.
  unfold validateManifestFile, issuedThroughVerification.
  fold assets graphs.
  split.
  - erewrite result_bind by exact Hread. cbv beta iota. rewrite Hobj.
    erewrite result_bind by exact H1.
    erewrite result_bind by exact H2.
    erewrite result_bind by exact H3.
    erewrite result_bind by exact Hc.
    erewrite result_bind by exact H5.
    reflexivity.
  - erewrite issued_bind by exact Hread. cbv beta iota. rewrite Hobj.
    erewrite issued_bind by exact H1.
    erewrite issued_bind by exact H2.
    erewrite issued_bind by exact H3.
    erewrite issued_bind by exact Hc.
    erewrite issued_bind by exact H5.
    simpl. rewrite <- !app_assoc. reflexivity.
Qed.

(** With a [profile.file] that [path.join] refuses, the run stops there:
    after the verification loop, before the graphs are linked and the
    directory is scanned. *)
Lemma validateManifestFile_type_error :
  profileFileJoinable manifest = false ->
  result (validateManifestFile P fs versionDir manifestPath strictMode) = Throw TypeError
  /\ issued (validateManifestFile P fs versionDir manifestPath strictMode)
     = issuedThroughVerification P fs versionDir manifestPath strictMode manifest.
Proof.
  intros Hj.
  destruct validateManifestFile_through_verification as (refs & _ & Hr & Hi).
  pose proof (loadProfile_outcome fs versionDir manifest) as Hl.
  rewrite Hj in Hl. destruct Hl as (Hlr & Hli).
  rewrite Hr, Hi. unfold rest.
  destruct (bind_throw (loadProfile fs versionDir manifest)
              (fun commandIds =>
                 forEach graphs (linkGraph fs versionDir commandIds) ;;
                 detectExtras P fs versionDir strictMode refs ;;
                 ret (Some manifest)) _ Hlr) as (E1 & E2 & _).
  rewrite E1, E2, Hli, app_nil_r. auto.
Qed.

(** With a [profile.file] that [path.join] takes and a version
    directory that can be listed, the run returns the manifest, and the
    last thing it pushes is what the scan for unreferenced files pushes. *)
Lemma validateManifestFile_complete :
  profileFileJoinable manifest = true ->
  Fs.isDirNode (Fs.node fs versionDir) = true ->
  exists referencedFiles before,
    result (collectReferenced manifest assets graphs) = Ok referencedFiles
    /\ result (validateManifestFile P fs versionDir manifestPath strictMode)
       = Ok (Some manifest)
    /\ issued (validateManifestFile P fs versionDir manifestPath strictMode)
       = (before ++ issued (detectExtras P fs versionDir strictMode referencedFiles))%list.
Proof.
  intros Hj Hd.
  destruct validateManifestFile_through_verification as (refs & Hc & Hr & Hi).
  pose proof (loadProfile_outcome fs versionDir manifest) as Hl.
  rewrite Hj in Hl. destruct Hl as (commandIds & Hl).
  pose proof (returns_unit _
                (returns_forEach graphs (linkGraph fs versionDir commandIds)
                   (linkGraph_returns fs versionDir commandIds))) as Hg.
  assert (He : result (detectExtras P fs versionDir strictMode refs) = Ok tt).
  { apply returns_unit. unfold detectExtras.
    apply returns_bind; [apply listFilesRecursive_returns; exact Hd |].
    intros. run_auto. }
  exists refs.
  exists (issuedThroughVerification P fs versionDir manifestPath strictMode manifest
          ++ issued (loadProfile fs versionDir manifest)
          ++ issued (forEach graphs (linkGraph fs versionDir commandIds)))%list.
  split; [exact Hc |].
  rewrite Hr, Hi. unfold rest. split.
  - erewrite result_bind by exact Hl.
    erewrite result_bind by exact Hg.
    erewrite result_bind by exact He.
    reflexivity.
  - erewrite issued_bind by exact Hl.
    erewrite issued_bind by exact Hg.
    erewrite issued_bind by exact He.
    simpl. rewrite app_nil_r, <- !app_assoc. reflexivity.
Qed.

End ManifestStages.

(* ------------------------------------------------------------------ *)
(** ** References: safety, existence and digest *)

Lemma flat_map_map {A B C : Type} (f : B -> list C) (g : A -> B) (l : list A) :
  flat_map f (map g l) = flat_map (fun x => f (g x)) l.
Proof. induction l as [| x l IH]; simpl; auto. now rewrite IH. Qed.

(** The verification loop pushes, reference by reference, what each turn
    pushes. *)
Lemma issued_verifyReferenced (P : Platform) (fs : FileSystem) (versionDir : string)
      (manifest : JSON) :
  issued (verifyReferenced P fs versionDir manifest
            (arrayOrEmpty (Js.prop manifest "assets"))
            (arrayOrEmpty (Js.prop manifest "graphs")))
  = flat_map (fun r => issued (verifyRef P fs versionDir (fst r) (snd r)))
             (references manifest).
Proof.
  unfold verifyReferenced, references.
  set (assets := arrayOrEmpty (Js.prop manifest "assets")).
  set (graphs := arrayOrEmpty (Js.prop manifest "graphs")).
  assert (R : forall kind xs,
             result (forEach xs (verifyRef P fs versionDir kind)) = Ok tt).
  { intros. apply returns_unit, returns_forEach. intros. apply verifyRef_returns. }
  erewrite issued_bind by apply R.
  erewrite issued_bind by apply R.
  rewrite !issued_forEach by (intros; apply verifyRef_returns).
  simpl flat_map at 1. rewrite app_nil_r.
  change (("profile", Js.prop manifest "profile")
          :: map (fun asset => ("asset", Some asset)) assets
          ++ map (fun graph => ("graph", Some graph)) graphs)%list
    with ([("profile", Js.prop manifest "profile")]
          ++ map (fun asset => ("asset", Some asset)) assets
          ++ map (fun graph => ("graph", Some graph)) graphs)%list.
  rewrite !flat_map_app, !flat_map_map. simpl. rewrite app_nil_r. reflexivity.
Qed.


(** The values the specification lists for [isSafeRelativePath]. *)
Example isSafeRelativePath_listed :
  isSafeRelativePath (jstr "../x") = false
  /\ isSafeRelativePath (jstr "a/../../b") = false
  /\ isSafeRelativePath (jstr "a/b.json") = true.
Proof. repeat split; vm_compute; reflexivity. Qed.

(** A reference with an unsafe path: [addRef] pushes the unsafe-path error
    and leaves the set of referenced files as it was. *)
Lemma addRef_unsafe (referencedFiles : list string) (ref : Js.value)
      (context file : string) :
  Js.propOpt ref "file" = Some (JString file) ->
  Str.isEmpty (Str.trim file) = false ->
  isSafeRelativePath (jstr (Str.trim file)) = false ->
  result (addRef referencedFiles ref context) = Ok referencedFiles
  /\ issued (addRef referencedFiles ref context) = [unsafeIssue context (Str.trim file)].
Proof.
  intros Hfile Hrel Hunsafe. unfold addRef.
  assert (Ht : Js.truthy ref = true).
  { destruct ref as [[| | | | |] |]; try discriminate Hfile; reflexivity. }
  rewrite Ht, Hfile. simpl negb. simpl Js.asString. cbv iota.
  rewrite Hrel. unfold jstr in Hunsafe. rewrite Hunsafe. split; reflexivity.
Qed.

Lemma addRef_keeps_safe (referencedFiles : list string) (ref : Js.value) (context : string) :
  Forall safePath referencedFiles ->
  forall out, result (addRef referencedFiles ref context) = Ok out -> Forall safePath out.
Proof.
  intros Hsafe out. unfold addRef.
  destruct (Js.truthy ref); simpl negb; cbv iota;
    [| intros H; injection H as <-; exact Hsafe].
  destruct (Js.asString (Js.propOpt ref "file")) as [file |];
    [| intros H; injection H as <-; exact Hsafe].
  destruct (Str.isEmpty (Str.trim file));
    [intros H; injection H as <-; exact Hsafe |].
  destruct (isSafeRelativePath (Some (JString (Str.trim file)))) eqn:E; simpl.
  - intros H; injection H as <-. constructor; assumption.
  - intros H; injection H as <-. exact Hsafe.
Qed.

Lemma addRefs_keeps_safe (refs : list Js.value) (context : string)
      (referencedFiles : list string) :
  Forall safePath referencedFiles ->
  forall out, result (addRefs referencedFiles refs context) = Ok out -> Forall safePath out.
Proof.
  revert referencedFiles. induction refs as [| ref rest IH]; intros r Hsafe out; simpl.
  - intros H; injection H as <-; exact Hsafe.
  - destruct (addRef_returns r ref context) as [r' Hr'].
    erewrite result_bind by exact Hr'.
    apply IH. eapply addRef_keeps_safe; eassumption.
Qed.

(** Every path in the set of referenced files passed [isSafeRelativePath]. *)
Lemma collectReferenced_safe (manifest : JSON) (assets graphs : list JSON)
      (referencedFiles : list string) :
  result (collectReferenced manifest assets graphs) = Ok referencedFiles ->
  Forall safePath referencedFiles.
Proof.
  unfold collectReferenced.
  destruct (addRef_returns [] (Js.prop manifest "profile") "profile") as [r1 H1].
  erewrite result_bind by exact H1.
  destruct (addRefs_returns (map Some assets) r1 "asset") as [r2 H2].
  erewrite result_bind by exact H2.
  apply addRefs_keeps_safe.
  eapply addRefs_keeps_safe; [| exact H2].
  eapply addRef_keeps_safe; [constructor | exact H1].
Qed.

(** The verification loop does not ask whether a path is safe: a
    reference that names a regular file, at whatever place [path.join] makes
    of the version directory and the path, has that file hashed. *)
Lemma verifyRef_hashes_any_path (P : Platform) (fs : FileSystem) (versionDir kind : string)
      (ref : Js.value) (file sha256 digest : string) (parsed : option JSON) :
  Js.propOpt ref "file" = Some (JString file) ->
  Js.propOpt ref "sha256" = Some (JString sha256) ->
  Str.isEmpty (Str.trim file) = false ->
  Fs.node fs (Path.join versionDir (Str.trim file)) = Some (File parsed digest) ->
  In (Sha256File (Path.join versionDir (Str.trim file)))
     (calls (verifyRef P fs versionDir kind ref)).
Proof.
  intros Hfile Hsha Hrel Hnode. unfold verifyRef.
  assert (Ht : Js.truthy ref = true).
  { destruct ref as [[| | | | |] |]; try discriminate Hfile; reflexivity. }
  rewrite Ht, Hfile, Hsha. simpl negb. simpl Js.asString. cbv iota. rewrite Hrel.
  destruct (existsAsFile_spec fs (Path.join versionDir (Str.trim file))) as (R & _).
  rewrite Hnode in R. simpl in R.
  erewrite calls_bind by exact R. simpl negb. cbv iota.
  apply in_or_app. right.
  unfold sha256FileHex, bind. simpl. rewrite Hnode. simpl. left. reflexivity.
Qed.

(** C1, at a manifest whose profile is [../secret.json]: the path is
    reported unsafe and kept out of the referenced files, and all the same
    the verification loop stats and hashes [packs/pub.slug/versions/secret.json],
    a file outside the version directory, and the profile stage reads it. *)
Theorem unsafe_reference_is_hashed (strictMode : bool) :
  let run := validateManifestFile Sample.host Sample.repoEscaping
               Sample.versionDir Sample.manifestPath strictMode in
  let outside := "packs/pub.slug/versions/secret.json" in
  isSafeRelativePath (jstr "../secret.json") = false
  /\ In (unsafeIssue "profile" "../secret.json") (issued run)
  /\ result (collectReferenced
               (Sample.manifestOf "1.0.0" (Sample.fileRef "../secret.json" Sample.digestA) [])
               [] []) = Ok []
  /\ Path.join Sample.versionDir "../secret.json" = outside
  /\ Str.startsWith outside (Sample.versionDir ++ "/") = false
  /\ In (StatSync outside) (calls run)
  /\ In (Sha256File outside) (calls run)
  /\ In (ReadFileSync outside) (calls run)
  /\ In (mismatchIssue "profile" "../secret.json") (issued run).
Proof.
  destruct strictMode; vm_compute; intuition.
Qed.

(* ------------------------------------------------------------------ *)
(** ** Files the manifest does not reference *)


Lemma forall_false_nil {A : Type} (l : list A) : Forall (fun _ => False) l -> l = [].
Proof. destruct 1; [reflexivity | contradiction]. Qed.

Lemma walk_silent :
  forall (n : fsnode) (absDir relDir : string),
    allIssues (fun _ => False) (walk n absDir relDir).
Proof.
  fix IH 1. intros [parsed digest | entries |] absDir relDir;
    try (constructor; fail).
  simpl. apply allIssues_bind; [constructor |]. intros _.
  induction entries as [| [name c] rest IHrest].
  - apply allIssues_ret.
  - apply allIssues_bind.
    + pose proof (IH c (Path.join absDir name)
                    (if Str.isEmpty relDir then name else Path.join relDir name)) as Hc.
      destruct c as [parsed digest | es |];
        [apply allIssues_ret | exact Hc | apply allIssues_ret].
    + intros here. apply allIssues_bind; [exact IHrest | intros; apply allIssues_ret].
Qed.

(** Listing a directory pushes no issue. *)
Lemma listFilesRecursive_silent (P : Platform) (fs : FileSystem) (rootDir : string) :
  issued (listFilesRecursive P fs rootDir) = [].
Proof.
  apply forall_false_nil. unfold listFilesRecursive.
  destruct (Fs.node fs rootDir) as [n |]; [| constructor].
  apply allIssues_bind; [apply walk_silent | intros; apply allIssues_ret].
Qed.




(** C8, at a manifest whose [profile.file] is the number 5, in a version
    directory that holds [notes.txt]: no file is referenced, the directory
    lists [notes.txt], and the run throws [TypeError] at [path.join] before
    the scan; the only issue pushed is the one on [profile.file]. *)
Theorem unreferenced_files_lost_on_type_error (strictMode : bool) :
  let run := validateManifestFile Sample.host Sample.repoNumberFile
               Sample.versionDir Sample.manifestPath strictMode in
  manifestLoads Sample.repoNumberFile Sample.manifestPath Sample.manifestNumberFile
  /\ result (collectReferenced Sample.manifestNumberFile [] []) = Ok []
  /\ result (listFilesRecursive Sample.host Sample.repoNumberFile Sample.versionDir)
     = Ok ["manifest.v1.json"; "notes.txt"]
  /\ result run = Throw TypeError
  /\ issued run
     = [mkIssue error
          "manifest.profile.file is required: packs/pub.slug/versions/1.0.0/manifest.v1.json"].
Proof.
  destruct strictMode; repeat split; vm_compute; reflexivity.
Qed.

(* ------------------------------------------------------------------ *)
(** ** Command ids of a profile *)

Lemma has_cons (set : list string) (x y : string) :
  Arr.has set x = true -> Arr.has (y :: set) x = true.
Proof. unfold Arr.has. simpl. intros ->. apply Bool.orb_true_r. Qed.

Lemma has_head (set : list string) (x : string) : Arr.has (x :: set) x = true.
Proof. unfold Arr.has. simpl. now rewrite String.eqb_refl. Qed.

(** A turn of the profile loop returns, and the two sets only grow. *)
Lemma profileEntry_grows (profilePath : string) (sets : ProfileSets) (index : nat)
      (command : JSON) :
  exists sets',
    result (profileEntry profilePath sets index command) = Ok sets'
    /\ (forall x, Arr.has (seenIds sets) x = true -> Arr.has (seenIds sets') x = true)
    /\ (forall x, Arr.has (commandIds sets) x = true -> Arr.has (commandIds sets') x = true).
Proof.
  unfold profileEntry.
  pose proof (returns_unit _ (validateCommandShape_returns command
                (Path.basename profilePath ++ "[" ++ Str.ofNat index ++ "]"))) as Hs.
  erewrite result_bind by exact Hs.
  destruct command as [| | | | | fields]; try solve [exists sets; simpl; auto].
  destruct (Js.asString (Js.prop (JObject fields) "id")) as [id |];
    [| exists sets; simpl; auto].
  destruct (Arr.has (seenIds sets) id) eqn:Hseen; unfold bind; simpl;
    eexists; (split; [reflexivity |]); simpl; split; intros x Hx;
    try destruct (isUuid _); auto using has_cons;
    try (rewrite Hx; apply Bool.orb_true_r).
Qed.

(** A turn on a command object with the string id [id]: afterwards [id] is
    seen, and is a command id when it is a UUID; when [id] was seen before,
    the turn pushes the duplicate error. *)
Lemma profileEntry_with_id (profilePath : string) (sets : ProfileSets) (index : nat)
      (fields : list (string * JSON)) (id : string) :
  Js.assoc "id" fields = Some (JString id) ->
  exists sets',
    result (profileEntry profilePath sets index (JObject fields)) = Ok sets'
    /\ Arr.has (seenIds sets') id = true
    /\ (isUuid (jstr id) = true -> Arr.has (commandIds sets') id = true)
    /\ (Arr.has (seenIds sets) id = true ->
        In (duplicateIdIssue id)
           (issued (profileEntry profilePath sets index (JObject fields)))).
Proof.
  intros Hid. unfold profileEntry.
  set (shape := validateCommandShape (JObject fields)
                  (Path.basename profilePath ++ "[" ++ Str.ofNat index ++ "]")).
  pose proof (returns_unit _ (validateCommandShape_returns (JObject fields)
                (Path.basename profilePath ++ "[" ++ Str.ofNat index ++ "]"))) as Hs.
  fold shape in Hs.
  erewrite result_bind by exact Hs. erewrite issued_bind by exact Hs.
  simpl Js.prop. rewrite Hid. simpl Js.asString. cbv iota. unfold jstr.
  destruct (Arr.has (seenIds sets) id) eqn:Hseen; unfold bind; simpl;
    eexists; (split; [reflexivity |]); simpl; repeat split; auto.
  - intros ->. apply has_head.
  - intros _. apply in_or_app. right. left. reflexivity.
  - apply has_head.
  - intros ->. apply has_head.
  - discriminate.
Qed.

Lemma profileEntries_cons (profilePath : string) (sets : ProfileSets) (index : nat)
      (command : JSON) (rest : list (nat * JSON)) :
  profileEntries profilePath sets ((index, command) :: rest)
  = (sets' <- profileEntry profilePath sets index command ;;
     profileEntries profilePath sets' rest).
Proof. reflexivity. Qed.

Lemma profileEntries_app (profilePath : string) (l1 l2 : list (nat * JSON))
      (sets : ProfileSets) :
  exists mid,
    result (profileEntries profilePath sets l1) = Ok mid
    /\ result (profileEntries profilePath sets (l1 ++ l2))
       = result (profileEntries profilePath mid l2)
    /\ issued (profileEntries profilePath sets (l1 ++ l2))
       = (issued (profileEntries profilePath sets l1)
          ++ issued (profileEntries profilePath mid l2))%list.
Proof.
  revert sets. induction l1 as [| [index command] rest IH]; intros sets.
  - exists sets. repeat split.
  - destruct (profileEntry_grows profilePath sets index command) as (s1 & H1 & _).
    destruct (IH s1) as (mid & Hm & Hr & Hi).
    exists mid. simpl.
    erewrite !result_bind by exact H1. erewrite !issued_bind by exact H1.
    rewrite Hi, app_assoc. auto.
Qed.

Lemma profileEntries_grow (profilePath : string) (l : list (nat * JSON))
      (sets : ProfileSets) :
  exists sets',
    result (profileEntries profilePath sets l) = Ok sets'
    /\ (forall x, Arr.has (seenIds sets) x = true -> Arr.has (seenIds sets') x = true)
    /\ (forall x, Arr.has (commandIds sets) x = true -> Arr.has (commandIds sets') x = true).
Proof.
  revert sets. induction l as [| [index command] rest IH]; intros sets.
  - exists sets. simpl. auto.
  - destruct (profileEntry_grows profilePath sets index command) as (s1 & H1 & S1 & C1).
    destruct (IH s1) as (s2 & H2 & S2 & C2).
    exists s2. simpl. erewrite result_bind by exact H1. auto.
Qed.

Lemma entries_split {A : Type} (l : list A) (i : nat) (x : A) :
  nth_error l i = Some x ->
  forall start,
    combine (seq start (List.length l)) l
    = (combine (seq start i) (firstn i l)
       ++ (start + i, x)
          :: combine (seq (S (start + i)) (List.length (skipn (S i) l)))
               (skipn (S i) l))%list.
Proof.
  revert i. induction l as [| y l IH]; intros i H start.
  - destruct i; discriminate.
  - destruct i as [| i]; simpl in H.
    + injection H as ->. simpl. rewrite Nat.add_0_r. reflexivity.
    + simpl. rewrite (IH i H (S start)), Nat.add_succ_r. reflexivity.
Qed.

Lemma nth_error_skipn {A : Type} (l : list A) (i j : nat) (x : A) :
  i < j -> nth_error l j = Some x -> nth_error (skipn (S i) l) (j - S i) = Some x.
Proof.
  intros Hlt H. rewrite nth_error_skipn.
  replace (S i + (j - S i)) with j by lia. exact H.
Qed.

(** A graph whose command id is in the set gets no not-found error. *)
Lemma linkGraph_found (fs : FileSystem) (versionDir : string) (commandIds : list string)
      (graph : JSON) (id : string) :
  Js.prop graph "commandId" = Some (JString id) ->
  Arr.has commandIds id = true ->
  ~ In (notFoundIssue id) (issued (linkGraph fs versionDir commandIds graph)).
Proof.
  intros Hid Hhas. unfold linkGraph.
  destruct (notObject (Some graph)); [simpl; tauto |].
  rewrite Hid. simpl Js.asString. cbv iota. rewrite Hhas, Bool.andb_false_r.
  simpl when.
  destruct (Js.asString (Js.prop graph "file")) as [file |]; [| simpl; tauto].
  set (abs := Path.join versionDir file).
  destruct (existsAsFile_spec fs abs) as (R & I).
  unfold bind at 1. simpl result. cbv iota. simpl issued. simpl app.
  erewrite issued_bind by exact R. rewrite I. simpl app.
  destruct (Fs.isFileNode (Fs.node fs abs)); [| simpl; tauto].
  unfold readJson, bind. simpl.
  destruct (match Fs.node fs abs with Some (File parsed _) => parsed | _ => None end)
    as [v |]; simpl.
  - destruct (Js.notPlainObject (Some v)); simpl; [| tauto].
    intros [H | []]. discriminate H.
  - intros [H | []]. discriminate H.
Qed.

(** A profile with two command objects of the same UUID id:
    [validateProfile] pushes the duplicate-id error and returns a set that
    holds the id, so the linking turn of a graph with that command id pushes
    no not-found error. *)
Lemma validateProfile_duplicate_kept
        (fs : FileSystem) (profilePath : string) (commands : list JSON)
        (i j : nat) (first second : list (string * JSON)) (id : string) :
  result (readJson fs profilePath) = Ok (Some (JArray commands)) ->
  i < j ->
  nth_error commands i = Some (JObject first) ->
  nth_error commands j = Some (JObject second) ->
  Js.assoc "id" first = Some (JString id) ->
  Js.assoc "id" second = Some (JString id) ->
  isUuid (jstr id) = true ->
  exists commandIds,
    result (validateProfile fs profilePath) = Ok commandIds
    /\ In (duplicateIdIssue id) (issued (validateProfile fs profilePath))
    /\ Arr.has commandIds id = true
    /\ forall versionDir graph,
         Js.prop graph "commandId" = Some (JString id) ->
         ~ In (notFoundIssue id) (issued (linkGraph fs versionDir commandIds graph)).
Proof.
  intros Hread Hlt Hi Hj Hid1 Hid2 Huuid.
  (* the entries, cut at [i] and at [j] *)
  pose proof (entries_split commands i _ Hi 0) as E1. rewrite Nat.add_0_l in E1.
  pose proof (nth_error_skipn commands i j _ Hlt Hj) as Hj'.
  set (tail := skipn (S i) commands) in *.
  pose proof (entries_split tail (j - S i) _ Hj' (S i)) as E2.
  set (l1 := combine (seq 0 i) (firstn i commands)) in *.
  set (l2 := combine (seq (S i) (j - S i)) (firstn (j - S i) tail)) in *.
  set (l3 := combine (seq (S (S i + (j - S i)))
                        (List.length (skipn (S (j - S i)) tail)))
               (skipn (S (j - S i)) tail)) in *.
  assert (E : Js.entries commands
              = (l1 ++ (i, JObject first) :: l2
                 ++ (S i + (j - S i), JObject second) :: l3)%list).
  { unfold Js.entries. rewrite E1, E2. reflexivity. }
  (* the loop, part by part *)
  destruct (profileEntries_app profilePath l1
              ((i, JObject first) :: l2 ++ (S i + (j - S i), JObject second) :: l3)
              noCommands) as (s1 & _ & R1 & I1).
  destruct (profileEntry_with_id profilePath s1 i first id Hid1)
    as (s2 & R2 & Seen2 & Ids2 & _).
  destruct (profileEntries_app profilePath l2
              ((S i + (j - S i), JObject second) :: l3) s2) as (s3 & R3 & R3' & I3).
  destruct (profileEntries_grow profilePath l2 s2) as (s3' & R3'' & Seen3 & Ids3).
  rewrite R3 in R3''. injection R3'' as <-.
  destruct (profileEntry_with_id profilePath s3 (S i + (j - S i)) second id Hid2)
    as (s4 & R4 & _ & _ & Dup4).
  destruct (profileEntry_grows profilePath s3 (S i + (j - S i)) (JObject second))
    as (s4' & R4' & _ & Ids4).
  rewrite R4 in R4'. injection R4' as <-.
  destruct (profileEntries_grow profilePath l3 s4) as (s5 & R5 & _ & Ids5).
  assert (Hloop : result (profileEntries profilePath noCommands (Js.entries commands))
                  = Ok s5
                  /\ In (duplicateIdIssue id)
                        (issued (profileEntries profilePath noCommands
                                   (Js.entries commands)))).
  { rewrite E, R1, I1.
    rewrite profileEntries_cons.
    erewrite result_bind by exact R2. erewrite issued_bind by exact R2.
    rewrite R3', I3.
    rewrite profileEntries_cons.
    erewrite result_bind by exact R4. erewrite issued_bind by exact R4.
    split; [exact R5 |].
    apply in_or_app. right. apply in_or_app. right. apply in_or_app. right.
    apply in_or_app. left. apply Dup4, Seen3, Seen2. }
  destruct Hloop as (Rl & Il).
  exists (commandIds s5).
  unfold validateProfile.
  erewrite result_bind by exact Hread. erewrite issued_bind by exact Hread.
  cbv beta iota.
  erewrite result_bind by exact Rl. erewrite issued_bind by exact Rl.
  assert (Hhas : Arr.has (commandIds s5) id = true)
    by (apply Ids5, Ids4, Ids3, Ids2, Huuid).
  repeat split.
  - simpl. apply in_or_app. left. exact Il.
  - exact Hhas.
  - intros versionDir graph Hg. apply linkGraph_found; assumption.
Qed.

(** The set [validateManifestFile] links the graphs against is the one
    [validateProfile] returns for the profile file, when that file exists. *)
Lemma loadProfile_runs_validateProfile (fs : FileSystem) (versionDir : string)
      (manifest : JSON) (file : string) :
  Js.propOpt (Js.prop manifest "profile") "file" = Some (JString file) ->
  Str.isEmpty file = false ->
  Fs.node fs (Path.join versionDir file) <> None ->
  result (loadProfile fs versionDir manifest)
  = result (validateProfile fs (Path.join versionDir file))
  /\ issued (loadProfile fs versionDir manifest)
     = issued (validateProfile fs (Path.join versionDir file)).
Proof.
  intros Hfile Hne Hnode. unfold loadProfile. rewrite Hfile.
  simpl Js.truthy. rewrite Hne. simpl negb. simpl Js.asString. cbv iota.
  assert (Re : result (Fs.existsSync fs (Path.join versionDir file)) = Ok true).
  { unfold Fs.existsSync. simpl.
    destruct (Fs.node fs (Path.join versionDir file)); [reflexivity | contradiction]. }
  split.
  - erewrite result_bind by reflexivity. cbv beta iota.
    erewrite result_bind by exact Re. reflexivity.
  - erewrite issued_bind by reflexivity. cbv beta iota.
    erewrite issued_bind by exact Re. reflexivity.
Qed.

(** The whole run on a version with a duplicated command id and a graph
    for it: the duplicate error and nothing else. *)
Example duplicate_id_whole_run :
  issued (validateManifestFile Sample.host Sample.repoDuplicate Sample.versionDir
            Sample.manifestPath false)
  = [duplicateIdIssue Sample.uuid1].
Proof. vm_compute. reflexivity. Qed.

(* ------------------------------------------------------------------ *)
(** ** Where an issue of a manifest run comes from *)






(** [b] followed by a bracket starts with no bracket-free [t] that [b]
    does not start with. *)
Lemma startsWith_bracket (t b rest : string) :
  Str.all (fun c => negb (Ascii.eqb c "["%char)) t = true ->
  Str.startsWith b t = false ->
  Str.startsWith (b ++ String "["%char rest) t = false.
Proof.
  unfold Str.startsWith, Str.all.
  revert b. induction t as [| c t IH]; intros b Hall Hb.
  - destruct b; discriminate Hb.
  - simpl in Hall. apply andb_true_iff in Hall as [Hc Hall].
    destruct b as [| x b]; simpl.
    + destruct (Ascii.ascii_dec c "["%char) as [-> | _]; [discriminate Hc | reflexivity].
    + simpl in Hb. destruct (Ascii.ascii_dec c x); [apply IH; assumption | reflexivity].
Qed.

Lemma append_assoc (a b c : string) : ((a ++ b) ++ c = a ++ (b ++ c))%string.
Proof. induction a as [| x a IH]; simpl; [reflexivity | now rewrite IH]. Qed.

Lemma wording_no_bracket (t : string) :
  In t errorWordings -> Str.all (fun c => negb (Ascii.eqb c "["%char)) t = true.
Proof. intros [<- | [<- | [<- | []]]]; reflexivity. Qed.

Ltac wording H := destruct H as [<- | [<- | [<- | []]]].

Ltac apart := run_auto; try reflexivity.

(** The errors on the shape of a command start with the name they are
    given. *)
Lemma validateCommandShape_apart (t : string) (command : JSON) (b n : string) :
  In t errorWordings ->
  Str.startsWith b t = false ->
  allIssues (fun i => worded t i = false)
    (validateCommandShape command (b ++ "[" ++ n ++ "]")).
Proof.
  intros Ht Hb.
  assert (H : forall lvl suffix,
             worded t (mkIssue lvl ((b ++ "[" ++ n ++ "]") ++ suffix)) = false).
  { intros lvl suffix. unfold worded. simpl message. rewrite append_assoc.
    apply startsWith_bracket; [apply wording_no_bracket, Ht | exact Hb]. }
  unfold validateCommandShape. run_auto; apply H.
Qed.

Lemma profileEntries_apart (t : string) (profilePath : string)
      (commands : list (nat * JSON)) (sets : ProfileSets) :
  In t errorWordings ->
  Str.startsWith (Path.basename profilePath) t = false ->
  allIssues (fun i => worded t i = false) (profileEntries profilePath sets commands).
Proof.
  intros Ht Hb. revert sets.
  induction commands as [| [index command] rest IH]; intros sets; simpl.
  - constructor.
  - apply allIssues_bind; [| intros; apply IH].
    unfold profileEntry. apply allIssues_bind.
    + apply validateCommandShape_apart; assumption.
    + intros _. wording Ht; apart.
Qed.

Lemma validateProfile_apart (t : string) (fs : FileSystem) (profilePath : string) :
  In t errorWordings ->
  Str.startsWith (Path.basename profilePath) t = false ->
  allIssues (fun i => worded t i = false) (validateProfile fs profilePath).
Proof.
  intros Ht Hb. unfold validateProfile. apply allIssues_bind; [constructor |].
  intros [[| | | | commands |] |];
    try (wording Ht; apart; fail).
  apply allIssues_bind; [apply profileEntries_apart; assumption | intros; constructor].
Qed.

Lemma loadProfile_apart (t : string) (fs : FileSystem) (versionDir : string)
      (manifest : JSON) :
  In t errorWordings ->
  profileNamedApart versionDir manifest = true ->
  allIssues (fun i => worded t i = false) (loadProfile fs versionDir manifest).
Proof.
  intros Ht Hp. unfold loadProfile. unfold profileNamedApart in Hp.
  apply allIssues_bind_ok.
  - destruct (Js.truthy _); [destruct (Js.asString _) |]; constructor.
  - intros [p |] Hres; [| constructor].
    apply allIssues_bind; [constructor |]. intros [|]; [| constructor].
    destruct (Js.truthy _); [| discriminate Hres].
    destruct (Js.asString _) as [file |]; [| discriminate Hres].
    injection Hres as <-.
    apply validateProfile_apart; [exact Ht |].
    rewrite forallb_forall in Hp. apply negb_true_iff, Hp, Ht.
Qed.

(** The stages before the verification loop. *)
Lemma shapeStages_apart (t : string) (P : Platform) (manifestPath : string)
      (strictMode : bool) (manifest : JSON) :
  In t errorWordings ->
  let assets := arrayOrEmpty (Js.prop manifest "assets") in
  let graphs := arrayOrEmpty (Js.prop manifest "graphs") in
  Forall (fun i => worded t i = false)
    (issued (checkRootShape manifest manifestPath)
     ++ issued (forEach (Js.entries assets) (checkAsset manifestPath))
     ++ issued (forEach (Js.entries graphs) (checkGraph P manifestPath strictMode))
     ++ issued (collectReferenced manifest assets graphs)).
Proof.
  intros Ht assets graphs.
  assert (Ha : forall refs context referencedFiles,
             allIssues (fun i => worded t i = false) (addRefs referencedFiles refs context)).
  { intros refs context. induction refs as [| ref rest IH]; intros r; simpl.
    - constructor.
    - apply allIssues_bind; [| intros; apply IH].
      unfold addRef. wording Ht; apart. }
  repeat (apply Forall_app; split).
  - change (allIssues (fun i => worded t i = false) (checkRootShape manifest manifestPath)).
    unfold checkRootShape. wording Ht; apart.
  - apply allIssues_forEach. intros [i a]. unfold checkAsset. wording Ht; apart.
  - apply allIssues_forEach. intros [i g]. unfold checkGraph. wording Ht; apart.
  - change (allIssues (fun i => worded t i = false) (collectReferenced manifest assets graphs)).
    unfold collectReferenced.
    apply allIssues_bind; [unfold addRef; wording Ht; apart |]. intros r1.
    apply allIssues_bind; intros; apply Ha.
Qed.


Lemma detectExtras_apart (t : string) (P : Platform) (fs : FileSystem)
      (versionDir : string) (strictMode : bool) (referencedFiles : list string) :
  In t errorWordings ->
  allIssues (fun i => worded t i = false)
    (detectExtras P fs versionDir strictMode referencedFiles).
Proof.
  intros Ht. unfold detectExtras.
  apply allIssues_bind; [apply allIssues_silent, listFilesRecursive_silent |].
  intros allFiles. wording Ht; apart.
Qed.

(** What a turn of the verification loop pushes, and on what file. *)
Lemma verifyRef_reports (P : Platform) (fs : FileSystem) (versionDir kind : string)
      (ref : Js.value) :
  issued (verifyRef P fs versionDir kind ref) = []
  \/ exists file,
       Js.asString (Js.propOpt ref "file") = Some file
       /\ ((Fs.isFileNode (Fs.node fs (Path.join versionDir (Str.trim file))) = false
            /\ issued (verifyRef P fs versionDir kind ref)
               = [missingIssue kind (Path.join versionDir (Str.trim file))])
           \/ (Fs.isFileNode (Fs.node fs (Path.join versionDir (Str.trim file))) = true
               /\ issued (verifyRef P fs versionDir kind ref)
                  = [mismatchIssue kind (Str.trim file)])).
Proof.
  unfold verifyRef.
  destruct (Js.truthy ref); simpl negb; cbv iota; [| auto].
  destruct (Js.asString (Js.propOpt ref "file")) as [file |]; [| auto].
  destruct (Js.asString (Js.propOpt ref "sha256")) as [sha256 |]; [| auto].
  destruct (Str.isEmpty (Str.trim file)); [auto |].
  destruct (existsAsFile_spec fs (Path.join versionDir (Str.trim file))) as (R & I).
  erewrite issued_bind by exact R. rewrite I.
  unfold sha256FileHex.
  destruct (Fs.node fs (Path.join versionDir (Str.trim file)))
    as [[parsed digest | es |] |] eqn:Hn; simpl;
    try (right; exists file; rewrite Hn; split; [reflexivity | left; split; reflexivity]).
  unfold bind. simpl.
  destruct (String.eqb (toLowerCase P digest) (toLowerCase P sha256)); simpl.
  - auto.
  - right. exists file. rewrite Hn. split; [reflexivity | right; split; reflexivity].
Qed.

Lemma startsWith_append (t rest : string) : Str.startsWith (t ++ rest) t = true.
Proof.
  unfold Str.startsWith. induction t as [| c t IH]; simpl.
  - destruct rest; reflexivity.
  - destruct (Ascii.ascii_dec c c); [exact IH | contradiction].
Qed.






(** No turn of the linking loop reports as not found an id of the set it
    is given. *)
Lemma linkGraph_known (fs : FileSystem) (versionDir : string) (commandIds : list string)
      (graph : JSON) (id : string) :
  Arr.has commandIds id = true ->
  allIssues (fun i => i <> notFoundIssue id) (linkGraph fs versionDir commandIds graph).
Proof.
  intros Hhas. unfold linkGraph.
  destruct (notObject (Some graph)); [constructor |].
  apply allIssues_bind.
  - destruct (Js.asString (Js.prop graph "commandId")) as [id' |]; [| constructor].
    destruct (Arr.has commandIds id') eqn:Hhas'.
    + rewrite Bool.andb_false_r. constructor.
    + apply allIssues_when, allIssues_addIssue.
      intros H. injection H as ->. congruence.
  - intros _.
    destruct (Js.asString (Js.prop graph "file")) as [file |]; [| constructor].
    apply allIssues_bind; [apply existsAsFile_levels |].
    intros [|]; [| constructor].
    apply allIssues_bind; [constructor |].
    intros [v |]; run_auto; discriminate.
Qed.

(** An issue worded otherwise is not the not-found error. *)
Lemma apart_not_found (id : string) (i : Issue) :
  worded "Graph commandId not found in profile: " i = false -> i <> notFoundIssue id.
Proof.
  intros H ->.
  pose proof (startsWith_append "Graph commandId not found in profile: " id) as E.
  change (worded "Graph commandId not found in profile: " (notFoundIssue id) = true) in E.
  congruence.
Qed.

(** C9. A manifest that loads, whose profile file holds an array with two
    command objects of the same UUID id.  [validateProfile] pushes the
    duplicate-id error and returns a set that holds the id; that set is the
    one [validateManifestFile] links the graphs against, so no linking turn
    pushes a not-found error for the id.  The issues [validateManifestFile]
    reports hold the duplicate-id error and, when the name of the profile
    file does not start like the not-found error, no not-found error for the
    id. *)
Theorem duplicate_command_id_still_links
        (P : Platform) (fs : FileSystem) (versionDir manifestPath : string)
        (strictMode : bool) (manifest : JSON) (file : string) (commands : list JSON)
        (i j : nat) (first second : list (string * JSON)) (id : string) :
  manifestLoads fs manifestPath manifest ->
  Js.propOpt (Js.prop manifest "profile") "file" = Some (JString file) ->
  Str.isEmpty file = false ->
  result (readJson fs (Path.join versionDir file)) = Ok (Some (JArray commands)) ->
  i < j ->
  nth_error commands i = Some (JObject first) ->
  nth_error commands j = Some (JObject second) ->
  Js.assoc "id" first = Some (JString id) ->
  Js.assoc "id" second = Some (JString id) ->
  isUuid (jstr id) = true ->
  let profilePath := Path.join versionDir file in
  let reported := issued (validateManifestFile P fs versionDir manifestPath strictMode) in
  (exists commandIds,
      result (validateProfile fs profilePath) = Ok commandIds
      /\ In (duplicateIdIssue id) (issued (validateProfile fs profilePath))
      /\ Arr.has commandIds id = true
      /\ result (loadProfile fs versionDir manifest) = Ok commandIds
      /\ forall graph,
           ~ In (notFoundIssue id) (issued (linkGraph fs versionDir commandIds graph)))
  /\ In (duplicateIdIssue id) reported
  /\ (profileNamedApart versionDir manifest = true -> ~ In (notFoundIssue id) reported).
Proof.
  intros Hload Hfile Hne Hread Hlt Hi Hj Hid1 Hid2 Huuid profilePath reported.
  destruct (validateProfile_duplicate_kept fs profilePath commands i j first second id
              Hread Hlt Hi Hj Hid1 Hid2 Huuid) as (commandIds & Rv & Iv & Hhas & _).
  assert (Hnode : Fs.node fs profilePath <> None).
  { intros Hn. unfold readJson in Hread. simpl in Hread. fold profilePath in Hread.
    rewrite Hn in Hread. discriminate Hread. }
  destruct (loadProfile_runs_validateProfile fs versionDir manifest file Hfile Hne Hnode)
    as (Rl & Il).
  fold profilePath in Rl, Il. rewrite Rv in Rl.
  destruct (validateManifestFile_through_verification P fs versionDir manifestPath
              strictMode manifest Hload) as (refs & _ & _ & Hrun).
  fold reported in Hrun.
  assert (Hknown : forall graph,
             allIssues (fun x => x <> notFoundIssue id)
               (linkGraph fs versionDir commandIds graph))
    by (intros; apply linkGraph_known, Hhas).
  split; [| split].
  - exists commandIds. repeat split; try assumption.
    intros graph Hin. specialize (Hknown graph).
    unfold allIssues in Hknown. rewrite Forall_forall in Hknown.
    exact (Hknown _ Hin eq_refl).
  - rewrite Hrun. apply in_or_app. right.
    erewrite issued_bind by exact Rl. apply in_or_app. left.
    rewrite Il. exact Iv.
  - intros Hp Hin.
    assert (Ht : In "Graph commandId not found in profile: " errorWordings)
      by (simpl; auto).
    assert (Hall : Forall (fun x => x <> notFoundIssue id) reported).
    { rewrite Hrun. apply Forall_app. split.
      - unfold issuedThroughVerification. rewrite issued_verifyReferenced.
        pose proof (shapeStages_apart _ P manifestPath strictMode manifest Ht) as Hs.
        cbv zeta in Hs.
        repeat (apply Forall_app in Hs as [? Hs]).
        do 4 (apply Forall_app; split;
              [eapply Forall_impl; [apply apart_not_found | eassumption] |]).
        rewrite Forall_flat_map. apply Forall_forall. intros [k r] _. simpl.
        destruct (verifyRef_reports P fs versionDir k r)
          as [E | (f & _ & [(_ & E) | (_ & E)])]; rewrite E;
          repeat constructor; discriminate.
      - apply allIssues_bind_ok.
        + eapply allIssues_weaken; [apply apart_not_found |].
          apply loadProfile_apart; assumption.
        + intros ids Hids. rewrite Rl in Hids. injection Hids as <-.
          apply allIssues_bind; [apply allIssues_forEach; exact Hknown |]. intros _.
          apply allIssues_bind; [| intros; constructor].
          eapply allIssues_weaken; [apply apart_not_found |].
          apply detectExtras_apart, Ht. }
    rewrite Forall_forall in Hall. exact (Hall _ Hin eq_refl).
Qed.

Lemma duplicate_command_id_still_links_witness :
  In (duplicateIdIssue Sample.uuid1)
     (issued (validateManifestFile Sample.host Sample.repoDuplicate Sample.versionDir
                Sample.manifestPath true))
  /\ ~ In (notFoundIssue Sample.uuid1)
          (issued (validateManifestFile Sample.host Sample.repoDuplicate Sample.versionDir
                     Sample.manifestPath true)).
Proof.
  destruct (duplicate_command_id_still_links Sample.host Sample.repoDuplicate
              Sample.versionDir Sample.manifestPath true
              (Sample.manifestOf "1.0.0" (Sample.fileRef "profile.json" Sample.digestA)
                 [Sample.graphRef])
              "profile.json" Sample.twoCommands 0 1
              [("id", Sample.str Sample.uuid1); ("label", Sample.str "List");
               ("command", Sample.str "ls"); ("description", Sample.str "lists");
               ("tags", JArray [])]
              [("id", Sample.str Sample.uuid1); ("label", Sample.str "List");
               ("command", Sample.str "ls"); ("description", Sample.str "lists");
               ("tags", JArray [])] Sample.uuid1)
    as (_ & Hdup & Hnot).
  - split; reflexivity.
  - reflexivity.
  - reflexivity.
  - vm_compute. reflexivity.
  - lia.
  - reflexivity.
  - reflexivity.
  - reflexivity.
  - reflexivity.
  - vm_compute. reflexivity.
  - split; [exact Hdup | apply Hnot; reflexivity].
Defined.

(* ------------------------------------------------------------------ *)
(** ** [pack.json.latestVersion] against the versions on disk *)


Lemma directoriesAmong_returns (fs : FileSystem) (dir : string) (names : list string) :
  returns (directoriesAmong fs dir names).
Proof.
  induction names as [| name rest IH]; simpl.
  - apply returns_ret.
  - apply returns_bind; [eexists; apply existsAsDirectory_spec |]. intros.
    apply returns_bind; [exact IH | intros; apply returns_ret].
Qed.

Lemma checkPackJson_returns (packJson : JSON) (packId packJsonPath : string)
      (strictMode : bool) :
  returns (checkPackJson packJson packId packJsonPath strictMode).
Proof. unfold checkPackJson. run_auto. Qed.

Lemma returns_bind_ok {A B : Type} (m : W A) (f : A -> W B) (a : A) :
  result m = Ok a -> returns (f a) -> returns (bind m f).
Proof.
  intros Hm [b Hb]. exists b. erewrite result_bind by exact Hm. exact Hb.
Qed.


Lemma directoriesAmong_silent (fs : FileSystem) (dir : string) (names : list string) :
  issued (directoriesAmong fs dir names) = [].
Proof.
  induction names as [| name rest IH]; [reflexivity |].
  cbn [directoriesAmong].
  destruct (existsAsDirectory_spec fs (Path.join dir name)) as (Rd & Id).
  destruct (directoriesAmong_returns fs dir rest) as [more Hm].
  erewrite issued_bind by exact Rd. rewrite Id.
  erewrite issued_bind by exact Hm. rewrite IH. reflexivity.
Qed.




(* ------------------------------------------------------------------ *)
(** * Further properties of the code *)

(** X1. [compareSemver] returns [null] exactly when one of its operands is
    not a semver string, and -1, 0 or 1 otherwise. *)
Theorem compareSemver_null_or_sign (a b : Js.value) :
  (compareSemver a b = None <-> isSemver a = false \/ isSemver b = false)
  /\ (forall c, compareSemver a b = Some c -> c = (-1)%Z \/ c = 0%Z \/ c = 1%Z).
Proof.
  assert (Hp : forall v, parseSemver v = None <-> isSemver v = false).
  { intros v. unfold parseSemver, isSemver, normalizeSemver.
    destruct (Js.asString v) as [s |] eqn:E.
    - destruct (SEMVER_RE_exec _); split; intros; congruence.
    - split; auto. }
  split.
  - unfold compareSemver. rewrite <- !Hp.
    destruct (parseSemver a), (parseSemver b); split; intros H;
      try discriminate; auto; destruct H; discriminate.
  - unfold compareSemver. intros c.
    destruct (parseSemver a) as [pa |]; [| discriminate].
    destruct (parseSemver b) as [pb |]; [| discriminate].
    intros H. injection H as <-.
    assert (Hpre : forall n : Z,
               n = match pre pa, pre pb with
                   | [], [] => 0
                   | [], _ => 1
                   | _, [] => -1
                   | aPre, bPre => comparePre aPre bPre
                   end%Z -> n = (-1)%Z \/ n = 0%Z \/ n = 1%Z).
    { intros n ->. destruct (pre pa) as [| x p]; destruct (pre pb) as [| y q]; auto.
      exact (comparePre_sign (x :: p) (y :: q)). }
    repeat match goal with |- context [if ?c then _ else _] => destruct c end; auto.
Qed.

(** X2. A semver string compared with itself gives 0, unless one of its
    numeric prerelease identifiers is read as [Infinity]: then it gives -1. *)
Theorem compareSemver_self (a : string) :
  isSemver (jstr a) = true ->
  compareSemver (jstr a) (jstr a)
  = Some (if existsb readsAsInfinity (prerelease a) then -1 else 0)%Z.
Proof.
  unfold isSemver, compareSemver, prerelease, parseSemver. simpl Js.asString. cbv iota.
  destruct (SEMVER_RE_exec (normalizeSemver (jstr a))) as [m |]; [| discriminate].
  intros _. cbn [major minor patch pre].
  rewrite !Num_eqb_ofDigits. cbn [negb].
  f_equal.
  destruct (match m4 m with Some p => Str.split "." p | None => [] end) as [| x l] eqn:E.
  - reflexivity.
  - apply (comparePre_self (x :: l)).
Qed.

Lemma compareSemver_self_witness :
  isSemver (jstr "1.2.3-rc.1") = true
  /\ compareSemver (jstr "1.2.3-rc.1") (jstr "1.2.3-rc.1") = Some 0%Z.
Proof.
  split; [reflexivity |].
  exact (compareSemver_self "1.2.3-rc.1" eq_refl).
Defined.

(** ** Strings as lists of characters *)

Lemma chars_ofChars (l : list ascii) : Str.chars (Str.ofChars l) = l.
Proof. apply list_ascii_of_string_of_list_ascii. Qed.

Lemma ofChars_chars (s : string) : Str.ofChars (Str.chars s) = s.
Proof. apply string_of_list_ascii_of_string. Qed.

Lemma chars_app (a b : string) : Str.chars (a ++ b) = (Str.chars a ++ Str.chars b)%list.
Proof. induction a as [| c a IH]; simpl; auto. unfold Str.chars in *. simpl. now rewrite IH. Qed.

Lemma chars_inj (a b : string) : Str.chars a = Str.chars b -> a = b.
Proof. intros H. rewrite <- (ofChars_chars a), <- (ofChars_chars b). now rewrite H. Qed.

Lemma ofChars_app (a b : list ascii) :
  Str.ofChars (a ++ b)%list = Str.ofChars a ++ Str.ofChars b.
Proof. apply chars_inj. now rewrite chars_app, !chars_ofChars. Qed.

Lemma chars_length (s : string) : List.length (Str.chars s) = String.length s.
Proof. induction s; simpl; auto. Qed.

(** ** [trim] on a string without white space *)

Ltac crack_with fin p :=
  first [ solve [fin]
        | destruct p as [p | p |]; [crack_with fin p | crack_with fin p | solve [fin]] ].

Ltac settle := simpl; first [reflexivity | discriminate | lia].

Lemma wsLen_above_space (a : N) (l : list N) :
  (33 <= a <= 126)%N -> Str.wsLen (a :: l) = 0.
Proof.
  intros H. destruct a as [| p]; [reflexivity |].
  crack_with settle p.
Qed.

Lemma wsLen_two (b a : N) : (33 <= a <= 126)%N -> Str.wsLen [b; a] <> 2.
Proof.
  intros H. destruct b as [| q]; [discriminate |].
  crack_with ltac:(first [settle | destruct a as [| p]; [settle | crack_with settle p]]) q.
Qed.

Lemma wsLen_three (c b a : N) : (33 <= a <= 126)%N -> Str.wsLen [c; b; a] <> 3.
Proof.
  intros H. destruct c as [| r]; [discriminate |].
  crack_with
    ltac:(first [settle
                | destruct b as [| q]; [settle |];
                  crack_with ltac:(first [settle | destruct a as [| p]; [settle | crack_with settle p]]) q])
    r.
Qed.

Lemma plain_code (c : ascii) : plain c = true -> (33 <= Str.code c <= 126)%N.
Proof. unfold plain. cbv zeta. rewrite andb_true_iff, !N.leb_le. auto. Qed.

Lemma wsLen_plain (c : ascii) (l : list N) :
  plain c = true -> Str.wsLen (Str.code c :: l) = 0.
Proof. intros H. apply wsLen_above_space, plain_code, H. Qed.

Lemma wsLenRev_plain (c : ascii) (l : list N) :
  plain c = true -> Str.wsLenRev (Str.code c :: l) = 0.
Proof.
  intros H. apply plain_code in H. unfold Str.wsLenRev.
  rewrite (wsLen_above_space _ [] H). cbn [Nat.eqb].
  destruct l as [| b l]; [reflexivity |].
  destruct (Nat.eqb_spec (Str.wsLen [b; Str.code c]) 2) as [E | _].
  { now apply wsLen_two in E. }
  destruct l as [| d l]; [reflexivity |].
  destruct (Nat.eqb_spec (Str.wsLen [d; b; Str.code c]) 3) as [E | _]; [| reflexivity].
  now apply wsLen_three in E.
Qed.

Lemma strip_head (len : list N -> nat) (fuel : nat) (l : list ascii) :
  len (map Str.code l) = 0 -> Str.strip len fuel l = l.
Proof. intros H. destruct fuel; simpl; auto. now rewrite H. Qed.

(** A string of plain characters is its own [trim]. *)
Lemma trim_plain (s : string) : Str.all plain s = true -> Str.trim s = s.
Proof.
  unfold Str.all, Str.trim. intros H. cbv zeta.
  assert (H1 : forall l, forallb plain l = true -> Str.wsLen (map Str.code l) = 0).
  { intros [| c l] Hl; [reflexivity |]. simpl in Hl. apply andb_true_iff in Hl as [Hc _].
    simpl map. now apply wsLen_plain. }
  assert (H2 : forall l, forallb plain l = true -> Str.wsLenRev (map Str.code l) = 0).
  { intros [| c l] Hl; [reflexivity |]. simpl in Hl. apply andb_true_iff in Hl as [Hc _].
    simpl map. now apply wsLenRev_plain. }
  rewrite (strip_head _ _ _ (H1 _ H)).
  rewrite strip_head.
  - rewrite rev_involutive. apply ofChars_chars.
  - apply H2. rewrite forallb_forall in *. intros x Hx. apply H. now apply in_rev.
Qed.

(** ** [split], [join] and [cut] *)

Lemma splitChars_nonempty (sep : ascii) (cur l : list ascii) :
  Str.splitChars sep cur l <> [].
Proof.
  revert cur. induction l as [| c l IH]; intros cur; simpl; [discriminate |].
  destruct (Ascii.eqb c sep); [discriminate | apply IH].
Qed.

Lemma concat_cons (sep x : string) (l : list string) :
  l <> [] -> String.concat sep (x :: l) = x ++ sep ++ String.concat sep l.
Proof. destruct l; [contradiction | reflexivity]. Qed.

Lemma splitChars_concat (sep : ascii) (cur l : list ascii) :
  Str.chars (String.concat (String sep EmptyString) (Str.splitChars sep cur l))
  = (rev cur ++ l)%list.
Proof.
  revert cur. induction l as [| c l IH]; intros cur; simpl Str.splitChars.
  - simpl. now rewrite chars_ofChars, app_nil_r.
  - destruct (Ascii.eqb_spec c sep) as [-> | _].
    + rewrite concat_cons by apply splitChars_nonempty.
      rewrite !chars_app, chars_ofChars, IH. reflexivity.
    + rewrite IH. simpl. now rewrite <- app_assoc.
Qed.

(** [s.split(sep).join(sep)] is [s]. *)
Lemma split_join (sep : ascii) (s : string) :
  Str.join (String sep EmptyString) (Str.split sep s) = s.
Proof.
  apply chars_inj. unfold Str.join, Str.split. now rewrite splitChars_concat.
Qed.

Lemma splitChars_all (q : ascii -> bool) (sep : ascii) (cur l : list ascii) :
  q sep = true ->
  forallb (Str.all q) (Str.splitChars sep cur l) = true ->
  forallb q (rev cur ++ l)%list = true.
Proof.
  intros Hsep. revert cur. induction l as [| c l IH]; intros cur; simpl Str.splitChars.
  - simpl. unfold Str.all. rewrite chars_ofChars, app_nil_r, andb_true_r. auto.
  - destruct (Ascii.eqb_spec c sep) as [-> | _].
    + simpl. unfold Str.all at 1. rewrite chars_ofChars, andb_true_iff. intros [H1 H2].
      rewrite forallb_app. simpl. rewrite H1, Hsep. simpl. exact (IH [] H2).
    + intros H. apply IH in H. simpl in H. now rewrite <- app_assoc in H.
Qed.

Lemma split_all (q : ascii -> bool) (sep : ascii) (s : string) :
  q sep = true -> forallb (Str.all q) (Str.split sep s) = true -> Str.all q s = true.
Proof. intros Hsep H. exact (splitChars_all q sep [] _ Hsep H). Qed.

Lemma cutChars_spec (sep : ascii) (cur l : list ascii) (x : string) (o : option string) :
  Str.cutChars sep cur l = (x, o) ->
  (rev cur ++ l)%list
  = (Str.chars x ++ match o with Some y => sep :: Str.chars y | None => [] end)%list.
Proof.
  revert cur. induction l as [| c l IH]; intros cur; simpl.
  - intros H. injection H as <- <-. now rewrite chars_ofChars.
  - destruct (Ascii.eqb_spec c sep) as [-> | _].
    + intros H. injection H as <- <-. now rewrite !chars_ofChars.
    + intros H. apply IH in H. simpl in H. now rewrite <- app_assoc in H.
Qed.

Lemma cut_spec (sep : ascii) (s x : string) (o : option string) :
  Str.cut sep s = (x, o) ->
  s = x ++ match o with Some y => String sep y | None => EmptyString end.
Proof.
  intros H. apply cutChars_spec in H. simpl in H. apply chars_inj.
  rewrite chars_app, H. now destruct o.
Qed.

Lemma cutChars_absent (sep : ascii) (cur l : list ascii) :
  existsb (Ascii.eqb sep) l = false ->
  Str.cutChars sep cur l = (Str.ofChars (rev cur ++ l)%list, None).
Proof.
  revert cur. induction l as [| c l IH]; intros cur; simpl.
  - now rewrite app_nil_r.
  - rewrite orb_false_iff, Ascii.eqb_sym. intros [-> H].
    rewrite IH by exact H. simpl. now rewrite <- app_assoc.
Qed.

Lemma cutChars_first (sep : ascii) (cur l1 l2 : list ascii) :
  existsb (Ascii.eqb sep) l1 = false ->
  Str.cutChars sep cur (l1 ++ sep :: l2)%list
  = (Str.ofChars (rev cur ++ l1)%list, Some (Str.ofChars l2)).
Proof.
  revert cur. induction l1 as [| c l1 IH]; intros cur; simpl.
  - intros _. now rewrite Ascii.eqb_refl, app_nil_r.
  - rewrite orb_false_iff, Ascii.eqb_sym. intros [-> H].
    rewrite IH by exact H. simpl. now rewrite <- app_assoc.
Qed.

(** [s.includes(c)] for a one-character [c]. *)
Lemma includes_char (s : string) (c : ascii) :
  Str.includes s (String c EmptyString) = existsb (Ascii.eqb c) (Str.chars s).
Proof.
  unfold Str.includes. simpl Str.chars at 1.
  induction (Str.chars s) as [| d l IH]; simpl; auto.
  now rewrite IH, andb_true_r.
Qed.

Lemma cut_absent (sep : ascii) (s : string) :
  Str.includes s (String sep EmptyString) = false -> Str.cut sep s = (s, None).
Proof.
  rewrite includes_char. intros H. unfold Str.cut.
  rewrite cutChars_absent by exact H. simpl. now rewrite ofChars_chars.
Qed.

Lemma cut_first (sep : ascii) (a b : string) :
  Str.includes a (String sep EmptyString) = false ->
  Str.cut sep (a ++ String sep b) = (a, Some b).
Proof.
  rewrite includes_char. intros H. unfold Str.cut.
  rewrite chars_app. change (Str.chars (String sep b)) with (sep :: Str.chars b).
  rewrite cutChars_first by exact H. simpl. now rewrite !ofChars_chars.
Qed.

(** ** The characters of a semver string *)

Lemma semverChar_plain (c : ascii) : semverChar c = true -> plain c = true.
Proof.
  destruct c as [[] [] [] [] [] [] [] []]; intros H; try discriminate H; reflexivity.
Qed.

Lemma all_impl (p q : ascii -> bool) (s : string) :
  (forall c, p c = true -> q c = true) -> Str.all p s = true -> Str.all q s = true.
Proof.
  unfold Str.all. intros H. rewrite !forallb_forall. auto.
Qed.

Lemma all_app (q : ascii -> bool) (a b : string) :
  Str.all q (a ++ b) = Str.all q a && Str.all q b.
Proof. unfold Str.all. now rewrite chars_app, forallb_app. Qed.

Lemma identChar_semverChar (c : ascii) : identChar c = true -> semverChar c = true.
Proof. unfold semverChar. now intros ->. Qed.

Lemma isDigit_semverChar (c : ascii) : Str.isDigit c = true -> semverChar c = true.
Proof. unfold semverChar, identChar. now intros ->. Qed.

Lemma dottedIdentifiers_chars (s : string) :
  dottedIdentifiers s = true -> Str.all semverChar s = true.
Proof.
  unfold dottedIdentifiers. intros H. apply (split_all semverChar "."%char); [reflexivity |].
  rewrite forallb_forall in *. intros part Hp. specialize (H part Hp).
  apply andb_true_iff in H as [_ H].
  exact (all_impl _ _ _ identChar_semverChar H).
Qed.

(** A numeric core starts with a digit and holds digits only. *)
Lemma numericCore_chars (s : string) :
  numericCore s = true ->
  Str.all semverChar s = true
  /\ exists c rest, s = String c rest /\ Str.isDigit c = true.
Proof.
  unfold numericCore. intros H. apply orb_true_iff in H as [H | H].
  - apply String.eqb_eq in H as ->. split; [reflexivity |].
    exists "0"%char, EmptyString. auto.
  - destruct s as [| c rest]; [discriminate |].
    change (Str.chars (String c rest)) with (c :: Str.chars rest) in H.
    apply andb_true_iff in H as [H Hrest]. apply andb_true_iff in H as [Hc _].
    split.
    + unfold Str.all. change (Str.chars (String c rest)) with (c :: Str.chars rest).
      simpl. rewrite (isDigit_semverChar c Hc). simpl.
      rewrite forallb_forall in *. intros x Hx. apply isDigit_semverChar. auto.
    + exists c, rest. auto.
Qed.

Lemma okOpt_chars (o : option string) :
  match o with Some s => dottedIdentifiers s | None => true end = true ->
  forall sep, semverChar sep = true ->
  Str.all semverChar match o with Some y => String sep y | None => EmptyString end = true.
Proof.
  destruct o as [y |]; intros H sep Hsep; [| reflexivity].
  unfold Str.all. change (Str.chars (String sep y)) with (sep :: Str.chars y).
  simpl. rewrite Hsep. exact (dottedIdentifiers_chars y H).
Qed.

(** What [SEMVER_RE] matches is made of the characters of a semver
    string and starts with a digit. *)
Lemma SEMVER_RE_exec_chars (v : string) (m : SemverMatch) :
  SEMVER_RE_exec v = Some m ->
  Str.all semverChar v = true
  /\ exists c rest, v = String c rest /\ Str.isDigit c = true.
Proof.
  unfold SEMVER_RE_exec.
  destruct (Str.cut "+" v) as [main build] eqn:Ecut1.
  destruct (Str.cut "-" main) as [core pre] eqn:Ecut2.
  destruct (Str.split "." core) as [| a [| b [| c [| d l]]]] eqn:Esplit; try discriminate.
  destruct (numericCore a && numericCore b && numericCore c
            && match pre with Some s => dottedIdentifiers s | None => true end
            && match build with Some s => dottedIdentifiers s | None => true end) eqn:E;
    [| discriminate].
  intros _.
  repeat (apply andb_true_iff in E as [E ?]).
  apply cut_spec in Ecut1. apply cut_spec in Ecut2.
  pose proof (split_join "."%char core) as Hcore. rewrite Esplit in Hcore.
  unfold Str.join in Hcore. cbn [String.concat] in Hcore.
  destruct (numericCore_chars a E) as [Ha (c0 & rest & Ea & Hc0)].
  destruct (numericCore_chars b H2) as [Hb _].
  destruct (numericCore_chars c H1) as [Hc _].
  subst v main. rewrite <- Hcore.
  split.
  - rewrite !all_app. rewrite Ha, Hb, Hc. simpl.
    rewrite (okOpt_chars pre H0 "-"%char eq_refl).
    rewrite (okOpt_chars build H "+"%char eq_refl). reflexivity.
  - rewrite Ea. simpl. eexists. eexists. split; [reflexivity | exact Hc0].
Qed.

(** A string that [SEMVER_RE] matches is its own [normalizeSemver]. *)
Lemma normalizeSemver_matched (v : string) (m : SemverMatch) :
  SEMVER_RE_exec v = Some m -> normalizeSemver (jstr v) = v.
Proof.
  intros H. destruct (SEMVER_RE_exec_chars v m H) as [Hall (c & rest & -> & Hc)].
  unfold normalizeSemver. simpl Js.asString. cbv iota zeta.
  rewrite (trim_plain _ (all_impl _ _ _ semverChar_plain Hall)).
  simpl Str.isEmpty. cbv iota.
  assert (E : Str.startsWith (String c rest) "v" || Str.startsWith (String c rest) "V" = false).
  { unfold Str.startsWith. cbn [String.prefix].
    destruct (Ascii.ascii_dec "v" c) as [<- | _]; [discriminate Hc |].
    destruct (Ascii.ascii_dec "V" c) as [<- | _]; [discriminate Hc |].
    reflexivity. }
  rewrite E. reflexivity.
Qed.

(** X3. Normalizing a valid version a second time changes nothing, and the
    normalized string is valid: the validators may normalize before or
    after they test. *)
Theorem normalizeSemver_stable (s : string) :
  isSemver (jstr s) = true ->
  normalizeSemver (jstr (normalizeSemver (jstr s))) = normalizeSemver (jstr s)
  /\ isSemver (jstr (normalizeSemver (jstr s))) = true.
Proof.
  intros H. destruct (isSemver_exec s H) as [m Hm].
  pose proof (normalizeSemver_matched _ m Hm) as E.
  split; [exact E |].
  unfold isSemver. simpl Js.asString. cbv iota. rewrite E, Hm. reflexivity.
Qed.

Lemma normalizeSemver_stable_witness :
  isSemver (jstr " v1.2.3-rc.1 ") = true
  /\ normalizeSemver (jstr " v1.2.3-rc.1 ") = "1.2.3-rc.1"
  /\ normalizeSemver (jstr (normalizeSemver (jstr " v1.2.3-rc.1 ")))
     = normalizeSemver (jstr " v1.2.3-rc.1 ").
Proof.
  split; [reflexivity |]. split; [reflexivity |].
  exact (proj1 (normalizeSemver_stable " v1.2.3-rc.1 " eq_refl)).
Defined.

Lemma substring_full (s : string) : String.substring 0 (String.length s) s = s.
Proof. induction s as [| c s IH]; simpl; auto. now rewrite IH. Qed.

Lemma normalizeSemver_v (rest : string) :
  Str.all plain rest = true -> normalizeSemver (jstr ("v" ++ rest)) = rest.
Proof.
  intros H. unfold normalizeSemver. simpl Js.asString. cbv iota zeta.
  rewrite trim_plain.
  - change ("v" ++ rest) with (String "v" rest).
    simpl Str.isEmpty. cbv iota.
    unfold Str.startsWith. cbn [String.prefix].
    destruct (Ascii.ascii_dec "v" "v") as [_ | N]; [| now elim N].
    assert (E0 : String.prefix EmptyString rest = true) by (destruct rest; reflexivity).
    rewrite E0. cbn [orb String.length]. rewrite Nat.sub_succ, Nat.sub_0_r.
    cbn [String.substring]. apply substring_full.
  - change (Str.all plain (String "v" rest) = true). unfold Str.all in *.
    change (Str.chars (String "v" rest)) with ("v"%char :: Str.chars rest).
    simpl. exact H.
Qed.

(** The match of a version with build metadata added. *)
Lemma SEMVER_RE_exec_build (a build : string) (m : SemverMatch) :
  SEMVER_RE_exec a = Some m ->
  Str.includes a "+" = false ->
  dottedIdentifiers build = true ->
  SEMVER_RE_exec (a ++ "+" ++ build)
  = Some {| m1 := m1 m; m2 := m2 m; m3 := m3 m; m4 := m4 m; m5 := Some build |}.
Proof.
  intros Hm Hplus Hbuild. revert Hm. unfold SEMVER_RE_exec.
  change (a ++ "+" ++ build) with (a ++ String "+" build).
  rewrite (cut_first "+"%char a build Hplus), (cut_absent "+"%char a Hplus).
  destruct (Str.cut "-" a) as [core pre].
  destruct (Str.split "." core) as [| x [| y [| z [| d l]]]]; try discriminate.
  rewrite Hbuild, !andb_true_r.
  destruct (numericCore x && numericCore y && numericCore z
            && match pre with Some s => dottedIdentifiers s | None => true end);
    [| discriminate].
  intros H. injection H as <-. reflexivity.
Qed.

(** X4. A leading [v] and build metadata take no part in a comparison:
    [v] + [a] + [+build] is a valid version and compares with anything, on
    either side, as [a] does. *)
Theorem compareSemver_ignores_v_and_build (a build : string) (b : Js.value) :
  isSemver (jstr a) = true ->
  normalizeSemver (jstr a) = a ->
  Str.includes a "+" = false ->
  dottedIdentifiers build = true ->
  isSemver (jstr ("v" ++ a ++ "+" ++ build)) = true
  /\ compareSemver (jstr ("v" ++ a ++ "+" ++ build)) b = compareSemver (jstr a) b
  /\ compareSemver b (jstr ("v" ++ a ++ "+" ++ build)) = compareSemver b (jstr a).
Proof.
  intros Ha Hnorm Hplus Hbuild.
  destruct (isSemver_exec a Ha) as [m Hm]. rewrite Hnorm in Hm.
  destruct (SEMVER_RE_exec_chars a m Hm) as [Hall _].
  assert (Hn : normalizeSemver (jstr ("v" ++ a ++ "+" ++ build)) = a ++ "+" ++ build).
  { apply normalizeSemver_v. rewrite all_app.
    rewrite (all_impl _ _ _ semverChar_plain Hall).
    change ("+" ++ build) with (String "+" build).
    unfold Str.all. change (Str.chars (String "+" build)) with ("+"%char :: Str.chars build).
    simpl. exact (all_impl _ _ _ semverChar_plain (dottedIdentifiers_chars build Hbuild)). }
  pose proof (SEMVER_RE_exec_build a build m Hm Hplus Hbuild) as Hb.
  assert (Hp : parseSemver (jstr ("v" ++ a ++ "+" ++ build)) = parseSemver (jstr a)).
  { unfold parseSemver. rewrite Hn, Hb, Hnorm, Hm. reflexivity. }
  split.
  - unfold isSemver. simpl Js.asString. cbv iota. rewrite Hn, Hb. reflexivity.
  - unfold compareSemver. rewrite Hp. auto.
Qed.

Lemma compareSemver_ignores_v_and_build_witness :
  compareSemver (jstr "v1.2.3-rc.1+build.5") (jstr "1.2.3")
  = compareSemver (jstr "1.2.3-rc.1") (jstr "1.2.3").
Proof.
  exact (proj1 (proj2 (compareSemver_ignores_v_and_build "1.2.3-rc.1" "build.5"
                         (jstr "1.2.3") eq_refl eq_refl eq_refl eq_refl))).
Defined.

(** ** Strict mode *)

Lemma raises_bind {A B : Type} (m n : W A) (f g : A -> W B) :
  raises m n -> (forall a, raises (f a) (g a)) -> raises (bind m f) (bind n g).
Proof.
  intros [Hr Hi] Hf. unfold raises, bind. rewrite Hr.
  destruct (result n) as [a | e]; simpl.
  - destruct (Hf a) as [Hr' Hi']. rewrite Hr', Hi, Hi', map_app. auto.
  - auto.
Qed.

Lemma raises_errors {A : Type} (m : W A) : allIssues isError m -> raises m m.
Proof.
  intros H. split; [reflexivity |].
  unfold allIssues in H. induction H as [| i l Hi _ IH]; simpl; auto.
  rewrite <- IH. f_equal. unfold promote. now rewrite Hi.
Qed.

Lemma raises_advisory (c : bool) (msg : string) :
  raises (when c (addIssue (advisory true) msg)) (when c (addIssue (advisory false) msg)).
Proof. destruct c; split; reflexivity. Qed.

Lemma checkEntryFields_errors (prefix : string) (pack : JSON) :
  allIssues isError (checkEntryFields prefix pack).
Proof. unfold checkEntryFields. run_auto; reflexivity. Qed.

Lemma checkDuplicate_errors (P : Platform) (seen : SeenMap) (packId : string) :
  allIssues isError (checkDuplicate P seen packId).
Proof. unfold checkDuplicate. run_auto; reflexivity. Qed.

Lemma checkManifestUrl_raises (P : Platform) (prefix packId latestVersion manifestUrl : string) :
  raises (checkManifestUrl P true prefix packId latestVersion manifestUrl)
         (checkManifestUrl P false prefix packId latestVersion manifestUrl).
Proof.
  unfold checkManifestUrl.
  destruct (negb (Str.isEmpty manifestUrl)); simpl; [| now split].
  destruct (urlPathname P manifestUrl) as [raw |]; [| now split].
  assert (He : forall x, raises (Uri.encodeURIComponent x) (Uri.encodeURIComponent x)).
  { intros x. apply raises_errors. unfold Uri.encodeURIComponent.
    destruct (Uri.hasLoneSurrogate x); constructor. }
  apply raises_bind; [apply He |]. intros encodedPackId.
  apply raises_bind; [apply He |]. intros encodedVersion. cbv zeta.
  apply raises_bind.
  - apply raises_errors. unfold Uri.decodeURIComponent.
    destruct (Uri.decode _ _ _); constructor.
  - intros pathname. apply raises_advisory.
Qed.

Lemma checkEntry_raises (P : Platform) (seen : SeenMap) (index : nat) (pack : JSON) :
  raises (checkEntry P true seen index pack) (checkEntry P false seen index pack).
Proof.
  unfold checkEntry. destruct (Js.notPlainObject (Some pack)).
  - apply raises_errors. run_auto; reflexivity.
  - cbv zeta. apply raises_bind; [apply raises_errors, checkEntryFields_errors |].
    intros _. apply raises_bind; [apply checkManifestUrl_raises |].
    intros _. apply raises_errors, checkDuplicate_errors.
Qed.

Lemma checkEntries_raises (P : Platform) (packs : list (nat * JSON)) (seen : SeenMap) :
  raises (checkEntries P true seen packs) (checkEntries P false seen packs).
Proof.
  revert seen. induction packs as [| [index pack] rest IH]; intros seen; simpl.
  - now split.
  - apply raises_bind; [apply checkEntry_raises | intros seen'; apply IH].
Qed.

Lemma validateCatalogRun_raises (P : Platform) (catalog : JSON) :
  raises (validateCatalogRun P catalog true) (validateCatalogRun P catalog false).
Proof.
  unfold validateCatalogRun. destruct (Js.notPlainObject (Some catalog)); [now split |].
  apply raises_bind.
  { apply raises_errors. unfold checkSchemaVersion. run_auto; reflexivity. }
  intros _. apply raises_bind.
  { apply raises_errors. unfold checkGeneratedAt. run_auto; reflexivity. }
  intros _. destruct (Js.prop catalog "packs") as [[| | | | packs |] |]; try now split.
  apply raises_bind; [apply checkEntries_raises |].
  intros _. unfold checkSorted. cbv zeta. apply raises_advisory.
Qed.

Lemma validateCatalogRun_relaxed_levels (P : Platform) (catalog : JSON) :
  allIssues notWarn (validateCatalogRun P catalog false).
Proof.
  unfold validateCatalogRun, checkSchemaVersion, checkGeneratedAt, checkSorted.
  assert (He : forall packs seen, allIssues notWarn (checkEntries P false seen packs)).
  { induction packs as [| [index pack] rest IH]; intros seen; simpl.
    - constructor.
    - apply allIssues_bind; [| intros; apply IH].
      unfold checkEntry, checkEntryFields, checkManifestUrl, checkDuplicate,
        Uri.decodeURIComponent.
      run_auto; try discriminate; constructor. }
  run_auto; try discriminate; try apply He; constructor.
Qed.

(** X5. Strict mode changes the level of the catalog validator's findings
    and nothing else: with [strictMode] on, [validateCatalog] ends as it does
    with it off, and returns the same issues in the same order with every
    [info] turned into [warn]; with it off, it returns no [warn]. *)
Theorem validateCatalog_strict_raises_info (P : Platform) (catalog : JSON) :
  validateCatalog P catalog true
  = match validateCatalog P catalog false with
    | Ok issues => Ok (map promote issues)
    | Throw e => Throw e
    end
  /\ (forall issues, validateCatalog P catalog false = Ok issues -> Forall notWarn issues).
Proof.
  unfold validateCatalog. cbv zeta.
  destruct (validateCatalogRun_raises P catalog) as [Hr Hi].
  pose proof (validateCatalogRun_relaxed_levels P catalog) as Hl.
  rewrite Hr, Hi.
  destruct (result (validateCatalogRun P catalog false)) as [[] | e]; split; auto;
    intros issues H; [injection H as <-; exact Hl | discriminate].
Qed.

(** ** When [validateCatalog] throws *)

Lemma validateCatalogRun_without_packs (P : Platform) (catalog : JSON) (strictMode : bool) :
  Js.isArray (Js.prop catalog "packs") = false ->
  returns (validateCatalogRun P catalog strictMode).
Proof.
  intros H. unfold validateCatalogRun, checkSchemaVersion, checkGeneratedAt.
  destruct (Js.prop catalog "packs") as [[| | | | packs |] |]; try discriminate H;
    run_auto.
Qed.

(** X6. [validateCatalog] throws nothing but [URIError], and throws it
    exactly on a catalog object whose [packs] array has an entry that is an
    object with a [manifestUrl] that parses, and either a lone surrogate in
    its [packId] or [latestVersion], which [encodeURIComponent] rejects, or
    a pathname that [decodeURIComponent] rejects. *)
Theorem validateCatalog_throws_only_URIError
        (P : Platform) (catalog : JSON) (strictMode : bool) (e : exn) :
  validateCatalog P catalog strictMode = Throw e
  <-> e = URIError
      /\ Js.notPlainObject (Some catalog) = false
      /\ exists packs,
           Js.prop catalog "packs" = Some (JArray packs)
           /\ forallb (entryUrlDecodes P) packs = false.
Proof.
  destruct (Js.isArray (Js.prop catalog "packs")) eqn:Harr.
  - destruct (Js.prop catalog "packs") as [[| | | | packs |] |] eqn:Hp; try discriminate Harr.
    destruct catalog as [| b | x | s | items | fields]; try discriminate Hp.
    simpl in Hp. rewrite (validateCatalog_outcome P fields packs strictMode Hp).
    destruct (forallb (entryUrlDecodes P) packs) eqn:Hall; split.
    + discriminate.
    + intros (_ & _ & packs' & Hp' & Hall'). simpl in Hp'. congruence.
    + intros H. injection H as <-. repeat split. exists packs. auto.
    + intros (-> & _). reflexivity.
  - destruct (validateCatalogRun_without_packs P catalog strictMode Harr) as [[] Hr].
    unfold validateCatalog. cbv zeta. rewrite Hr. split; [discriminate |].
    intros (_ & _ & packs & Hp & _). rewrite Hp in Harr. discriminate.
Qed.

(** ** The duplicate check *)

Lemma seenGet_has (seen : SeenMap) (k : string) :
  Arr.has (map fst seen) k = match seenGet seen k with Some _ => true | None => false end.
Proof.
  induction seen as [| [k' v] seen IH]; simpl; auto.
  destruct (String.eqb k k'); simpl; auto.
Qed.

Lemma normalizePackId_empty (P : Platform) :
  normalizePackId P (jstr EmptyString) = EmptyString.
Proof.
  unfold normalizePackId. simpl Js.asString. cbv iota.
  change (Str.trim EmptyString) with EmptyString.
  now rewrite (toLowerCase_ascii P EmptyString eq_refl).
Qed.

Lemma isDuplicateIssue_message (packId existing : string) :
  isDuplicateIssue (mkIssue error (duplicateMessage packId existing)) = true.
Proof. reflexivity. Qed.

Lemma seenGet_filled (seen : SeenMap) (k v : string) :
  filled seen -> seenGet seen k = Some v -> Str.isEmpty v = false.
Proof.
  induction 1 as [| [k' v'] seen Hv _ IH]; simpl; [discriminate |].
  destruct (String.eqb k k'); auto. intros H. injection H as <-. exact Hv.
Qed.

(** The duplicate check on a key: what it pushes, and the map it leaves. *)
Lemma checkDuplicate_outcome (P : Platform) (seen : SeenMap) (packId : string) :
  filled seen ->
  exists seen',
    result (checkDuplicate P seen packId) = Ok seen'
    /\ filled seen'
    /\ forall rest,
         (List.length (filter isDuplicateIssue (issued (checkDuplicate P seen packId)))
          + repeats (map fst seen') rest
          = repeats (map fst seen)
              (filter (fun id => negb (Str.isEmpty id)) [normalizePackId P (jstr packId)] ++ rest))%nat.
Proof.
  intros Hf. unfold checkDuplicate. cbv zeta.
  change (Some (JString packId)) with (jstr packId).
  cbn [filter].
  destruct (Str.isEmpty (normalizePackId P (jstr packId))) eqn:Hn; cbn [negb].
  - exists seen. repeat split; auto.
  - simpl app. cbn [repeats]. rewrite seenGet_has.
    destruct (seenGet seen (normalizePackId P (jstr packId))) as [existing |] eqn:Hg.
    + rewrite (seenGet_filled seen _ _ Hf Hg). simpl negb. cbv iota.
      exists seen. repeat split; auto.
    + exists (seenSet seen (normalizePackId P (jstr packId)) packId).
      repeat split; auto.
      constructor; auto. simpl.
      destruct packId; [| reflexivity].
      change (jstr EmptyString) with (jstr "") in Hn.
      rewrite normalizePackId_empty in Hn. discriminate Hn.
Qed.

Lemma filter_all {A : Type} (f : A -> bool) (l : list A) :
  Forall (fun x => f x = true) l -> filter f l = l.
Proof. induction 1 as [| x l Hx _ IH]; simpl; auto. now rewrite Hx, IH. Qed.

Lemma checkEntry_duplicates (P : Platform) (strictMode : bool) (seen : SeenMap)
      (index : nat) (pack : JSON) :
  filled seen ->
  entryUrlDecodes P pack = true ->
  exists seen',
    result (checkEntry P strictMode seen index pack) = Ok seen'
    /\ filled seen'
    /\ forall rest,
         (List.length (filter isDuplicateIssue (issued (checkEntry P strictMode seen index pack)))
          + repeats (map fst seen') rest
          = repeats (map fst seen)
              (filter (fun id => negb (Str.isEmpty id)) [normalizedId P pack] ++ rest))%nat.
Proof.
  intros Hf Hurl. unfold normalizedId.
  destruct (Js.notPlainObject (Some pack)) eqn:Hobj.
  - unfold checkEntry. rewrite Hobj. exists seen. repeat split; auto.
  - destruct (checkEntry_object P strictMode seen index pack Hobj Hurl)
      as (before & Nb & Hi & Hr).
    cbv zeta in Hi, Hr.
    destruct (checkDuplicate_outcome P seen (Js.trimmedOrEmpty (Js.prop pack "packId")) Hf)
      as (seen' & Hr' & Hf' & Hcount).
    exists seen'. rewrite Hr, Hi, filter_app, (filter_none _ _ Nb). auto.
Qed.

Lemma checkEntries_duplicates (P : Platform) (strictMode : bool)
      (packs : list (nat * JSON)) (seen : SeenMap) :
  filled seen ->
  forallb (fun e => entryUrlDecodes P (snd e)) packs = true ->
  result (checkEntries P strictMode seen packs) = Ok tt
  /\ List.length (filter isDuplicateIssue (issued (checkEntries P strictMode seen packs)))
     = repeats (map fst seen) (normalizedIds P (map snd packs)).
Proof.
  revert seen. induction packs as [| [index pack] rest IH]; intros seen Hf Hall.
  - split; reflexivity.
  - simpl in Hall. apply andb_true_iff in Hall as [Hurl Hall].
    destruct (checkEntry_duplicates P strictMode seen index pack Hf Hurl)
      as (seen' & Hr & Hf' & Hcount).
    destruct (IH seen' Hf' Hall) as [IHr IHc].
    simpl checkEntries.
    erewrite result_bind by exact Hr. erewrite issued_bind by exact Hr.
    split; [exact IHr |].
    rewrite filter_app, length_app, IHc.
    unfold normalizedIds. simpl map.
    change (filter (fun id => negb (Str.isEmpty id)) (normalizedId P pack :: map (normalizedId P) (map snd rest)))
      with (filter (fun id => negb (Str.isEmpty id)) ([normalizedId P pack] ++ map (normalizedId P) (map snd rest))).
    rewrite filter_app. apply Hcount.
Qed.

Lemma map_snd_entries {A : Type} (l : list A) : map snd (Js.entries l) = l.
Proof.
  unfold Js.entries. generalize 0. induction l as [| x l IH]; intros n; simpl; auto.
  now rewrite IH.
Qed.

Lemma has_In (set : list string) (x : string) : Arr.has set x = true <-> In x set.
Proof.
  unfold Arr.has. rewrite existsb_exists. split.
  - intros (y & Hy & E). apply String.eqb_eq in E. now subst.
  - intros H. exists x. split; auto. apply String.eqb_refl.
Qed.

Lemma repeats_none (ids earlier : list string) :
  repeats earlier ids = 0
  <-> NoDup ids /\ forall x, In x ids -> ~ In x earlier.
Proof.
  revert earlier. induction ids as [| id rest IH]; intros earlier; simpl.
  - split; auto. intros _. split; [constructor | contradiction].
  - destruct (Arr.has earlier id) eqn:H.
    + apply has_In in H. split; [discriminate |].
      intros [_ Hx]. elim (Hx id); auto.
    + assert (Hn : ~ In id earlier) by (rewrite <- has_In, H; discriminate).
      rewrite IH. split.
      * intros [Hd Hx]. split.
        -- constructor; auto. intros Hin. apply (Hx id Hin). now left.
        -- intros x [<- | Hin]; auto. intros He. apply (Hx x Hin). now right.
      * intros [Hd Hx]. inversion Hd as [| ? ? Hnot Hd']; subst. split; auto.
        intros x Hin [<- | He]; [contradiction |]. apply (Hx x); auto.
Qed.

(** X7. The duplicate check counts right: on a catalog none of whose
    entries makes [encodeURIComponent] or [decodeURIComponent] throw, the
    number of duplicate issues is the number of entries whose [packId], as
    [normalizePackId] gives it (trimmed, then lowered by the host's
    [toLowerCase]), repeats that of an earlier entry; so there is none
    exactly when the normalized ids are pairwise distinct. *)
Theorem validateCatalog_counts_duplicates (P : Platform) (strictMode : bool)
        (fields : list (string * JSON)) (packs : list JSON) :
  Js.assoc "packs" fields = Some (JArray packs) ->
  forallb (entryUrlDecodes P) packs = true ->
  exists issues,
    validateCatalog P (JObject fields) strictMode = Ok issues
    /\ List.length (filter isDuplicateIssue issues) = repeats [] (normalizedIds P packs)
    /\ (filter isDuplicateIssue issues = [] <-> NoDup (normalizedIds P packs)).
Proof.
  intros Hp Hall.
  rewrite (validateCatalog_outcome P fields _ strictMode Hp), Hall.
  eexists. split; [reflexivity |].
  assert (Hlen : List.length (filter isDuplicateIssue
                                (issued (validateCatalogRun P (JObject fields) strictMode)))
                 = repeats [] (normalizedIds P packs)).
  { unfold validateCatalogRun.
    change (Js.notPlainObject (Some (JObject fields))) with false.
    simpl Js.prop. rewrite Hp. cbv beta iota.
    assert (Hs : returns (checkSchemaVersion (JObject fields)))
      by (unfold checkSchemaVersion; run_auto).
    assert (Hg : returns (checkGeneratedAt P (JObject fields)))
      by (unfold checkGeneratedAt; run_auto).
    assert (Ns : allIssues notDuplicate (checkSchemaVersion (JObject fields)))
      by (unfold checkSchemaVersion; run_auto; reflexivity).
    assert (Ng : allIssues notDuplicate (checkGeneratedAt P (JObject fields)))
      by (unfold checkGeneratedAt; run_auto; reflexivity).
    assert (Nc : allIssues notDuplicate (checkSorted P strictMode packs))
      by (unfold checkSorted; run_auto; reflexivity).
    erewrite issued_bind by (apply returns_unit; exact Hs).
    erewrite issued_bind by (apply returns_unit; exact Hg).
    destruct (checkEntries_duplicates P strictMode (Js.entries packs) [])
      as [Re Ce]; [constructor | |].
    { unfold Js.entries. now rewrite forallb_entries. }
    erewrite issued_bind by exact Re.
    rewrite !filter_app, (filter_none _ _ Ns), (filter_none _ _ Ng), (filter_none _ _ Nc).
    rewrite map_snd_entries in Ce. simpl. rewrite app_nil_r. exact Ce. }
  split; [exact Hlen |].
  rewrite <- length_zero_iff_nil, Hlen, repeats_none.
  split; [now intros [H _] | intros H; split; auto].
Qed.

Lemma validateCatalog_counts_duplicates_witness :
  forallb (entryUrlDecodes Sample.host)
    [Sample.entry "Pub.Slug" "pub" "slug" Sample.goodUrl;
     Sample.entry "pub.slug" "pub" "slug" Sample.goodUrl] = true
  /\ exists issues,
       validateCatalog Sample.host (Sample.catalogTwoCases Sample.goodUrl) true = Ok issues
       /\ List.length (filter isDuplicateIssue issues) = 1.
Proof.
  split; [vm_compute; reflexivity |].
  destruct (validateCatalog_counts_duplicates Sample.host true
              [("schemaVersion", Sample.num 1);
               ("generatedAt", Sample.str "2024-05-01T10:00:00Z");
               ("packs", JArray [Sample.entry "Pub.Slug" "pub" "slug" Sample.goodUrl;
                                 Sample.entry "pub.slug" "pub" "slug" Sample.goodUrl])]
              _ eq_refl ltac:(vm_compute; reflexivity)) as (issues & H & Hlen & _).
  exists issues. split; [exact H | exact Hlen].
Defined.

(** ** Levels of the pack validator's issues *)

Ltac levels :=
  run_auto;
  try solve [ constructor | left; reflexivity | right; reflexivity
            | apply Forall_nil ].

Lemma checkGraph_levels (P : Platform) (manifestPath : string) (strictMode : bool)
      (entry : nat * JSON) :
  allIssues (levelOf strictMode) (checkGraph P manifestPath strictMode entry).
Proof.
  unfold checkGraph. destruct entry as [i graph].
  destruct strictMode; cbn [andb]; levels.
Qed.

Lemma profileEntries_levels (strictMode : bool) (profilePath : string)
      (commands : list (nat * JSON)) (sets : ProfileSets) :
  allIssues (levelOf strictMode) (profileEntries profilePath sets commands).
Proof.
  revert sets. induction commands as [| [index command] rest IH]; intros sets; simpl.
  - constructor.
  - apply allIssues_bind; [| intros; apply IH].
    unfold profileEntry, validateCommandShape. levels.
Qed.

Lemma validateProfile_levels (strictMode : bool) (fs : FileSystem) (profilePath : string) :
  allIssues (levelOf strictMode) (validateProfile fs profilePath).
Proof.
  unfold validateProfile. apply allIssues_bind; [constructor |].
  intros [[| | | | commands |] |]; levels.
  apply profileEntries_levels.
Qed.

Lemma addRefs_levels (strictMode : bool) (refs : list Js.value) (context : string)
      (referencedFiles : list string) :
  allIssues (levelOf strictMode) (addRefs referencedFiles refs context).
Proof.
  revert referencedFiles. induction refs as [| ref rest IH]; intros r; simpl.
  - constructor.
  - apply allIssues_bind; [| intros; apply IH]. unfold addRef. levels.
Qed.

Lemma verifyRef_levels (P : Platform) (strictMode : bool) (fs : FileSystem)
      (versionDir kind : string)
      (ref : Js.value) :
  allIssues (levelOf strictMode) (verifyRef P fs versionDir kind ref).
Proof.
  unfold allIssues.
  destruct (verifyRef_outcome P fs versionDir kind ref) as (_ & [-> | [[abs ->] | [rel ->]]]);
    repeat constructor.
Qed.

Lemma linkGraph_levels (strictMode : bool) (fs : FileSystem) (versionDir : string)
      (commandIds : list string) (graph : JSON) :
  allIssues (levelOf strictMode) (linkGraph fs versionDir commandIds graph).
Proof.
  unfold linkGraph.
  destruct (notObject (Some graph)); [constructor |].
  apply allIssues_bind; [levels |]. intros _.
  destruct (Js.asString (Js.prop graph "file")) as [file |]; [| constructor].
  apply allIssues_bind; [apply existsAsFile_levels |].
  intros [|]; [| constructor].
  apply allIssues_bind; [constructor |]. intros [v |]; levels.
Qed.

Lemma validateManifestFile_levels (P : Platform) (fs : FileSystem)
      (versionDir manifestPath : string) (strictMode : bool) :
  allIssues (levelOf strictMode)
    (validateManifestFile P fs versionDir manifestPath strictMode).
Proof.
  unfold validateManifestFile.
  apply allIssues_bind; [constructor |].
  intros [manifest |]; [| levels].
  destruct (Js.notPlainObject (Some manifest)); [levels |].
  apply allIssues_bind; [unfold checkRootShape; levels |]. intros _.
  apply allIssues_bind; [apply allIssues_forEach; intros [i a]; unfold checkAsset; levels |].
  intros _.
  apply allIssues_bind; [apply allIssues_forEach; intros; apply checkGraph_levels |].
  intros _.
  apply allIssues_bind.
  { unfold collectReferenced.
    apply allIssues_bind; [unfold addRef; levels |]. intros r1.
    apply allIssues_bind; [apply addRefs_levels |]. intros r2. apply addRefs_levels. }
  intros referencedFiles.
  apply allIssues_bind.
  { unfold verifyReferenced.
    repeat (apply allIssues_bind;
            [apply allIssues_forEach; intros; apply verifyRef_levels | intros _]).
    apply allIssues_forEach; intros; apply verifyRef_levels. }
  intros _.
  apply allIssues_bind.
  { unfold loadProfile.
    apply allIssues_bind; [levels |]. intros [p |]; [| constructor].
    apply allIssues_bind; [constructor |].
    intros [|]; [apply validateProfile_levels | constructor]. }
  intros commandIds.
  apply allIssues_bind; [apply allIssues_forEach; intros; apply linkGraph_levels |].
  intros _.
  apply allIssues_bind; [| intros; constructor].
  unfold detectExtras.
  apply allIssues_bind; [apply allIssues_silent, listFilesRecursive_silent |].
  intros allFiles. levels.
Qed.

Lemma directoriesAmong_levels (Q : Issue -> Prop) (fs : FileSystem) (dir : string)
      (names : list string) :
  allIssues Q (directoriesAmong fs dir names).
Proof.
  induction names as [| name rest IH]; simpl.
  - constructor.
  - apply allIssues_bind; [apply existsAsDirectory_levels |]. intros isDir.
    apply allIssues_bind; [exact IH | intros; constructor].
Qed.

Lemma validatePackRun_levels (P : Platform) (fs : FileSystem) (packId : string)
      (options : Options) :
  allIssues (levelOf (strict options)) (validatePackRun P fs packId options).
Proof.
  unfold validatePackRun. cbv zeta.
  apply allIssues_bind; [constructor |].
  intros [|]; simpl negb; cbv iota; [| levels].
  apply allIssues_bind; [constructor |].
  intros [packJson |]; [| levels].
  destruct (Js.notPlainObject (Some packJson)); [levels |].
  apply allIssues_bind; [unfold checkPackJson; levels |]. intros _.
  apply allIssues_bind; [apply existsAsDirectory_levels |].
  intros [|]; simpl negb; cbv iota; [| levels].
  apply allIssues_bind; [constructor |]. intros names.
  apply allIssues_bind; [apply directoriesAmong_levels |]. intros dirs.
  destruct (Nat.eqb _ 0); [levels |].
  apply allIssues_bind.
  - apply allIssues_forEach. intros version. unfold validateVersion. cbv zeta.
    apply allIssues_bind; [apply existsAsDirectory_levels |].
    intros [|]; simpl negb; cbv iota; [| levels].
    apply allIssues_bind; [apply existsAsFile_levels |].
    intros [|]; simpl negb; cbv iota; [| levels].
    apply allIssues_bind; [apply validateManifestFile_levels |].
    intros [m |]; levels.
  - intros _. unfold checkLatestVersion. levels.
Qed.

(** X8. The pack validator uses two levels in a run: [error], and for its
    advisory findings [warn] in strict mode and [info] otherwise.  With
    strict mode off, no issue it returns is a [warn]; with it on, none is an
    [info]. *)
Theorem validatePack_levels (P : Platform) (fs : FileSystem) (packId : string)
        (options : Options) (issues : list Issue) :
  validatePack P fs packId options = Ok issues ->
  Forall (fun i => issueLevel i = error
                   \/ issueLevel i = (if strict options then warn else info)) issues.
Proof.
  unfold validatePack. cbv zeta.
  pose proof (validatePackRun_levels P fs packId options) as H.
  destruct (result (validatePackRun P fs packId options)); [| discriminate].
  intros E. injection E as <-. exact H.
Qed.

(** ** The verification loop *)

Lemma asString_Some (v : Js.value) (s : string) :
  Js.asString v = Some s <-> v = Some (JString s).
Proof.
  destruct v as [[| | | | |] |]; simpl; split; intros H; try discriminate H;
    injection H as ->; reflexivity.
Qed.

Lemma propOpt_truthy (ref : Js.value) (k : string) (v : JSON) :
  Js.propOpt ref k = Some v -> Js.truthy ref = true.
Proof. destruct ref as [[| | | | |] |]; simpl; intros H; try discriminate H; reflexivity. Qed.

Lemma verifyRef_silent (P : Platform) (fs : FileSystem) (versionDir kind : string)
      (ref : Js.value) :
  issued (verifyRef P fs versionDir kind ref) = [] <-> intact P fs versionDir ref.
Proof.
  unfold verifyRef, intact.
  destruct (Js.asString (Js.propOpt ref "file")) as [file |] eqn:Ef.
  2: { destruct (Js.truthy ref); simpl; split; auto; intros _ file sha H.
       all: apply asString_Some in H; congruence. }
  destruct (Js.asString (Js.propOpt ref "sha256")) as [sha256 |] eqn:Es.
  2: { destruct (Js.truthy ref); simpl; split; auto; intros _ f sha _ H.
       all: apply asString_Some in H; congruence. }
  apply asString_Some in Ef, Es.
  rewrite (propOpt_truthy ref _ _ Ef). simpl negb. cbv iota.
  destruct (Str.isEmpty (Str.trim file)) eqn:Hrel.
  { split; auto. intros _ f sha Hf _ Hn. congruence. }
  set (abs := Path.join versionDir (Str.trim file)).
  destruct (existsAsFile_spec fs abs) as (R & I).
  erewrite issued_bind by exact R. rewrite I. simpl app.
  unfold sha256FileHex, Fs.isFileNode.
  destruct (Fs.node fs abs) as [[parsed digest | es |] |] eqn:Hnode; simpl.
  - unfold bind. simpl.
    destruct (String.eqb_spec (toLowerCase P digest) (toLowerCase P sha256)) as [E | N];
      simpl; split; auto.
    + intros _ f sha Hf Hs _. exists parsed, digest.
      assert (f = file) by congruence. assert (sha = sha256) by congruence. subst.
      fold abs. auto.
    + discriminate.
    + intros H. destruct (H file sha256 Ef Es Hrel) as (p & d & Hn & E).
      fold abs in Hn. congruence.
  - split; [discriminate |]. intros H.
    destruct (H file sha256 Ef Es Hrel) as (p & d & Hn & _). fold abs in Hn. congruence.
  - split; [discriminate |]. intros H.
    destruct (H file sha256 Ef Es Hrel) as (p & d & Hn & _). fold abs in Hn. congruence.
  - split; [discriminate |]. intros H.
    destruct (H file sha256 Ef Es Hrel) as (p & d & Hn & _). fold abs in Hn. congruence.
Qed.

Lemma flat_map_nil {A B : Type} (f : A -> list B) (l : list A) :
  flat_map f l = [] <-> forall x, In x l -> f x = [].
Proof.
  induction l as [| y l IH]; simpl.
  - split; auto. intros _ x [].
  - split.
    + intros H. apply app_eq_nil in H as [Hy Hl]. intros x [<- | Hx]; auto.
      now apply IH.
    + intros H. rewrite (H y) by auto. simpl. apply IH. auto.
Qed.

(** X9. The verification loop reports nothing exactly when, for every
    reference of the manifest that has a path and a digest, the path that
    [path.join] makes of the version directory and the trimmed [file],
    inside that directory or not, is that of a regular file whose SHA-256
    and the declared one are equal once [toLowerCase] has lowered both. *)
Theorem verification_silent_iff_intact (P : Platform) (fs : FileSystem) (versionDir : string)
        (manifest : JSON) :
  issued (verifyReferenced P fs versionDir manifest
            (arrayOrEmpty (Js.prop manifest "assets"))
            (arrayOrEmpty (Js.prop manifest "graphs"))) = []
  <-> forall kind ref, In (kind, ref) (references manifest) -> intact P fs versionDir ref.
Proof.
  rewrite issued_verifyReferenced, flat_map_nil. split.
  - intros H kind ref Hin. apply (verifyRef_silent P fs versionDir kind ref).
    exact (H (kind, ref) Hin).
  - intros H [kind ref] Hin. apply verifyRef_silent. exact (H kind ref Hin).
Qed.

(** ** The command ids of a profile *)

Lemma profileEntry_ids (profilePath : string) (sets : ProfileSets) (index : nat)
      (command : JSON) :
  exists sets',
    result (profileEntry profilePath sets index command) = Ok sets'
    /\ forall id, In id (commandIds sets')
                  <-> declaresId command id \/ In id (commandIds sets).
Proof.
  unfold profileEntry, declaresId.
  pose proof (returns_unit _ (validateCommandShape_returns command
                (Path.basename profilePath ++ "[" ++ Str.ofNat index ++ "]"))) as Hs.
  erewrite result_bind by exact Hs.
  destruct command as [| b | x | s | items | fields];
    try solve [exists sets; split; [reflexivity |]; intros id; split; auto;
               intros [(f & E & _) | H]; [discriminate E | exact H]].
  simpl Js.prop.
  destruct (Js.asString (Js.assoc "id" fields)) as [id0 |] eqn:Eid.
  - apply asString_Some in Eid.
    assert (Hres : exists seen',
               result (if Arr.has (seenIds sets) id0
                       then addIssue error ("Duplicate command id in profile: " ++ id0) ;;
                            ret (seenIds sets)
                       else ret (id0 :: seenIds sets)) = Ok seen').
    { destruct (Arr.has (seenIds sets) id0); eexists; reflexivity. }
    destruct Hres as [seen' Hres].
    erewrite result_bind by exact Hres.
    eexists. split; [reflexivity |]. cbn [commandIds].
    intros id. unfold jstr.
    destruct (isUuid (Some (JString id0))) eqn:Hu; simpl; split.
    + intros [<- | H]; auto. left. exists fields. auto.
    + intros [(f & E & Ha & _) | H]; auto.
      injection E as <-. left. congruence.
    + auto.
    + intros [(f & E & Ha & Hb) | H]; auto.
      injection E as <-. congruence.
  - exists sets. split; [reflexivity |]. intros id. split; auto.
    intros [(f & E & Ha & _) | H]; auto.
    injection E as <-. rewrite Ha in Eid. discriminate Eid.
Qed.

Lemma profileEntries_ids (profilePath : string) (commands : list (nat * JSON))
      (sets : ProfileSets) :
  exists sets',
    result (profileEntries profilePath sets commands) = Ok sets'
    /\ forall id, In id (commandIds sets')
                  <-> (exists command, In command (map snd commands) /\ declaresId command id)
                      \/ In id (commandIds sets).
Proof.
  revert sets. induction commands as [| [index command] rest IH]; intros sets.
  - exists sets. split; [reflexivity |]. intros id. split; auto.
    intros [(c & [] & _) | H]; exact H.
  - destruct (profileEntry_ids profilePath sets index command) as (s1 & H1 & I1).
    destruct (IH s1) as (s2 & H2 & I2).
    exists s2. rewrite profileEntries_cons. erewrite result_bind by exact H1.
    split; [exact H2 |]. intros id. rewrite I2, I1. simpl. split.
    + intros [(c & Hc & Hd) | [Hd | H]]; eauto.
    + intros [(c & [<- | Hc] & Hd) | H]; eauto.
Qed.

(** X10. The set [validateProfile] returns for a profile that is an array
    holds exactly the ids of its command objects that are UUID strings:
    a command whose id fails the UUID test adds nothing, a repeated id is
    there once it has been met, and nothing else gets in. *)
Theorem validateProfile_command_ids (fs : FileSystem) (profilePath : string)
        (commands : list JSON) :
  result (readJson fs profilePath) = Ok (Some (JArray commands)) ->
  exists ids,
    result (validateProfile fs profilePath) = Ok ids
    /\ forall id, In id ids
                  <-> exists command, In command commands /\ declaresId command id.
Proof.
  intros Hread. unfold validateProfile.
  erewrite result_bind by exact Hread. cbv beta iota.
  destruct (profileEntries_ids profilePath (Js.entries commands) noCommands)
    as (sets & Hr & Hi).
  exists (commandIds sets). erewrite result_bind by exact Hr.
  split; [reflexivity |]. intros id. rewrite Hi, map_snd_entries. simpl.
  split; [intros [H | []]; exact H | auto].
Qed.

(** ** Runs that stop at a file that does not load *)

Lemma result_bind_inv {A B : Type} (m : W A) (f : A -> W B) (b : B) :
  result (bind m f) = Ok b -> exists a, result m = Ok a /\ result (f a) = Ok b.
Proof.
  unfold bind. destruct (result m) as [a | e]; simpl; [eauto | discriminate].
Qed.

(** X11. [validateManifestFile] returns [null] exactly when the manifest
    does not load as an object; it has then pushed one error and has read
    the manifest file and nothing else. *)
Theorem validateManifestFile_null_iff_unloadable
        (P : Platform) (fs : FileSystem) (versionDir manifestPath : string)
        (strictMode : bool) :
  (result (validateManifestFile P fs versionDir manifestPath strictMode) = Ok None
   <-> forall manifest, ~ manifestLoads fs manifestPath manifest)
  /\ (result (validateManifestFile P fs versionDir manifestPath strictMode) = Ok None ->
      (exists msg,
         issued (validateManifestFile P fs versionDir manifestPath strictMode)
         = [mkIssue error msg])
      /\ calls (validateManifestFile P fs versionDir manifestPath strictMode)
         = [ReadFileSync manifestPath]).
Proof.
  assert (Hloaded : forall manifest, manifestLoads fs manifestPath manifest ->
            result (validateManifestFile P fs versionDir manifestPath strictMode) <> Ok None).
  { intros manifest Hl.
    destruct (validateManifestFile_through_verification P fs versionDir manifestPath
                strictMode manifest Hl) as (refs & _ & Hr & _).
    rewrite Hr. intros H.
    apply result_bind_inv in H as (ids & _ & H).
    apply result_bind_inv in H as (u1 & _ & H).
    apply result_bind_inv in H as (u2 & _ & H).
    discriminate H. }
  assert (Hnot : (forall manifest, ~ manifestLoads fs manifestPath manifest) ->
            result (validateManifestFile P fs versionDir manifestPath strictMode) = Ok None
            /\ (exists msg,
                  issued (validateManifestFile P fs versionDir manifestPath strictMode)
                  = [mkIssue error msg])
            /\ calls (validateManifestFile P fs versionDir manifestPath strictMode)
               = [ReadFileSync manifestPath]).
  { intros Hno. unfold validateManifestFile.
    destruct (returns_readJson fs manifestPath) as [loaded Hread].
    erewrite result_bind, issued_bind, calls_bind by exact Hread.
    assert (Hc : calls (readJson fs manifestPath) = [ReadFileSync manifestPath])
      by reflexivity.
    assert (Hi : issued (readJson fs manifestPath) = []) by reflexivity.
    rewrite Hc, Hi.
    destruct loaded as [manifest |]; [| simpl; eauto].
    destruct (Js.notPlainObject (Some manifest)) eqn:Hobj; [simpl; eauto |].
    elim (Hno manifest). split; assumption. }
  split; [split |].
  - intros H manifest Hl. exact (Hloaded manifest Hl H).
  - intros Hno. apply Hnot, Hno.
  - intros H. apply Hnot. intros manifest Hl. exact (Hloaded manifest Hl H).
Qed.

(** X12. A pack whose [pack.json] is missing, does not parse or is not an
    object: [validatePack] returns exactly one error, and has asked whether
    [pack.json] exists and read it, and touched nothing else, the versions
    directory included. *)
Theorem validatePack_stops_at_pack_json
        (P : Platform) (fs : FileSystem) (packId : string) (options : Options) :
  (forall packJson, ~ manifestLoads fs (packJsonPathOf packId) packJson) ->
  (exists msg, validatePack P fs packId options = Ok [mkIssue error msg])
  /\ forall c, In c (calls (validatePackRun P fs packId options)) ->
               c = ExistsSync (packJsonPathOf packId)
               \/ c = ReadFileSync (packJsonPathOf packId).
Proof.
  intros Hno. unfold validatePack, validatePackRun. cbv zeta.
  fold (packJsonPathOf packId).
  set (p := packJsonPathOf packId) in *.
  destruct (returns_existsSync fs p) as [e He].
  assert (Hc1 : calls (Fs.existsSync fs p) = [ExistsSync p]) by reflexivity.
  assert (Hi1 : issued (Fs.existsSync fs p) = []) by reflexivity.
  erewrite result_bind, issued_bind, calls_bind by exact He.
  rewrite Hc1, Hi1.
  destruct e; simpl negb; cbv iota.
  2: { simpl. split; [eauto |]. intros c [<- | []]. auto. }
  destruct (returns_readJson fs p) as [loaded Hread].
  assert (Hc2 : calls (readJson fs p) = [ReadFileSync p]) by reflexivity.
  assert (Hi2 : issued (readJson fs p) = []) by reflexivity.
  erewrite result_bind, issued_bind, calls_bind by exact Hread.
  rewrite Hc2, Hi2.
  assert (Hend : forall c, In c ([ExistsSync p] ++ [ReadFileSync p] ++ [])%list ->
                           c = ExistsSync p \/ c = ReadFileSync p).
  { intros c [<- | [<- | []]]; auto. }
  destruct loaded as [packJson |]; [| simpl; split; [eauto | exact Hend]].
  destruct (Js.notPlainObject (Some packJson)) eqn:Hobj;
    [simpl; split; [eauto | exact Hend] |].
  elim (Hno packJson). split; assumption.
Qed.

(** ** Segments of a normalized path *)

Lemma normalizeSegments_finalStack (a : bool) (segs stack : list string) :
  Path.normalizeSegments a stack segs = rev (finalStack a stack segs).
Proof.
  revert stack. induction segs as [| seg rest IH]; intros stack; simpl; auto.
  destruct (Str.isEmpty seg || String.eqb seg "."); auto.
  destruct (String.eqb seg ".."); auto.
  destruct stack as [| top below]; auto.
  destruct (String.eqb top ".."); auto.
Qed.

Lemma finalStack_app (a : bool) (l1 l2 stack : list string) :
  finalStack a stack (l1 ++ l2)%list = finalStack a (finalStack a stack l1) l2.
Proof.
  revert stack. induction l1 as [| seg rest IH]; intros stack; simpl; auto.
  destruct (Str.isEmpty seg || String.eqb seg "."); auto.
  destruct (String.eqb seg ".."); auto.
  destruct stack as [| top below]; auto.
  destruct (String.eqb top ".."); auto.
Qed.

Lemma properSegment_spec (seg : string) :
  properSegment seg = true ->
  Str.isEmpty seg || String.eqb seg "." = false /\ String.eqb seg ".." = false.
Proof.
  unfold properSegment. rewrite negb_true_iff, !orb_false_iff. tauto.
Qed.

Lemma finalStack_proper (a : bool) (segs stack : list string) :
  forallb properSegment segs = true ->
  finalStack a stack segs = (rev segs ++ stack)%list.
Proof.
  revert stack. induction segs as [| seg rest IH]; intros stack; simpl; auto.
  rewrite andb_true_iff. intros [Hs Hr].
  destruct (properSegment_spec seg Hs) as [-> ->].
  rewrite IH by exact Hr. now rewrite <- app_assoc.
Qed.

(** Once [..] is at the bottom of the stack it stays there. *)
Lemma finalStack_dots_stay (segs T : list string) :
  exists X, finalStack true (T ++ [".."])%list segs = (X ++ [".."])%list.
Proof.
  revert T. induction segs as [| seg rest IH]; intros T; simpl; eauto.
  destruct (Str.isEmpty seg || String.eqb seg "."); auto.
  destruct (String.eqb seg "..").
  - destruct T as [| top below]; simpl.
    + apply (IH [".."]).
    + destruct (String.eqb top ".."); [apply (IH (".." :: top :: below)) | apply IH].
  - apply (IH (seg :: T)).
Qed.

(** From a stack of proper segments, [normalizeString] ends with proper
    segments only, or with [..] at the bottom. *)
Lemma finalStack_proper_or_dots (segs T : list string) :
  forallb properSegment T = true ->
  forallb properSegment (finalStack true T segs) = true
  \/ exists X, finalStack true T segs = (X ++ [".."])%list.
Proof.
  revert T. induction segs as [| seg rest IH]; intros T HT; simpl; auto.
  destruct (Str.isEmpty seg || String.eqb seg ".") eqn:E1; auto.
  destruct (String.eqb seg "..") eqn:E2.
  - destruct T as [| top below].
    + right. apply (finalStack_dots_stay rest []).
    + simpl in HT. apply andb_true_iff in HT as [Htop Hbelow].
      destruct (properSegment_spec top Htop) as [_ ->]. auto.
  - apply IH. simpl. rewrite HT, andb_true_r.
    unfold properSegment. now rewrite E1, E2.
Qed.

(** A run that ends with proper segments only never looked below its
    starting stack: it does the same on top of any other stack. *)
Lemma finalStack_contained (a : bool) (segs T S : list string) :
  forallb properSegment T = true ->
  forallb properSegment (finalStack true T segs) = true ->
  finalStack a (T ++ S)%list segs = (finalStack true T segs ++ S)%list.
Proof.
  revert T. induction segs as [| seg rest IH]; intros T HT; simpl; auto.
  destruct (Str.isEmpty seg || String.eqb seg ".") eqn:E1; auto.
  destruct (String.eqb seg "..") eqn:E2.
  - destruct T as [| top below].
    + intros H. exfalso.
      destruct (finalStack_dots_stay rest []) as [X HX]. simpl in HX.
      rewrite HX, forallb_app in H. simpl in H. now rewrite andb_false_r in H.
    + simpl in HT. apply andb_true_iff in HT as [Htop Hbelow].
      destruct (properSegment_spec top Htop) as [_ E]. simpl. rewrite E.
      apply IH. exact Hbelow.
  - intros H. apply (IH (seg :: T)); auto.
    simpl. rewrite HT, andb_true_r. unfold properSegment. now rewrite E1, E2.
Qed.

(** Without [allowAboveRoot], proper segments stay proper. *)
Lemma finalStack_rooted_proper (segs T : list string) :
  forallb properSegment T = true ->
  forallb properSegment (finalStack false T segs) = true.
Proof.
  revert T. induction segs as [| seg rest IH]; intros T HT; simpl; auto.
  destruct (Str.isEmpty seg || String.eqb seg ".") eqn:E1; auto.
  destruct (String.eqb seg "..") eqn:E2.
  - destruct T as [| top below]; auto.
    simpl in HT. apply andb_true_iff in HT as [Htop Hbelow].
    destruct (properSegment_spec top Htop) as [_ ->]. auto.
  - apply IH. simpl. rewrite HT, andb_true_r. unfold properSegment. now rewrite E1, E2.
Qed.

Lemma finalStack_kept (a : bool) (segs T : list string) :
  forallb keptSegment T = true -> forallb keptSegment (finalStack a T segs) = true.
Proof.
  revert T. induction segs as [| seg rest IH]; intros T HT; simpl; auto.
  destruct (Str.isEmpty seg || String.eqb seg ".") eqn:E1; auto.
  destruct (String.eqb seg "..") eqn:E2.
  - destruct T as [| top below].
    + destruct a; apply IH; reflexivity.
    + destruct (String.eqb top "..").
      * destruct a; apply IH; auto.
      * apply IH. simpl in HT. now apply andb_true_iff in HT as [_ ?].
  - apply IH. simpl. rewrite HT, andb_true_r. unfold keptSegment. now rewrite E1.
Qed.

(** Normalizing the segments a normalization kept changes nothing more:
    from any stack when the first kept leading [..], from the root when it
    did not. *)
Lemma finalStack_again_relative (segs T S : list string) :
  forallb keptSegment T = true ->
  finalStack false S (rev (finalStack true T segs))
  = finalStack false (finalStack false S (rev T)) segs.
Proof.
  revert T. induction segs as [| seg rest IH]; intros T HT; simpl; auto.
  destruct (Str.isEmpty seg || String.eqb seg ".") eqn:E1; auto.
  destruct (String.eqb seg "..") eqn:E2.
  - apply String.eqb_eq in E2. subst seg.
    assert (Hpush : forall T', forallb keptSegment T' = true ->
              finalStack false S (rev (finalStack true (".." :: T') rest))
              = match finalStack false S (rev T') with
                | top :: below =>
                    if String.eqb top ".."
                    then finalStack false (finalStack false S (rev T')) rest
                    else finalStack false below rest
                | [] => finalStack false [] rest
                end).
    { intros T' HT'. rewrite IH by (simpl; exact HT').
      simpl rev. rewrite finalStack_app. simpl.
      destruct (finalStack false S (rev T')) as [| top below]; auto.
      destruct (String.eqb top ".."); auto. }
    destruct T as [| top below].
    + apply (Hpush []). reflexivity.
    + destruct (String.eqb top "..") eqn:Et.
      * apply Hpush. exact HT.
      * simpl in HT. apply andb_true_iff in HT as [Htop Hbelow].
        rewrite IH by exact Hbelow. simpl rev. rewrite finalStack_app. simpl.
        unfold keptSegment in Htop. apply negb_true_iff in Htop. rewrite Htop, Et.
        simpl. rewrite Et. reflexivity.
  - rewrite IH.
    + simpl rev. rewrite finalStack_app. simpl. rewrite E1, E2. reflexivity.
    + simpl. rewrite HT, andb_true_r. unfold keptSegment. now rewrite E1.
Qed.

Lemma forallb_rev {A : Type} (f : A -> bool) (l : list A) :
  forallb f l = true -> forallb f (rev l) = true.
Proof.
  rewrite !forallb_forall. intros H x Hx. apply H. now apply in_rev.
Qed.

Lemma finalStack_again_rooted (segs : list string) :
  finalStack false [] (rev (finalStack false [] segs)) = finalStack false [] segs.
Proof.
  rewrite finalStack_proper.
  - now rewrite rev_involutive, app_nil_r.
  - apply forallb_rev, finalStack_rooted_proper. reflexivity.
Qed.

(** ** [split] and [join], continued *)

Lemma splitChars_app_sep (sep : ascii) (l1 l2 cur : list ascii) :
  Str.splitChars sep cur (l1 ++ sep :: l2)%list
  = (Str.splitChars sep cur l1 ++ Str.splitChars sep [] l2)%list.
Proof.
  revert cur. induction l1 as [| c l1 IH]; intros cur; simpl.
  - now rewrite Ascii.eqb_refl.
  - destruct (Ascii.eqb c sep); [now rewrite IH | apply IH].
Qed.

Lemma split_app_sep (sep : ascii) (a b : string) :
  Str.split sep (a ++ String sep b) = (Str.split sep a ++ Str.split sep b)%list.
Proof.
  unfold Str.split. rewrite chars_app.
  change (Str.chars (String sep b)) with (sep :: Str.chars b).
  apply splitChars_app_sep.
Qed.

Lemma splitChars_without (sep : ascii) (l cur : list ascii) :
  existsb (Ascii.eqb sep) l = false ->
  Str.splitChars sep cur l = [Str.ofChars (rev cur ++ l)%list].
Proof.
  revert cur. induction l as [| c l IH]; intros cur; simpl.
  - now rewrite app_nil_r.
  - rewrite orb_false_iff, Ascii.eqb_sym. intros [-> H].
    rewrite IH by exact H. simpl. now rewrite <- app_assoc.
Qed.

Lemma split_without (sep : ascii) (s : string) :
  without sep s = true -> Str.split sep s = [s].
Proof.
  unfold without, Str.split. rewrite negb_true_iff. intros H.
  rewrite splitChars_without by exact H. simpl. now rewrite ofChars_chars.
Qed.

Lemma existsb_rev {A : Type} (f : A -> bool) (l : list A) :
  existsb f (rev l) = existsb f l.
Proof.
  induction l as [| x l IH]; simpl; auto.
  rewrite existsb_app, IH. simpl. rewrite orb_false_r. apply orb_comm.
Qed.

Lemma splitChars_parts (sep : ascii) (l cur : list ascii) :
  existsb (Ascii.eqb sep) cur = false ->
  forallb (without sep) (Str.splitChars sep cur l) = true.
Proof.
  revert cur. induction l as [| c l IH]; intros cur Hcur; simpl.
  - unfold without. rewrite chars_ofChars, existsb_rev, Hcur. reflexivity.
  - destruct (Ascii.eqb c sep) eqn:E; simpl.
    + unfold without at 1. rewrite chars_ofChars, existsb_rev, Hcur. simpl.
      apply IH. reflexivity.
    + apply IH. simpl. now rewrite Ascii.eqb_sym, E.
Qed.

Lemma split_parts (sep : ascii) (s : string) :
  forallb (without sep) (Str.split sep s) = true.
Proof. apply splitChars_parts. reflexivity. Qed.

(** [parts.join(sep).split(sep)] is [parts], for parts without [sep]. *)
Lemma join_split (sep : ascii) (parts : list string) :
  parts <> [] ->
  forallb (without sep) parts = true ->
  Str.split sep (Str.join (String sep EmptyString) parts) = parts.
Proof.
  unfold Str.join. induction parts as [| x [| y rest] IH]; intros Hne H.
  - contradiction.
  - simpl in *. apply split_without. now rewrite andb_true_r in H.
  - rewrite concat_cons by discriminate.
    change (String sep EmptyString ++ String.concat (String sep EmptyString) (y :: rest))
      with (String sep (String.concat (String sep EmptyString) (y :: rest))).
    rewrite split_app_sep. simpl in H. apply andb_true_iff in H as [Hx H].
    rewrite (split_without sep x Hx), IH; [reflexivity | discriminate | exact H].
Qed.

Lemma prefix_empty (s : string) : String.prefix EmptyString s = true.
Proof. destruct s; reflexivity. Qed.

Lemma startsWith_cons (c d : ascii) (s : string) :
  Str.startsWith (String c s) (String d EmptyString) = Ascii.eqb d c.
Proof.
  unfold Str.startsWith. cbn [String.prefix].
  destruct (Ascii.ascii_dec d c) as [-> | N].
  - now rewrite prefix_empty, Ascii.eqb_refl.
  - symmetry. now apply Ascii.eqb_neq.
Qed.

(** ** [path.normalize] keeps what a path names *)

Lemma forallb_impl {A : Type} (f g : A -> bool) (l : list A) :
  (forall x, f x = true -> g x = true) -> forallb f l = true -> forallb g l = true.
Proof. rewrite !forallb_forall. auto. Qed.

Lemma finalStack_without (a : bool) (segs T : list string) :
  forallb (without Path.slash) T = true ->
  forallb (without Path.slash) segs = true ->
  forallb (without Path.slash) (finalStack a T segs) = true.
Proof.
  revert T. induction segs as [| seg rest IH]; intros T HT Hs; simpl; auto.
  simpl in Hs. apply andb_true_iff in Hs as [Hseg Hrest].
  destruct (Str.isEmpty seg || String.eqb seg "."); auto.
  destruct (String.eqb seg "..").
  - destruct T as [| top below].
    + destruct a; apply IH; auto.
    + destruct (String.eqb top "..").
      * destruct a; apply IH; auto.
      * apply IH; auto. simpl in HT. now apply andb_true_iff in HT as [_ ?].
  - apply IH; auto. simpl. now rewrite Hseg, HT.
Qed.

Lemma normalizedSegments_kept (p : string) :
  forallb keptSegment (normalizedSegments p) = true
  /\ forallb (without Path.slash) (normalizedSegments p) = true.
Proof.
  unfold normalizedSegments. rewrite normalizeSegments_finalStack. split.
  - apply forallb_rev, finalStack_kept. reflexivity.
  - apply forallb_rev, finalStack_without; [reflexivity | apply split_parts].
Qed.

Lemma join_nonempty (parts : list string) :
  parts <> [] -> forallb keptSegment parts = true ->
  Str.isEmpty (Str.join "/" parts) = false.
Proof.
  destruct parts as [| x rest]; [contradiction |]. intros _ H.
  simpl in H. apply andb_true_iff in H as [Hx _].
  unfold keptSegment in Hx. apply negb_true_iff, orb_false_iff in Hx as [Hx _].
  destruct x as [| c x]; [discriminate Hx |].
  unfold Str.join. destruct rest; reflexivity.
Qed.

Lemma join_relative (parts : list string) (suffix : string) :
  parts <> [] -> forallb keptSegment parts = true ->
  forallb (without Path.slash) parts = true ->
  Path.isAbsolute (Str.join "/" parts ++ suffix) = false.
Proof.
  destruct parts as [| x rest]; [contradiction |]. intros _ H Hs.
  simpl in H, Hs. apply andb_true_iff in H as [Hx _]. apply andb_true_iff in Hs as [Hsx _].
  unfold keptSegment in Hx. apply negb_true_iff, orb_false_iff in Hx as [Hx _].
  destruct x as [| c x]; [discriminate Hx |].
  unfold without in Hsx. change (Str.chars (String c x)) with (c :: Str.chars x) in Hsx.
  simpl in Hsx. apply negb_true_iff, orb_false_iff in Hsx as [Hc _].
  unfold Path.isAbsolute, Str.join.
  assert (E : exists tail, String.concat "/" (String c x :: rest) ++ suffix = String c tail).
  { destruct rest; simpl; eauto. }
  destruct E as [tail ->]. rewrite startsWith_cons. exact Hc.
Qed.

Lemma finalStack_skip (a : bool) (S skipped : list string) :
  forallb (fun seg => Str.isEmpty seg || String.eqb seg ".") skipped = true ->
  finalStack a S skipped = S.
Proof.
  induction skipped as [| seg rest IH]; simpl; auto.
  rewrite andb_true_iff. intros [-> H]. auto.
Qed.

(** Normalizing a normalized path: the stack from [S] after the segments
    of [path.normalize(p)] is the one after the segments [normalizeString]
    kept. *)
Lemma finalStack_normalize (p : string) (S : list string) :
  Str.isEmpty p = false ->
  finalStack false S (Str.split Path.slash (Path.normalize p))
  = finalStack false S (normalizedSegments p)
  /\ Path.isAbsolute (Path.normalize p) = Path.isAbsolute p.
Proof.
  intros Hp. unfold Path.normalize. rewrite Hp. cbv zeta.
  fold (normalizedSegments p).
  destruct (normalizedSegments_kept p) as [Hk Hs].
  destruct (normalizedSegments p) as [| x rest] eqn:EN.
  - simpl Str.join. simpl Str.isEmpty. cbv iota.
    destruct (Path.isAbsolute p); [split; reflexivity |].
    destruct (Str.endsWith p "/"); split; reflexivity.
  - rewrite <- EN in *.
    assert (Hne : normalizedSegments p <> []) by (rewrite EN; discriminate).
    rewrite (join_nonempty _ Hne Hk).
    set (body := Str.join "/" (normalizedSegments p)).
    assert (Hsplit : Str.split Path.slash body = normalizedSegments p)
      by (apply join_split; assumption).
    assert (Hsplit' : Str.split Path.slash (body ++ "/")
                      = (normalizedSegments p ++ [EmptyString])%list).
    { change (body ++ "/") with (body ++ String Path.slash EmptyString).
      rewrite split_app_sep, Hsplit. reflexivity. }
    assert (Hrel : forall suffix, Path.isAbsolute (body ++ suffix) = false)
      by (intros; apply join_relative; assumption).
    assert (Habs' : forall tail, Path.isAbsolute (String Path.slash tail) = true).
    { intros tail. unfold Path.isAbsolute. now rewrite startsWith_cons. }
    destruct (Path.isAbsolute p) eqn:Habs; destruct (Str.endsWith p "/"); split.
    + change ("/" ++ body ++ "/") with (EmptyString ++ String Path.slash (body ++ "/")).
      rewrite split_app_sep, Hsplit'.
      change (Str.split Path.slash EmptyString) with [EmptyString].
      rewrite !finalStack_app. reflexivity.
    + apply Habs'.
    + change ("/" ++ body) with (EmptyString ++ String Path.slash body).
      rewrite split_app_sep, Hsplit. reflexivity.
    + apply Habs'.
    + rewrite Hsplit', finalStack_app. reflexivity.
    + apply Hrel.
    + now rewrite Hsplit.
    + rewrite <- (Hrel EmptyString). f_equal.
      apply chars_inj. rewrite chars_app. simpl. now rewrite app_nil_r.
Qed.

(** [path.normalize] does not change the place a path names. *)
Lemma segments_normalize (fs : FileSystem) (p : string) :
  Str.isEmpty p = false -> Fs.segments fs (Path.normalize p) = Fs.segments fs p.
Proof.
  intros Hp. unfold Fs.segments.
  destruct (finalStack_normalize p
              (if Path.isAbsolute p then [] else rev (fsCwd fs)) Hp) as [Hf Ha].
  rewrite Ha, !normalizeSegments_finalStack, Hf. f_equal.
  unfold normalizedSegments. rewrite normalizeSegments_finalStack.
  destruct (Path.isAbsolute p); simpl negb.
  - apply finalStack_again_rooted.
  - rewrite (finalStack_again_relative _ [] _ eq_refl). reflexivity.
Qed.

(** ** Safe relative paths stay inside *)

Lemma startsWith_dots (rest : list string) (suffix : string) :
  Str.startsWith (Str.join "/" (".." :: rest) ++ suffix) ".." = true.
Proof.
  assert (E : exists tail,
             Str.join "/" (".." :: rest) ++ suffix = String "." (String "." tail)).
  { unfold Str.join. destruct rest; simpl; eauto. }
  destruct E as [tail ->]. unfold Str.startsWith. cbn [String.prefix].
  destruct (Ascii.ascii_dec "." ".") as [_ | N]; [| now elim N].
  apply prefix_empty.
Qed.

Lemma append_empty (s : string) : s ++ EmptyString = s.
Proof. induction s as [| c s IH]; simpl; auto. now rewrite IH. Qed.

(** What [isSafeRelativePath] accepts: the trimmed path is not empty,
    is relative, and normalizes to proper segments only. *)
Lemma isSafeRelativePath_segments (rel : string) :
  isSafeRelativePath (jstr rel) = true ->
  Str.isEmpty (Str.trim rel) = false
  /\ Path.isAbsolute (Str.trim rel) = false
  /\ forallb properSegment (segmentsBelow (Str.trim rel)) = true.
Proof.
  unfold isSafeRelativePath. simpl Js.asString. cbv iota zeta.
  set (raw := Str.trim rel).
  destruct (Str.isEmpty raw) eqn:He; [discriminate |].
  destruct (Str.includes raw _); [discriminate |].
  destruct (Str.includes raw _); [discriminate |].
  destruct (Path.isAbsolute raw) eqn:Ha; [discriminate |].
  destruct (String.eqb (Path.normalize raw) "." || Str.startsWith (Path.normalize raw) ".."
            || Str.includes (Path.normalize raw) "/../") eqn:Hn; [discriminate |].
  intros _. repeat split.
  apply orb_false_iff in Hn as [Hn _]. apply orb_false_iff in Hn as [_ Hdots].
  unfold segmentsBelow. rewrite normalizeSegments_finalStack.
  destruct (finalStack_proper_or_dots (Str.split Path.slash raw) [] eq_refl) as [H | [X H]].
  - now apply forallb_rev.
  - exfalso. revert Hdots. unfold Path.normalize. rewrite He. cbv zeta.
    rewrite !Ha. simpl negb.
    rewrite normalizeSegments_finalStack, H, rev_app_distr. simpl rev. simpl app.
    assert (Hne : Str.isEmpty (Str.join "/" (".." :: rev X)) = false).
    { unfold Str.join. destruct (rev X); reflexivity. }
    rewrite Hne.
    destruct (Str.endsWith raw "/").
    + rewrite startsWith_dots. discriminate.
    + pose proof (startsWith_dots (rev X) EmptyString) as Hd.
      rewrite append_empty in Hd. rewrite Hd. discriminate.
Qed.

Lemma isAbsolute_join_first (a b : string) :
  Str.isEmpty a = false -> Path.isAbsolute (a ++ "/" ++ b) = Path.isAbsolute a.
Proof.
  destruct a as [| c a]; [discriminate |]. intros _.
  unfold Path.isAbsolute. change (String c a ++ "/" ++ b) with (String c (a ++ "/" ++ b)).
  now rewrite !startsWith_cons.
Qed.

(** Joining a directory and a relative path that normalizes to proper
    segments: the place named is the directory's, then those segments. *)
Lemma segments_join_below (fs : FileSystem) (dir rel : string) :
  Str.isEmpty dir = false ->
  Str.isEmpty rel = false ->
  forallb properSegment (segmentsBelow rel) = true ->
  Fs.segments fs (Path.join dir rel) = (Fs.segments fs dir ++ segmentsBelow rel)%list.
Proof.
  intros Hd Hr Hproper. unfold Path.join. rewrite Hd, Hr.
  rewrite segments_normalize.
  2: { destruct dir; [discriminate | reflexivity]. }
  unfold Fs.segments. rewrite (isAbsolute_join_first dir rel Hd).
  change (dir ++ "/" ++ rel) with (dir ++ String Path.slash rel).
  rewrite split_app_sep, !normalizeSegments_finalStack, finalStack_app.
  unfold segmentsBelow in *. rewrite normalizeSegments_finalStack in *.
  set (S := finalStack false (if Path.isAbsolute dir then [] else rev (fsCwd fs))
              (Str.split Path.slash dir)).
  assert (Hp : forallb properSegment (finalStack true [] (Str.split Path.slash rel)) = true).
  { rewrite <- (rev_involutive (finalStack _ _ _)). now apply forallb_rev. }
  rewrite (finalStack_contained false (Str.split Path.slash rel) [] S eq_refl Hp
           : finalStack false S (Str.split Path.slash rel) = _).
  apply rev_app_distr.
Qed.

(** X13. A path [isSafeRelativePath] accepts stays inside the directory it
    is joined to: the place [path.join(dir, path)] names is the place [dir]
    names followed by segments that are neither empty, nor [.], nor [..]. *)
Theorem safe_path_stays_inside (fs : FileSystem) (dir rel : string) :
  Str.isEmpty dir = false ->
  isSafeRelativePath (jstr rel) = true ->
  forallb properSegment (segmentsBelow (Str.trim rel)) = true
  /\ Fs.segments fs (Path.join dir (Str.trim rel))
     = (Fs.segments fs dir ++ segmentsBelow (Str.trim rel))%list.
Proof.
  intros Hd Hsafe.
  destruct (isSafeRelativePath_segments rel Hsafe) as (He & _ & Hp).
  split; [exact Hp |]. now apply segments_join_below.
Qed.

Lemma safe_path_stays_inside_witness :
  Fs.segments Sample.repoExtra (Path.join Sample.versionDir (Str.trim " a/../graphs/./g.json "))
  = (Fs.segments Sample.repoExtra Sample.versionDir ++ ["graphs"; "g.json"])%list.
Proof.
  exact (proj2 (safe_path_stays_inside Sample.repoExtra Sample.versionDir
                  " a/../graphs/./g.json " eq_refl eq_refl)).
Defined.

(** ** [trim] is idempotent *)

Ltac settle_same := simpl; intros; first [reflexivity | assumption | discriminate].

(** White space at the head of a list is white space at the head of any
    list that extends it. *)
Lemma wsLen_prefix (u v : list N) : Str.wsLen (u ++ v)%list = 0 -> Str.wsLen u = 0.
Proof.
  destruct u as [| a [| b [| c u]]]; [reflexivity | | |].
  - destruct a as [| p]; [settle_same |].
    crack_with settle_same p.
  - destruct a as [| p]; [settle_same |].
    crack_with
      ltac:(first [settle_same | destruct b as [| q]; [settle_same | crack_with settle_same q]])
      p.
  - destruct a as [| p]; [settle_same |].
    crack_with
      ltac:(first [settle_same
                  | destruct b as [| q]; [settle_same |];
                    crack_with
                      ltac:(first [settle_same
                                  | destruct c as [| r];
                                    [settle_same | crack_with settle_same r]])
                      q])
      p.
Qed.

Lemma strip_done (len : list N -> nat) (fuel : nat) (l : list ascii) :
  len [] = 0 -> List.length l <= fuel -> len (map Str.code (Str.strip len fuel l)) = 0.
Proof.
  intros Hnil. revert l. induction fuel as [| fuel IH]; intros l Hl; cbn [Str.strip].
  - destruct l; [exact Hnil | simpl in Hl; lia].
  - destruct (len (map Str.code l)) as [| k] eqn:E; [exact E |].
    apply IH. rewrite length_skipn. lia.
Qed.

Lemma strip_suffix (len : list N -> nat) (fuel : nat) (l : list ascii) :
  exists removed, l = (removed ++ Str.strip len fuel l)%list.
Proof.
  revert l. induction fuel as [| fuel IH]; intros l; cbn [Str.strip].
  - exists []. reflexivity.
  - destruct (len (map Str.code l)) as [| k]; [exists []; reflexivity |].
    destruct (IH (skipn (S k) l)) as [r Hr].
    exists (firstn (S k) l ++ r)%list.
    rewrite <- app_assoc, <- Hr. symmetry. apply firstn_skipn.
Qed.

Lemma trim_idempotent (s : string) : Str.trim (Str.trim s) = Str.trim s.
Proof.
  unfold Str.trim. cbv zeta.
  set (l1 := Str.strip Str.wsLen (List.length (Str.chars s)) (Str.chars s)).
  set (t := Str.strip Str.wsLenRev (List.length l1) (rev l1)).
  rewrite chars_ofChars.
  assert (H1 : Str.wsLen (map Str.code l1) = 0) by (apply strip_done; auto).
  assert (Ht : Str.wsLenRev (map Str.code t) = 0).
  { apply strip_done; [reflexivity |]. now rewrite length_rev. }
  destruct (strip_suffix Str.wsLenRev (List.length l1) (rev l1)) as [r Hr].
  fold t in Hr.
  assert (Hl1 : l1 = (rev t ++ rev r)%list).
  { rewrite <- (rev_involutive l1), Hr, rev_app_distr. reflexivity. }
  assert (H2 : Str.wsLen (map Str.code (rev t)) = 0).
  { apply (wsLen_prefix _ (map Str.code (rev r))). rewrite <- map_app, <- Hl1. exact H1. }
  rewrite (strip_head _ _ _ H2), rev_involutive, (strip_head _ _ _ Ht).
  reflexivity.
Qed.

(** ** Referenced files lie inside the version directory *)

Lemma addRef_files (referencedFiles : list string) (ref : Js.value) (context : string) :
  Forall filedPath referencedFiles ->
  forall out, result (addRef referencedFiles ref context) = Ok out -> Forall filedPath out.
Proof.
  intros Hin out. unfold addRef.
  destruct (Js.truthy ref); simpl negb; cbv iota;
    [| intros H; injection H as <-; exact Hin].
  destruct (Js.asString (Js.propOpt ref "file")) as [file |];
    [| intros H; injection H as <-; exact Hin].
  destruct (Str.isEmpty (Str.trim file));
    [intros H; injection H as <-; exact Hin |].
  destruct (isSafeRelativePath (Some (JString (Str.trim file)))) eqn:E; simpl.
  - intros H; injection H as <-. constructor; [| exact Hin].
    split; [apply trim_idempotent | exact E].
  - intros H; injection H as <-. exact Hin.
Qed.

Lemma addRefs_files (refs : list Js.value) (context : string)
      (referencedFiles : list string) :
  Forall filedPath referencedFiles ->
  forall out, result (addRefs referencedFiles refs context) = Ok out -> Forall filedPath out.
Proof.
  revert referencedFiles. induction refs as [| ref rest IH]; intros r Hin out; simpl.
  - intros H; injection H as <-; exact Hin.
  - destruct (addRef_returns r ref context) as [r' Hr'].
    erewrite result_bind by exact Hr'.
    apply IH. eapply addRef_files; eassumption.
Qed.

(** X14. Every path the manifest validator files as referenced lies inside
    the version directory: joined to the directory, it names the place of the
    directory followed by segments that are neither empty, nor [.], nor [..]. *)
Theorem referenced_files_stay_inside
        (fs : FileSystem) (versionDir : string) (manifest : JSON)
        (assets graphs : list JSON) (referencedFiles : list string) (rel : string) :
  Str.isEmpty versionDir = false ->
  result (collectReferenced manifest assets graphs) = Ok referencedFiles ->
  In rel referencedFiles ->
  forallb properSegment (segmentsBelow rel) = true
  /\ Fs.segments fs (Path.join versionDir rel)
     = (Fs.segments fs versionDir ++ segmentsBelow rel)%list.
Proof.
  intros Hd Hc Hin.
  assert (Hall : Forall filedPath referencedFiles).
  { revert Hc. unfold collectReferenced.
    destruct (addRef_returns [] (Js.prop manifest "profile") "profile") as [r1 H1].
    erewrite result_bind by exact H1.
    destruct (addRefs_returns (map Some assets) r1 "asset") as [r2 H2].
    erewrite result_bind by exact H2.
    apply addRefs_files.
    eapply addRefs_files; [| exact H2].
    eapply addRef_files; [constructor | exact H1]. }
  rewrite Forall_forall in Hall. destruct (Hall rel Hin) as [Ht Hs].
  destruct (isSafeRelativePath_segments rel Hs) as (He & _ & Hp).
  rewrite Ht in He, Hp. split; [exact Hp |]. now apply segments_join_below.
Qed.

Lemma referenced_files_stay_inside_witness :
  result (collectReferenced
            (Sample.manifestOf "1.0.0" (Sample.fileRef "profile.json" Sample.digestA)
               [Sample.graphRef])
            [] [Sample.graphRef])
  = Ok ["graphs/123e4567-e89b-42d3-a456-426614174000.json"; "profile.json"]
  /\ Fs.segments Sample.repoDuplicate
       (Path.join Sample.versionDir "graphs/123e4567-e89b-42d3-a456-426614174000.json")
     = (Fs.segments Sample.repoDuplicate Sample.versionDir
        ++ ["graphs"; "123e4567-e89b-42d3-a456-426614174000.json"])%list.
Proof.
  split; [reflexivity |].
  refine (proj2 (referenced_files_stay_inside Sample.repoDuplicate Sample.versionDir
                   (Sample.manifestOf "1.0.0" (Sample.fileRef "profile.json" Sample.digestA)
                      [Sample.graphRef])
                   [] [Sample.graphRef] _ _ eq_refl eq_refl _)).
  left. reflexivity.
Defined.

(** ** Witnesses *)

Lemma validateProfile_command_ids_witness :
  exists ids,
    result (validateProfile Sample.repoDuplicate
              "packs/pub.slug/versions/1.0.0/profile.json") = Ok ids
    /\ forall id, In id ids
                  <-> exists command, In command Sample.twoCommands /\ declaresId command id.
Proof.
  exact (validateProfile_command_ids Sample.repoDuplicate
           "packs/pub.slug/versions/1.0.0/profile.json" Sample.twoCommands eq_refl).
Defined.

Lemma validatePack_levels_witness :
  validatePack Sample.host Sample.repoExtra "pub.slug" strictOptions
  = Ok [mkIssue warn "Version folder contains 1 unreferenced file(s): notes.txt"]
  /\ Forall (fun i => issueLevel i = error \/ issueLevel i = warn)
       [mkIssue warn "Version folder contains 1 unreferenced file(s): notes.txt"].
Proof.
  split; [vm_compute; reflexivity |].
  apply (validatePack_levels Sample.host Sample.repoExtra "pub.slug" strictOptions).
  vm_compute. reflexivity.
Defined.

Lemma validatePack_stops_at_pack_json_witness :
  exists msg,
    validatePack Sample.host emptyRepo "pub.slug" Sample.defaults = Ok [mkIssue error msg].
Proof.
  refine (proj1 (validatePack_stops_at_pack_json Sample.host emptyRepo "pub.slug"
                   Sample.defaults _)).
  intros packJson [H _]. vm_compute in H. discriminate H.
Defined.

(** ** What the pack validator throws *)

Lemma throwsOnly_returns {A : Type} (Q : exn -> Prop) (m : W A) :
  returns m -> throwsOnly Q m.
Proof. intros [a Ha] e He. rewrite Ha in He. discriminate He. Qed.

Lemma throwsOnly_bind {A B : Type} (Q : exn -> Prop) (m : W A) (f : A -> W B) :
  throwsOnly Q m -> (forall a, result m = Ok a -> throwsOnly Q (f a)) ->
  throwsOnly Q (bind m f).
Proof.
  intros Hm Hf e. unfold bind.
  destruct (result m) as [a | e'] eqn:E; simpl.
  - apply (Hf a eq_refl).
  - intros H. injection H as <-. now apply Hm.
Qed.

Lemma throwsOnly_forEach {A : Type} (Q : exn -> Prop) (l : list A) (f : A -> W unit) :
  (forall x, In x l -> throwsOnly Q (f x)) -> throwsOnly Q (forEach l f).
Proof.
  induction l as [| x l IH]; intros H; cbn [forEach].
  - apply throwsOnly_returns, returns_ret.
  - apply throwsOnly_bind; [apply H; now left |].
    intros _ _. apply IH. intros y Hy. apply H. now right.
Qed.

(** A selected version is validated without an exception, or ends with
    the [TypeError] of [path.join] on the [profile.file] of its manifest. *)
Lemma validateVersion_throws (P : Platform) (fs : FileSystem)
      (packId versionsDir : string) (strictMode : bool) (version : string) :
  throwsOnly
    (fun e => e = TypeError
              /\ exists manifest,
                   manifestLoads fs
                     (Path.join (Path.join versionsDir version) "manifest.v1.json") manifest
                   /\ profileFileJoinable manifest = false)
    (validateVersion P fs packId versionsDir strictMode version).
Proof.
  unfold validateVersion.
  set (versionDir := Path.join versionsDir version) in *.
  set (manifestPath := Path.join versionDir "manifest.v1.json") in *.
  destruct (existsAsDirectory_spec fs versionDir) as (Rd & _).
  apply throwsOnly_bind; [apply throwsOnly_returns; eexists; exact Rd |].
  intros isDir HisDir. rewrite Rd in HisDir. injection HisDir as <-.
  destruct (Fs.isDirNode (Fs.node fs versionDir)) eqn:Hdir; simpl negb; cbv iota;
    [| apply throwsOnly_returns, returns_addIssue].
  destruct (existsAsFile_spec fs manifestPath) as (Rf & _).
  apply throwsOnly_bind; [apply throwsOnly_returns; eexists; exact Rf |].
  intros isFile HisFile. rewrite Rf in HisFile. injection HisFile as <-.
  destruct (Fs.isFileNode (Fs.node fs manifestPath)) eqn:Hfile; simpl negb; cbv iota;
    [| apply throwsOnly_returns, returns_addIssue].
  apply throwsOnly_bind.
  - destruct (result (readJson fs manifestPath)) as [[manifest |] | e'] eqn:Hread.
    + destruct (Js.notPlainObject (Some manifest)) eqn:Hobj.
      * apply throwsOnly_returns. unfold validateManifestFile.
        eapply returns_bind_ok; [exact Hread |]. cbv beta iota. rewrite Hobj. run_auto.
      * assert (Hl : manifestLoads fs manifestPath manifest) by (split; assumption).
        destruct (profileFileJoinable manifest) eqn:Hj.
        -- apply throwsOnly_returns.
           destruct (validateManifestFile_complete P fs versionDir manifestPath strictMode
                       manifest Hl Hj Hdir) as (r & b & _ & Hres & _).
           eexists. exact Hres.
        -- destruct (validateManifestFile_type_error P fs versionDir manifestPath strictMode
                       manifest Hl Hj) as (Hres & _).
           intros e He. rewrite Hres in He. injection He as <-.
           split; [reflexivity |]. exists manifest. split; assumption.
    + apply throwsOnly_returns. unfold validateManifestFile.
      eapply returns_bind_ok; [exact Hread |]. cbv beta iota. run_auto.
    + discriminate Hread.
  - intros m _. apply throwsOnly_returns. destruct m; run_auto.
Qed.

Lemma validatePackRun_throws (P : Platform) (fs : FileSystem) (packId : string)
      (options : Options) :
  throwsOnly (profileFileCrash fs packId) (validatePackRun P fs packId options).
Proof.
  unfold validatePackRun. cbv zeta.
  apply throwsOnly_bind; [apply throwsOnly_returns, returns_existsSync |].
  intros e _. destruct e; simpl negb; cbv iota;
    [| apply throwsOnly_returns, returns_addIssue].
  apply throwsOnly_bind; [apply throwsOnly_returns, returns_readJson |].
  intros [packJson |] _; [| apply throwsOnly_returns, returns_addIssue].
  destruct (Js.notPlainObject (Some packJson));
    [apply throwsOnly_returns, returns_addIssue |].
  apply throwsOnly_bind; [apply throwsOnly_returns, checkPackJson_returns |].
  intros _ _.
  set (versionsDir := Path.join (Path.join "packs" packId) "versions").
  destruct (existsAsDirectory_spec fs versionsDir) as (Rd & _).
  apply throwsOnly_bind; [apply throwsOnly_returns; eexists; exact Rd |].
  intros isDir HisDir. rewrite Rd in HisDir. injection HisDir as <-.
  destruct (Fs.isDirNode (Fs.node fs versionsDir)) eqn:Hdir; simpl negb; cbv iota;
    [| apply throwsOnly_returns, returns_addIssue].
  unfold Fs.isDirNode in Hdir.
  destruct (Fs.node fs versionsDir) as [[| es |] |] eqn:Hn; try discriminate Hdir.
  assert (Hrd : result (Fs.readdirSync fs versionsDir) = Ok es)
    by (unfold Fs.readdirSync; simpl; now rewrite Hn).
  apply throwsOnly_bind; [apply throwsOnly_returns; eexists; exact Hrd |].
  intros names _.
  apply throwsOnly_bind; [apply throwsOnly_returns, directoriesAmong_returns |].
  intros dirs _.
  destruct (Nat.eqb _ 0); [apply throwsOnly_returns, returns_addIssue |].
  apply throwsOnly_bind.
  - apply throwsOnly_forEach. intros version _ e He.
    destruct (validateVersion_throws P fs packId versionsDir (strict options) version e He)
      as (-> & manifest & Hl & Hj).
    split; [reflexivity |]. exists version, manifest. split; assumption.
  - intros _ _. apply throwsOnly_returns. unfold checkLatestVersion. run_auto.
Qed.

(** X22. The pack validator ends with an exception in one case only: a
    [TypeError], when a version of the pack on disk has a manifest that loads
    and whose [profile.file] is truthy and not a string.  A missing or
    malformed file, directory or field never makes it throw. *)
Theorem validatePack_throws_only_TypeError
        (P : Platform) (fs : FileSystem) (packId : string) (options : Options) (e : exn) :
  validatePack P fs packId options = Throw e ->
  e = TypeError
  /\ exists version manifest,
       manifestLoads fs (manifestPathOf packId version) manifest
       /\ profileFileJoinable manifest = false.
Proof.
  unfold validatePack. cbv zeta. intros H.
  apply (validatePackRun_throws P fs packId options e).
  destruct (result (validatePackRun P fs packId options)); [discriminate |].
  now injection H as <-.
Qed.

Lemma validatePack_throws_only_TypeError_witness :
  validatePack Sample.host Sample.repoNumberFile "pub.slug" Sample.defaults = Throw TypeError
  /\ exists version manifest,
       manifestLoads Sample.repoNumberFile (manifestPathOf "pub.slug" version) manifest
       /\ profileFileJoinable manifest = false.
Proof.
  split; [vm_compute; reflexivity |].
  apply (proj2 (validatePack_throws_only_TypeError Sample.host Sample.repoNumberFile
                  "pub.slug" Sample.defaults TypeError eq_refl)).
Defined.

(** ** Flags *)

Lemma parseFlag_app (flags : Flags) (arg : string) :
  parseFlag flags arg = (parseFlag [] arg ++ flags)%list.
Proof.
  assert (Hset : forall key value, flagSet flags key value = (flagSet [] key value ++ flags)%list)
    by (intros key value; unfold flagSet; destruct (String.eqb key "__proto__"); reflexivity).
  unfold parseFlag.
  destruct (Str.isEmpty arg); [reflexivity |].
  destruct (Str.startsWith arg "--").
  - cbv zeta. destruct (Str.isEmpty (sliceFrom 2 arg)); [reflexivity |].
    destruct (Str.cut "=" (sliceFrom 2 arg)) as [key [value |]]; [| apply Hset].
    destruct (Str.isEmpty key); [reflexivity | apply Hset].
  - destruct (Str.startsWith arg "-" && Nat.ltb 1 (String.length arg)); [| reflexivity].
    cbv zeta. destruct (Str.isEmpty (sliceFrom 1 arg)); [reflexivity | apply Hset].
Qed.

Lemma parseFlag_size (arg : string) :
  parseFlag [] arg = [] \/ exists key value, parseFlag [] arg = [(key, value)].
Proof.
  assert (Hset : forall key value,
             flagSet [] key value = [] \/ exists k v, flagSet [] key value = [(k, v)])
    by (intros key value; unfold flagSet; destruct (String.eqb key "__proto__"); eauto).
  unfold parseFlag.
  destruct (Str.isEmpty arg); [auto |].
  destruct (Str.startsWith arg "--").
  - cbv zeta. destruct (Str.isEmpty (sliceFrom 2 arg)); [auto |].
    destruct (Str.cut "=" (sliceFrom 2 arg)) as [key [value |]]; [| apply Hset].
    destruct (Str.isEmpty key); [auto | apply Hset].
  - destruct (Str.startsWith arg "-" && Nat.ltb 1 (String.length arg)); [| auto].
    cbv zeta. destruct (Str.isEmpty (sliceFrom 1 arg)); [auto | apply Hset].
Qed.

Lemma fold_parseFlag_app (argv : list string) (flags : Flags) :
  fold_left parseFlag argv flags = (fold_left parseFlag argv [] ++ flags)%list.
Proof.
  revert flags. induction argv as [| arg rest IH]; intros flags; simpl; auto.
  rewrite IH, (IH (parseFlag [] arg)), parseFlag_app, app_assoc. reflexivity.
Qed.

Lemma flagGet_app (a b : Flags) (key : string) :
  flagGet (a ++ b)%list key
  = match flagGet a key with Some v => Some v | None => flagGet b key end.
Proof.
  induction a as [| [k v] a IH]; simpl; auto.
  destruct (String.eqb key k); auto.
Qed.

Lemma flagGet_leftAlone (after : list string) (key : string) :
  forallb (leavesAlone key) after = true ->
  flagGet (fold_left parseFlag after []) key = None.
Proof.
  induction after as [| arg rest IH]; simpl; auto.
  rewrite andb_true_iff. intros [Harg Hrest].
  rewrite fold_parseFlag_app, flagGet_app, (IH Hrest).
  unfold leavesAlone, assignedKey in Harg.
  destruct (parseFlag_size arg) as [E | (k & v & E)]; rewrite E in *; simpl; auto.
  apply negb_true_iff in Harg. now rewrite Harg.
Qed.

Lemma sliceFrom_two (x : string) : sliceFrom 2 ("--" ++ x) = x.
Proof.
  unfold sliceFrom. change ("--" ++ x) with (String "-" (String "-" x)).
  cbn [String.length]. rewrite !Nat.sub_succ, Nat.sub_0_r.
  cbn [String.substring]. apply substring_full.
Qed.

Lemma startsWith_two (x : string) : Str.startsWith ("--" ++ x) "--" = true.
Proof.
  unfold Str.startsWith. change ("--" ++ x) with (String "-" (String "-" x)).
  cbn [String.prefix].
  destruct (Ascii.ascii_dec "-" "-") as [_ | N]; [| now elim N].
  apply prefix_empty.
Qed.

(** What the two long forms of a flag assign. *)
Lemma parseFlag_long (key value : string) :
  Str.isEmpty key = false ->
  Str.includes key "=" = false ->
  inherited key = false ->
  parseFlag [] ("--" ++ key ++ "=" ++ value) = [(key, value)]
  /\ parseFlag [] ("--" ++ key) = [(key, "true")].
Proof.
  intros Hk He Hown.
  assert (Hproto : String.eqb key "__proto__" = false).
  { unfold inherited, objectPrototypeKeys in Hown. cbn [existsb] in Hown.
    repeat (apply orb_false_iff in Hown as [? Hown]). assumption. }
  unfold parseFlag, flagSet. rewrite !startsWith_two, !sliceFrom_two. cbv zeta.
  change (key ++ "=" ++ value) with (key ++ String "=" value).
  rewrite (cut_first "="%char key value He), (cut_absent "="%char key He), Hk.
  assert (H1 : Str.isEmpty (key ++ String "=" value) = false)
    by (destruct key; [discriminate Hk | reflexivity]).
  rewrite H1, Hproto. split; reflexivity.
Qed.

(** X15. A flag is read at the last argument that assigns it.  For a key
    that is not empty, holds no [=] and is not a name [Object.prototype]
    defines: after [--key=value], with no later argument that assigns [key],
    [readStringFlag] returns [value] whatever came before; after a bare
    [--key], [readBooleanFlag] returns [true]; and a key that no argument
    assigns reads as [null]. *)
Theorem parseFlags_last_assignment_wins (P : Platform)
        (before after : list string) (key value : string) :
  Str.isEmpty key = false ->
  Str.includes key "=" = false ->
  inherited key = false ->
  forallb (leavesAlone key) after = true ->
  readStringFlag (parseFlags (before ++ ("--" ++ key ++ "=" ++ value) :: after)) key
  = Some value
  /\ readBooleanFlag P (parseFlags (before ++ ("--" ++ key) :: after)) key = Some true
  /\ readStringFlag (parseFlags after) key = None.
Proof.
  intros Hk He Hown Hafter.
  destruct (parseFlag_long key value Hk He Hown) as [Hlong Hbare].
  assert (Hread : forall arg v, parseFlag [] arg = [(key, v)] ->
            flagGet (fold_left parseFlag (before ++ arg :: after) []) key = Some v).
  { intros arg v Harg. rewrite fold_left_app. simpl fold_left.
    rewrite fold_parseFlag_app, flagGet_app, (flagGet_leftAlone after key Hafter).
    rewrite parseFlag_app, Harg. simpl. now rewrite String.eqb_refl. }
  unfold readBooleanFlag, readStringFlag, parseFlags. repeat split.
  - now rewrite (Hread _ _ Hlong).
  - rewrite (Hread _ _ Hbare). cbv zeta.
    change (Str.trim "true") with "true".
    rewrite (toLowerCase_ascii P "true" eq_refl). reflexivity.
  - now rewrite (flagGet_leftAlone after key Hafter), Hown.
Qed.

Lemma parseFlags_last_assignment_wins_witness :
  readStringFlag (parseFlags ["--packId=other"; "--packId=pub.slug"; "--strict"; "extra"])
    "packId" = Some "pub.slug".
Proof.
  exact (proj1 (parseFlags_last_assignment_wins Sample.host
                  ["--packId=other"] ["--strict"; "extra"]
                  "packId" "pub.slug" eq_refl eq_refl eq_refl eq_refl)).
Defined.

(** ** Table cells *)

Lemma firstn_exact {A : Type} (l : list A) (n : nat) :
  List.length l = n -> firstn n l = l.
Proof. intros <-. apply firstn_all. Qed.

(** X16. A cell of the issue table, [pad(truncate(s, width), width)], is
    exactly [width] code units long: a text that fits is kept whole and
    filled with spaces; a longer one is cut to its first [width - 3] code
    units followed by three dots, when [width] is more than 3. *)
Theorem pad_truncate_fills_the_column (s : list N) (width : nat) :
  List.length (pad (truncate s width) width) = width
  /\ (List.length s <= width ->
      pad (truncate s width) width = (s ++ repeat 32%N (width - List.length s))%list)
  /\ (width < List.length s -> 3 < width ->
      pad (truncate s width) width = (firstn (width - 3) s ++ [46; 46; 46]%N)%list).
Proof.
  unfold pad, truncate.
  destruct (Nat.leb_spec (List.length s) width) as [Hfit | Hlong].
  - destruct (Nat.leb_spec width (List.length s)) as [Hle | Hlt].
    + assert (E : List.length s = width) by lia.
      repeat split; try lia.
      * rewrite length_firstn. lia.
      * intros _. rewrite (firstn_exact _ _ E), E, Nat.sub_diag. simpl.
        now rewrite app_nil_r.
    + repeat split; try lia; auto.
      rewrite length_app, repeat_length. lia.
  - destruct (Nat.leb_spec width 3) as [Hsmall | Hbig].
    + rewrite length_firstn.
      replace (Nat.min width (List.length s)) with width by lia.
      rewrite Nat.leb_refl. repeat split; try lia.
      rewrite length_firstn, length_firstn. lia.
    + assert (E : List.length (firstn (width - 3) s ++ [46; 46; 46]%N)%list = width).
      { rewrite length_app, length_firstn. simpl. lia. }
      rewrite E, Nat.leb_refl, (firstn_exact _ _ E).
      repeat split; try lia; auto.
Qed.

(** ** Exit status *)

Lemma countLevel_positive (lvl : level) (issues : list Issue) :
  Nat.ltb 0 (countLevel lvl issues) = true <-> Exists (hasLevel lvl) issues.
Proof.
  unfold countLevel. rewrite Nat.ltb_lt. induction issues as [| i l IH]; simpl.
  - split; [lia | intros H; inversion H].
  - destruct (levelEqb (issueLevel i) lvl) eqn:E; simpl.
    + split; [| lia]. intros _. left. now apply levelEqb_eq.
    + rewrite IH. split; [now right |].
      intros H. inversion H as [? ? Hi | ? ? Hl]; subst; auto.
      apply levelEqb_eq in Hi. congruence.
Qed.

(** The exit code is 1 exactly when an error is there, or a warning in
    strict mode; it is 0 otherwise. *)
Lemma exitCodeOf_spec (strictMode : bool) (issues : list Issue) :
  (exitCodeOf strictMode issues = 1
   <-> Exists (hasLevel error) issues
       \/ (strictMode = true /\ Exists (hasLevel warn) issues))
  /\ (exitCodeOf strictMode issues = 0 \/ exitCodeOf strictMode issues = 1).
Proof.
  unfold exitCodeOf.
  pose proof (countLevel_positive error issues) as He.
  pose proof (countLevel_positive warn issues) as Hw.
  destruct (Nat.ltb 0 (countLevel error issues)).
  - split; auto. split; auto. intros _. left. now apply He.
  - assert (Hne : ~ Exists (hasLevel error) issues) by (rewrite <- He; discriminate).
    destruct strictMode; simpl.
    + destruct (Nat.ltb 0 (countLevel warn issues)).
      * split; auto. split; auto. intros _. right. split; auto. now apply Hw.
      * split; auto. split; [discriminate |].
        intros [H | [_ H]]; [contradiction | apply Hw in H; discriminate].
    + split; auto. split; [discriminate |].
      intros [H | [H _]]; [contradiction | discriminate].
Qed.

Lemma allIssues_collect {A B : Type} (Q R : Issue -> Prop) (m : W A)
      (f : list Issue -> W B) :
  allIssues R m ->
  (forall l, Forall R l -> allIssues Q (f l)) ->
  allIssues Q (bind (collect m) f).
Proof.
  unfold allIssues, bind, collect. intros Hm Hf. simpl.
  destruct (result m); simpl; [apply Hf, Hm | constructor].
Qed.

Lemma withPackJson_silent (fs : FileSystem) (root : string) (names : list string) :
  issued (withPackJson fs root names) = [] /\ returns (withPackJson fs root names).
Proof.
  induction names as [| name rest [IHi [more IHr]]]; simpl.
  - split; [reflexivity | apply returns_ret].
  - unfold bind at 1 3. simpl. rewrite IHr. simpl. rewrite IHi.
    split; [reflexivity | eexists; reflexivity].
Qed.

Lemma scanDiskPackIds_silent (P : Platform) (fs : FileSystem) :
  issued (scanDiskPackIds P fs) = [] /\ returns (scanDiskPackIds P fs).
Proof.
  unfold scanDiskPackIds. cbv zeta.
  destruct (existsAsDirectory_spec fs "packs") as [Hr Hi].
  erewrite issued_bind by exact Hr. rewrite Hi. simpl app.
  split.
  - destruct (Fs.isDirNode (Fs.node fs "packs")) eqn:Hd; simpl negb; cbv iota; auto.
    unfold Fs.isDirNode in Hd.
    destruct (Fs.node fs "packs") as [[| es |] |] eqn:Hn; try discriminate Hd.
    assert (Hrd : result (Fs.readdirSync fs "packs") = Ok es)
      by (unfold Fs.readdirSync; simpl; now rewrite Hn).
    erewrite issued_bind by exact Hrd. simpl app.
    destruct (directoriesAmong_returns fs "packs" (map fst es)) as [dirs Hdirs].
    erewrite issued_bind by exact Hdirs. rewrite directoriesAmong_silent. simpl app.
    destruct (withPackJson_silent fs "packs" dirs) as [Hwi [out Hwr]].
    erewrite issued_bind by exact Hwr. rewrite Hwi. reflexivity.
  - apply returns_bind_ok with (a := Fs.isDirNode (Fs.node fs "packs")); [exact Hr |].
    destruct (Fs.isDirNode (Fs.node fs "packs")) eqn:Hd; simpl negb; cbv iota;
      [| apply returns_ret].
    unfold Fs.isDirNode in Hd.
    destruct (Fs.node fs "packs") as [[| es |] |] eqn:Hn; try discriminate Hd.
    assert (Hrd : result (Fs.readdirSync fs "packs") = Ok es)
      by (unfold Fs.readdirSync; simpl; now rewrite Hn).
    apply returns_bind_ok with (a := es); [exact Hrd |].
    apply returns_bind; [apply directoriesAmong_returns |]. intros dirs.
    apply returns_bind; [apply withPackJson_silent | intros; apply returns_ret].
Qed.

Ltac relaxed := run_auto; try solve [constructor | discriminate | apply Forall_nil].

(** The cross-check pushes nothing itself, and hands back no issue or one error. *)
Lemma crossCheck_outcome (P : Platform) (fs : FileSystem) (catalogPacks : list JSON)
      (packId : string) :
  issued (crossCheck P fs catalogPacks packId) = []
  /\ exists cross,
       result (crossCheck P fs catalogPacks packId) = Ok cross
       /\ Forall (hasLevel error) cross.
Proof.
  unfold crossCheck. destruct (find _ catalogPacks) as [entry |].
  2: { split; [reflexivity |]. exists []. split; [reflexivity | constructor]. }
  destruct (returns_readJson fs (joinAll ["packs"; packId; "pack.json"])) as [loaded Hl].
  erewrite issued_bind, result_bind by exact Hl.
  assert (Hnone : forall A (x : A), issued (@ret A x) = []) by reflexivity.
  destruct loaded as [[| b | x | s | items | fields] |]; cbv zeta;
    try match goal with |- context [if ?c then _ else _] => destruct c end;
    (split; [reflexivity |]); eexists; (split; [reflexivity |]); repeat constructor.
Qed.

Lemma forEach_refile (packId : string) (issues : list Issue) :
  result (forEach issues
            (fun issue => addIssue (issueLevel issue) (packId ++ ": " ++ message issue)))
  = Ok tt
  /\ issued (forEach issues
               (fun issue => addIssue (issueLevel issue) (packId ++ ": " ++ message issue)))
     = map (filedUnder packId) issues.
Proof.
  induction issues as [| i l [IHr IHi]]; [split; reflexivity |].
  cbn [forEach]. erewrite result_bind, issued_bind by reflexivity.
  rewrite IHr, IHi. split; reflexivity.
Qed.

(** One turn of the loop of [main] that returns: the issues of the pack
    and of the cross-check, filed under the pack. *)
Lemma validateSelected_outcome (P : Platform) (fs : FileSystem) (all : bool)
      (catalogPacks : list JSON) (options : Options) (packId : string) :
  match result (validatePackRun P fs packId options) with
  | Throw e => result (validateSelected P fs all catalogPacks options packId) = Throw e
  | Ok _ =>
      exists cross,
        result (if all then crossCheck P fs catalogPacks packId else ret []) = Ok cross
        /\ Forall (hasLevel error) cross
        /\ result (validateSelected P fs all catalogPacks options packId) = Ok tt
        /\ issued (validateSelected P fs all catalogPacks options packId)
           = map (filedUnder packId)
               (issued (validatePackRun P fs packId options) ++ cross)%list
  end.
Proof.
  unfold validateSelected.
  destruct (result (validatePackRun P fs packId options)) as [u | e] eqn:Hrun.
  - assert (Hc : result (collect (validatePackRun P fs packId options))
                 = Ok (issued (validatePackRun P fs packId options)))
      by (unfold collect; cbn [result]; now rewrite Hrun).
    assert (Hcross : exists cross,
               issued (if all then crossCheck P fs catalogPacks packId else ret []) = []
               /\ result (if all then crossCheck P fs catalogPacks packId else ret [])
                  = Ok cross
               /\ Forall (hasLevel error) cross).
    { destruct all.
      - destruct (crossCheck_outcome P fs catalogPacks packId) as (Hi & cross & Hr & He).
        eauto.
      - exists []. repeat split. constructor. }
    destruct Hcross as (cross & Hci & Hcr & Hce).
    exists cross. split; [exact Hcr |]. split; [exact Hce |].
    destruct (forEach_refile packId
                (issued (validatePackRun P fs packId options) ++ cross)%list) as [Hfr Hfi].
    erewrite result_bind, issued_bind by exact Hc.
    erewrite result_bind, issued_bind by exact Hcr.
    rewrite Hci, Hfr, Hfi. split; reflexivity.
  - unfold bind, collect. cbn [result]. rewrite Hrun. reflexivity.
Qed.

Lemma forEach_validateSelected (P : Platform) (fs : FileSystem) (all : bool)
      (catalogPacks : list JSON) (options : Options) (ids : list string) :
  result (forEach ids (validateSelected P fs all catalogPacks options)) = Ok tt ->
  (forall id, In id ids -> result (validatePackRun P fs id options) = Ok tt)
  /\ issued (forEach ids (validateSelected P fs all catalogPacks options))
     = flat_map (fun id => map (filedUnder id)
                             (issued (validatePackRun P fs id options)
                              ++ crossIssues P fs all catalogPacks id)%list) ids.
Proof.
  induction ids as [| id rest IH]; [intros _; split; [intros ? [] | reflexivity] |].
  cbn [forEach]. intros H.
  apply result_bind_inv in H as ([] & Hid & Hrest).
  destruct (IH Hrest) as [IHr IHi].
  pose proof (validateSelected_outcome P fs all catalogPacks options id) as Ho.
  destruct (result (validatePackRun P fs id options)) as [[] | e] eqn:Hrun;
    [| rewrite Ho in Hid; discriminate Hid].
  destruct Ho as (cross & Hcr & _ & _ & Hi).
  split.
  - intros x [<- | Hx]; auto.
  - erewrite issued_bind by exact Hid. rewrite Hi, IHi. cbn [flat_map].
    unfold crossIssues at 2. rewrite Hcr. reflexivity.
Qed.

(** A run of [main] that ends without an exception: what it has in
    [issues], part by part. *)
Lemma packMainRun_outcome (P : Platform) (fs : FileSystem) (flags : Flags) :
  result (packMainRun P fs flags) = Ok tt ->
  let all := flagIsTrue P flags "all" in
  let load := if all then loadCatalogPacks fs (flagOr flags "catalog" defaultCatalogPath)
              else ret [] in
  exists catalogPacks,
    result load = Ok catalogPacks
    /\ (forall id, In id (selectedPackIdsOf P flags catalogPacks) ->
                   result (validatePackRun P fs id (optionsOf P flags)) = Ok tt)
    /\ issued (packMainRun P fs flags)
       = (issued load
          ++ issued (if all then reportOrphans P fs (selectedPackIdsOf P flags catalogPacks)
                     else ret tt)
          ++ flat_map (fun id => map (filedUnder id)
                                   (issued (validatePackRun P fs id (optionsOf P flags))
                                    ++ crossIssues P fs all catalogPacks id)%list)
               (selectedPackIdsOf P flags catalogPacks))%list.
Proof.
  unfold packMainRun. cbv zeta. intros H.
  apply result_bind_inv in H as (catalogPacks & Hload & H).
  exists catalogPacks. split; [exact Hload |].
  fold (optionsOf P flags) in *.
  assert (Hsel : (if flagIsTrue P flags "all"
                  then map (fun pack => Js.trimmedOrEmpty (Js.prop pack "packId")) catalogPacks
                  else match readStringFlag flags "packId" with
                       | Some packIdFlag =>
                           if negb (Str.isEmpty packIdFlag) then [Str.trim packIdFlag] else []
                       | None => []
                       end) = selectedPackIdsOf P flags catalogPacks) by reflexivity.
  rewrite Hsel in *.
  apply result_bind_inv in H as ([] & Horph & H).
  destruct (forEach_validateSelected P fs _ _ _ _ H) as [Hall Hi].
  split; [exact Hall |].
  erewrite issued_bind by exact Hload. rewrite Hsel.
  erewrite issued_bind by exact Horph. rewrite Hi. reflexivity.
Qed.

Lemma loadCatalogPacks_errors (fs : FileSystem) (catalogPath : string) :
  allIssues (hasLevel error) (loadCatalogPacks fs catalogPath).
Proof.
  unfold loadCatalogPacks.
  apply allIssues_bind; [constructor |]. intros [|]; simpl negb; cbv iota.
  - apply allIssues_bind; [constructor |]. intros [c |]; run_auto; try reflexivity.
  - run_auto. reflexivity.
Qed.

Lemma reportOrphans_info (P : Platform) (fs : FileSystem) (selected : list string) :
  allIssues (hasLevel info) (reportOrphans P fs selected).
Proof.
  unfold reportOrphans.
  apply allIssues_bind; [apply allIssues_silent, scanDiskPackIds_silent |].
  intros disk. run_auto. reflexivity.
Qed.

(** X17. The exit status of [validate-pack.mjs].  A run that no exception
    ends exits with 0 or 1; with 1 exactly when the command line asks for
    nothing, or an error is among the issues, or strict mode is on and a
    warning is among them.  With strict mode off no issue is a warning, so
    the run fails on errors only. *)
Theorem packMain_exit_status (P : Platform) (fs : FileSystem) (argv : list string)
        (report : Report) :
  packMain P fs argv = Ok report ->
  (exitCode report = 0 \/ exitCode report = 1)
  /\ (exitCode report = 1
      <-> asksNothing P (parseFlags argv) = true
          \/ Exists (hasLevel error) (reported report)
          \/ (flagIsTrue P (parseFlags argv) "strict" = true
              /\ Exists (hasLevel warn) (reported report)))
  /\ (flagIsTrue P (parseFlags argv) "strict" = false -> Forall notWarn (reported report)).
Proof.
  unfold packMain, asksNothing. cbv zeta.
  set (flags := parseFlags argv).
  destruct (helpAsked flags); simpl negb; cbn [andb].
  { intros H. injection H as <-. simpl. split; [auto |]. split; [| constructor].
    split; [discriminate |].
    intros [H | [H | [_ H]]]; [discriminate H | inversion H | inversion H]. }
  destruct (negb (flagIsTrue P flags "all") && negb (truthyFlag (readStringFlag flags "packId"))).
  { intros H. injection H as <-. simpl. split; [auto |]. split; [| constructor].
    split; auto. }
  destruct (result (packMainRun P fs flags)) as [[] |] eqn:Hrun; [| discriminate].
  intros H. injection H as <-. cbn [exitCode reported].
  destruct (exitCodeOf_spec (flagIsTrue P flags "strict") (issued (packMainRun P fs flags)))
    as [Hone Hcode].
  split; [exact Hcode |]. split.
  - rewrite Hone. split; [auto |]. intros [H | H]; [discriminate H | exact H].
  - intros Hs.
    destruct (packMainRun_outcome P fs flags Hrun) as (catalogPacks & _ & _ & Hi).
    rewrite Hi. apply Forall_app. split; [| apply Forall_app; split].
    + destruct (flagIsTrue P flags "all"); [| constructor].
      eapply Forall_impl; [| apply loadCatalogPacks_errors].
      intros i Hi'. unfold notWarn. rewrite Hi'. discriminate.
    + destruct (flagIsTrue P flags "all"); [| constructor].
      eapply Forall_impl; [| apply reportOrphans_info].
      intros i Hi'. unfold notWarn. rewrite Hi'. discriminate.
    + apply Forall_flat_map. apply Forall_forall. intros id _.
      apply Forall_map, Forall_app. split.
      * pose proof (validatePackRun_levels P fs id (optionsOf P flags)) as Hl.
        unfold optionsOf in Hl at 1. cbn [strict] in Hl. rewrite Hs in Hl.
        eapply Forall_impl; [| exact Hl].
        intros i [Hi' | Hi']; unfold notWarn; simpl; rewrite Hi'; discriminate.
      * unfold crossIssues.
        pose proof (validateSelected_outcome P fs (flagIsTrue P flags "all") catalogPacks
                      (optionsOf P flags) id) as Ho.
        destruct (result (if flagIsTrue P flags "all"
                          then crossCheck P fs catalogPacks id else ret [])) as [cross |] eqn:Hc;
          [| constructor].
        assert (He : Forall (hasLevel error) cross).
        { destruct (flagIsTrue P flags "all").
          - destruct (crossCheck_outcome P fs catalogPacks id) as (_ & c & Hr & He).
            rewrite Hr in Hc. injection Hc as <-. exact He.
          - injection Hc as <-. constructor. }
        eapply Forall_impl; [| exact He].
        intros i Hi'. unfold notWarn. simpl. rewrite Hi'. discriminate.
Qed.

(** ** Packs on disk *)









(** ** The cross-check of [latestVersion] *)

(** X19. With [--all], a catalog entry whose [latestVersion] is not the one
    [pack.json] gives fails the run.  The entry is the first of the catalog
    whose [packId] and the pack's id are equal as [normalizePackId] gives
    them (trimmed, then lowered by the host's [toLowerCase]); when its
    [latestVersion] and that of [pack.json] are strings that are not blank
    and differ once trimmed, a run that ends reports the mismatch as an error
    under the pack's id and exits with 1. *)
Theorem packMain_latestVersion_mismatch
        (P : Platform) (fs : FileSystem) (argv : list string) (report : Report)
        (catalogPacks : list JSON) (packId : string) (catalogEntry packJson : JSON) :
  packMain P fs argv = Ok report ->
  helpAsked (parseFlags argv) = false ->
  flagIsTrue P (parseFlags argv) "all" = true ->
  result (loadCatalogPacks fs (flagOr (parseFlags argv) "catalog" defaultCatalogPath))
  = Ok catalogPacks ->
  In packId (selectedOf catalogPacks) ->
  catalogEntryOf P catalogPacks packId = Some catalogEntry ->
  result (readJson fs (joinAll ["packs"; packId; "pack.json"])) = Ok (Some packJson) ->
  packJson <> JNull ->
  Str.isEmpty (Js.trimmedOrEmpty (Js.prop packJson "latestVersion")) = false ->
  Str.isEmpty (Js.trimmedOrEmpty (Js.prop catalogEntry "latestVersion")) = false ->
  Js.trimmedOrEmpty (Js.prop packJson "latestVersion")
  <> Js.trimmedOrEmpty (Js.prop catalogEntry "latestVersion") ->
  In (mkIssue error
        (packId ++ ": "
         ++ latestMismatchMessage (Js.trimmedOrEmpty (Js.prop catalogEntry "latestVersion"))
              (Js.trimmedOrEmpty (Js.prop packJson "latestVersion")) packId))
     (reported report)
  /\ exitCode report = 1.
Proof.
  unfold packMain. cbv zeta. set (flags := parseFlags argv).
  intros Hmain Hhelp Hall Hload Hin Hfind Hread Hnull Hp Hc Hdiff.
  rewrite Hhelp, Hall in Hmain. simpl in Hmain.
  destruct (result (packMainRun P fs flags)) as [[] |] eqn:Hrun; [| discriminate].
  injection Hmain as <-. cbn [reported exitCode].
  destruct (packMainRun_outcome P fs flags Hrun) as (packs & Hload' & _ & Hi).
  cbv zeta in Hload', Hi. rewrite Hall in Hload', Hi.
  rewrite Hload in Hload'. injection Hload' as <-.
  assert (Hsel : selectedPackIdsOf P flags catalogPacks = selectedOf catalogPacks)
    by (unfold selectedPackIdsOf; now rewrite Hall).
  rewrite Hsel in Hi.
  assert (Hcross : crossIssues P fs true catalogPacks packId
                   = [mkIssue error
                        (latestMismatchMessage
                           (Js.trimmedOrEmpty (Js.prop catalogEntry "latestVersion"))
                           (Js.trimmedOrEmpty (Js.prop packJson "latestVersion")) packId)]).
  { unfold crossIssues, crossCheck. unfold catalogEntryOf in Hfind. rewrite Hfind.
    erewrite result_bind by exact Hread.
    apply String.eqb_neq in Hdiff.
    destruct packJson; try (now elim Hnull); cbv zeta; rewrite Hp, Hc, Hdiff; reflexivity. }
  assert (Hthere : In (mkIssue error
        (packId ++ ": "
         ++ latestMismatchMessage (Js.trimmedOrEmpty (Js.prop catalogEntry "latestVersion"))
              (Js.trimmedOrEmpty (Js.prop packJson "latestVersion")) packId))
     (issued (packMainRun P fs flags))).
  { rewrite Hi. apply in_or_app. right. apply in_or_app. right.
    apply in_flat_map. exists packId. split; [exact Hin |].
    rewrite Hcross. rewrite map_app. apply in_or_app. right. left. reflexivity. }
  split; [exact Hthere |].
  apply exitCodeOf_spec. left. apply Exists_exists. eexists. split; [exact Hthere |].
  reflexivity.
Qed.

Lemma packMain_latestVersion_mismatch_witness :
  packMain Sample.host (repoListed "1.1.0") ["--all"]
  = Ok {| exitCode := 1;
          reported :=
            [mkIssue info
               "Found 1 pack(s) on disk not present in catalog (delisted/orphan): old.pack";
             mkIssue error
               "pub.slug: Catalog latestVersion (1.1.0) does not match pack.json latestVersion (1.0.0) for pub.slug."] |}
  /\ In (mkIssue error
           "pub.slug: Catalog latestVersion (1.1.0) does not match pack.json latestVersion (1.0.0) for pub.slug.")
        [mkIssue info
           "Found 1 pack(s) on disk not present in catalog (delisted/orphan): old.pack";
         mkIssue error
           "pub.slug: Catalog latestVersion (1.1.0) does not match pack.json latestVersion (1.0.0) for pub.slug."].
Proof.
  split; [vm_compute; reflexivity |].
  refine (proj1 (packMain_latestVersion_mismatch Sample.host (repoListed "1.1.0") ["--all"]
                   {| exitCode := 1;
                      reported :=
                        [mkIssue info
                           "Found 1 pack(s) on disk not present in catalog (delisted/orphan): old.pack";
                         mkIssue error
                           "pub.slug: Catalog latestVersion (1.1.0) does not match pack.json latestVersion (1.0.0) for pub.slug."] |}
                   [JObject [("packId", Sample.str "pub.slug");
                             ("latestVersion", Sample.str "1.1.0")]]
                   "pub.slug"
                   (JObject [("packId", Sample.str "pub.slug");
                             ("latestVersion", Sample.str "1.1.0")])
                   (Sample.packJson "1.0.0")
                   _ _ _ _ _ _ _ _ _ _ _));
    try (vm_compute; reflexivity); try discriminate.
  left. reflexivity.
Defined.

(** ** The exit status of [validate-catalog.mjs] *)

(** X20. The exit status of [validate-catalog.mjs].  A run that no
    exception ends exits with 0 or 1; with 1 exactly when the catalog file
    cannot be read, or an error is among the issues, or strict mode is on and
    a warning is among them.  With strict mode off no issue is a warning. *)
Theorem catalogMain_exit_status (P : Platform) (fs : FileSystem) (argv : list string)
        (report : Report) :
  catalogMain P fs argv = Ok report ->
  (exitCode report = 0 \/ exitCode report = 1)
  /\ (exitCode report = 1
      <-> catalogUnread fs (parseFlags argv) = true
          \/ Exists (hasLevel error) (reported report)
          \/ (flagIsTrue P (parseFlags argv) "strict" = true
              /\ Exists (hasLevel warn) (reported report)))
  /\ (flagIsTrue P (parseFlags argv) "strict" = false -> Forall notWarn (reported report)).
Proof.
  unfold catalogMain, catalogUnread. cbv zeta. set (flags := parseFlags argv).
  assert (Hnone : forall (b : bool),
            Ok {| exitCode := if b then 1 else 0; reported := [] |} = Ok report ->
            (exitCode report = 0 \/ exitCode report = 1)
            /\ (exitCode report = 1
                <-> b = true
                    \/ Exists (hasLevel error) (reported report)
                    \/ (flagIsTrue P flags "strict" = true
                        /\ Exists (hasLevel warn) (reported report)))
            /\ (flagIsTrue P flags "strict" = false -> Forall notWarn (reported report))).
  { intros b H. injection H as <-. cbn [exitCode reported].
    split; [destruct b; auto |]. split; [| constructor].
    destruct b; split; auto; try discriminate.
    intros [H | [H | [_ H]]]; [discriminate H | inversion H | inversion H]. }
  destruct (helpAsked flags); simpl negb; cbn [andb]; [apply (Hnone false) |].
  destruct (result (Fs.existsSync fs (flagOr flags "file" defaultCatalogPath)))
    as [[|] |]; try apply (Hnone true).
  destruct (result (readJson fs (flagOr flags "file" defaultCatalogPath)))
    as [[catalog |] |]; try apply (Hnone true).
  unfold validateCatalog.
  destruct (result (validateCatalogRun P catalog (flagIsTrue P flags "strict")))
    eqn:Hrun; [| discriminate].
  intros H. injection H as <-. cbn [exitCode reported].
  destruct (exitCodeOf_spec (flagIsTrue P flags "strict")
              (issued (validateCatalogRun P catalog (flagIsTrue P flags "strict"))))
    as [Hone Hcode].
  split; [exact Hcode |]. split.
  - rewrite Hone. split; [auto |]. intros [H | H]; [discriminate H | exact H].
  - intros Hs. rewrite Hs. apply validateCatalogRun_relaxed_levels.
Qed.

(** ** Runs of the two command lines *)

Lemma packMain_exit_status_witness :
  exitCode {| exitCode := 1;
              reported :=
                [mkIssue warn
                   "pub.slug: Version folder contains 1 unreferenced file(s): notes.txt"] |}
  = 1
  <-> asksNothing Sample.host (parseFlags ["--packId=pub.slug"; "--strict"]) = true
      \/ Exists (hasLevel error)
           [mkIssue warn "pub.slug: Version folder contains 1 unreferenced file(s): notes.txt"]
      \/ (flagIsTrue Sample.host (parseFlags ["--packId=pub.slug"; "--strict"]) "strict" = true
          /\ Exists (hasLevel warn)
               [mkIssue warn
                  "pub.slug: Version folder contains 1 unreferenced file(s): notes.txt"]).
Proof.
  exact (proj1 (proj2 (packMain_exit_status Sample.host Sample.repoExtra
                         ["--packId=pub.slug"; "--strict"]
                         {| exitCode := 1;
                            reported :=
                              [mkIssue warn
                                 "pub.slug: Version folder contains 1 unreferenced file(s): notes.txt"] |}
                         eq_refl))).
Defined.

Lemma catalogMain_exit_status_witness :
  exitCode {| exitCode := 1;
              reported :=
                [mkIssue error "catalog.packs[0].publisher is required.";
                 mkIssue error "catalog.packs[0].slug is required.";
                 mkIssue error "catalog.packs[0].displayName is required.";
                 mkIssue error "catalog.packs[0].manifestUrl is required."] |}
  = 0
  \/ exitCode {| exitCode := 1;
                 reported :=
                   [mkIssue error "catalog.packs[0].publisher is required.";
                    mkIssue error "catalog.packs[0].slug is required.";
                    mkIssue error "catalog.packs[0].displayName is required.";
                    mkIssue error "catalog.packs[0].manifestUrl is required."] |}
     = 1.
Proof.
  exact (proj1 (catalogMain_exit_status Sample.host (repoListed "1.0.0") ["--strict"]
                  {| exitCode := 1;
                     reported :=
                       [mkIssue error "catalog.packs[0].publisher is required.";
                        mkIssue error "catalog.packs[0].slug is required.";
                        mkIssue error "catalog.packs[0].displayName is required.";
                        mkIssue error "catalog.packs[0].manifestUrl is required."] |}
                  eq_refl)).
Defined.

(** ** What a run of [validate-pack.mjs] throws *)

Lemma loadCatalogPacks_returns (fs : FileSystem) (catalogPath : string) :
  returns (loadCatalogPacks fs catalogPath).
Proof.
  unfold loadCatalogPacks.
  apply returns_bind; [apply returns_existsSync |]. intros [|]; simpl negb; cbv iota.
  - apply returns_bind; [apply returns_readJson |]. intros [c |]; run_auto.
  - run_auto.
Qed.

Lemma reportOrphans_returns (P : Platform) (fs : FileSystem) (selected : list string) :
  returns (reportOrphans P fs selected).
Proof.
  unfold reportOrphans.
  apply returns_bind; [apply scanDiskPackIds_silent |]. intros disk. run_auto.
Qed.

(** X23. A run of [validate-pack.mjs] ends with an exception in one case
    only: the [TypeError] of a selected pack that has, on disk, a version
    whose manifest loads with a [profile.file] that is truthy and not a
    string.  Reading the catalog, scanning [packs] and the cross-check of
    [latestVersion] never throw. *)
Theorem packMain_throws_only_TypeError
        (P : Platform) (fs : FileSystem) (argv : list string) (e : exn) :
  packMain P fs argv = Throw e ->
  e = TypeError
  /\ exists packId version manifest,
       manifestLoads fs (manifestPathOf packId version) manifest
       /\ profileFileJoinable manifest = false.
Proof.
  unfold packMain. cbv zeta. set (flags := parseFlags argv).
  destruct (helpAsked flags); [discriminate |].
  destruct (negb (flagIsTrue P flags "all") && negb (truthyFlag (readStringFlag flags "packId")));
    [discriminate |].
  destruct (result (packMainRun P fs flags)) as [[] | e'] eqn:Hrun; [discriminate |].
  intros H. injection H as ->.
  revert e Hrun.
  change (throwsOnly
            (fun e => e = TypeError
                      /\ exists packId version manifest,
                           manifestLoads fs (manifestPathOf packId version) manifest
                           /\ profileFileJoinable manifest = false)
            (packMainRun P fs flags)).
  unfold packMainRun. cbv zeta.
  apply throwsOnly_bind.
  { apply throwsOnly_returns. destruct (flagIsTrue P flags "all");
      [apply loadCatalogPacks_returns | apply returns_ret]. }
  intros catalogPacks _.
  apply throwsOnly_bind.
  { apply throwsOnly_returns. destruct (flagIsTrue P flags "all");
      [apply reportOrphans_returns | apply returns_ret]. }
  intros _ _. apply throwsOnly_forEach. intros packId _ e He.
  match type of He with
  | result (validateSelected _ _ ?all ?packs ?options _) = _ =>
      pose proof (validateSelected_outcome P fs all packs options packId) as Ho;
      destruct (result (validatePackRun P fs packId options)) as [[] | e'] eqn:Hpack
  end.
  - destruct Ho as (cross & _ & _ & Hok & _). rewrite Hok in He. discriminate He.
  - rewrite Ho in He. injection He as <-.
    match type of Hpack with
    | result (validatePackRun _ _ _ ?options) = _ =>
        destruct (validatePackRun_throws P fs packId options e' Hpack)
          as (-> & version & manifest & Hl & Hj)
    end.
    split; [reflexivity |]. exists packId, version, manifest. split; assumption.
Qed.

Lemma packMain_throws_only_TypeError_witness :
  packMain Sample.host Sample.repoNumberFile ["--packId=pub.slug"] = Throw TypeError
  /\ exists packId version manifest,
       manifestLoads Sample.repoNumberFile (manifestPathOf packId version) manifest
       /\ profileFileJoinable manifest = false.
Proof.
  split; [vm_compute; reflexivity |].
  apply (proj2 (packMain_throws_only_TypeError Sample.host Sample.repoNumberFile
                  ["--packId=pub.slug"] TypeError eq_refl)).
Defined.
